(** * gax-nodejs: streaming retries and page iteration

    A shallow embedding of
    - [StreamProxy] (streamingCalls/streaming.ts): the retry-policy
      classification and the server-streaming retry state machine built by
      [newStreamingRetryRequest];
    - [streamingRetryRequest] (streamingRetryRequest.ts): the legacy wrapper;
    - [PageDescriptor] (paginationCalls/pageDescriptor.ts): [createStream]
      and the iterator behind [asyncIterate].

    Event handlers become functions from a state to a new state and the list
    of calls they make on the consumer-facing stream, in program order. *)

From Stdlib Require Import ZArith QArith Qminmax String List Bool Lia.
From Stdlib Require Import Ascii DecimalString.
From stdpp Require Import base option list gmap strings.
Import ListNotations.

Local Open Scope string_scope.
Local Open Scope list_scope.
Local Open Scope Z_scope.

(** ** JavaScript values *)

Module Js.

(** The values handed around as opaque payloads (messages, metadata, status
    objects, request arguments). *)
#[local] Unset Elimination Schemes.
Inductive JsValue : Type :=
| VUndefined
| VNull
| VBool (b : bool)
| VNum (n : Z)
| VStr (s : string)
| VArr (items : list JsValue)
| VObj (fields : list (string * JsValue)).
#[local] Set Elimination Schemes.

(** [typeof x] for an optional number: always a string. *)
Definition typeof_number {A : Type} (x : option A) : JsValue :=
  match x with
  | None => VStr "undefined"
  | Some _ => VStr "number"
  end.

(** [v !== undefined]. *)
Definition strict_neq_undefined (v : JsValue) : bool :=
  match v with
  | VUndefined => false
  | _ => true
  end.

(** Truthiness of an optional number ([undefined] and [0] are falsy). *)
Definition truthyZ (x : option Z) : bool :=
  match x with
  | None => false
  | Some n => negb (n =? 0)
  end.

Definition truthyQ (x : option Q) : bool :=
  match x with
  | None => false
  | Some q => negb (Qeq_bool q 0)
  end.

(** An integer stands for the Number nearest to it (ties go to the even
    significand): itself below 2^53. *)
Definition toNumber (n : Z) : Z :=
  if n <? 2 ^ 53 then n
  else
    let ulp := 2 ^ (Z.log2 n - 52) in
    let q := n / ulp in
    let r := n mod ulp in
    if (ulp <? 2 * r) || ((2 * r =? ulp) && Z.odd q)
    then (q + 1) * ulp else q * ulp.

Definition decimal (n : Z) : string := NilZero.string_of_int (Z.to_int n).

Definition digitCount (n : Z) : Z := Z.of_nat (String.length (decimal n)).

(** Whether the integer [v] reads back as the Number [x], at least 2^53. *)
Definition readsBackAs (x v : Z) : bool :=
  let ulp := 2 ^ (Z.log2 x - 52) in
  let below := if x / ulp =? 2 ^ 52 then ulp / 2 else ulp in
  if Z.even (x / ulp)
  then (2 * x - below <=? 2 * v) && (2 * v <=? 2 * x + ulp)
  else (2 * x - below <? 2 * v) && (2 * v <? 2 * x + ulp).

(** The value with [k] significant digits that reads back as [x], if there
    is one: the nearer of the two that enclose [x]. *)
Definition withDigits (x k : Z) : option Z :=
  let p := 10 ^ (digitCount x - k) in
  let s := x / p in
  let lo := s * p in
  let hi := (s + 1) * p in
  match readsBackAs x lo, readsBackAs x hi with
  | true, true =>
      if x - lo <? hi - x then Some lo
      else if hi - x <? x - lo then Some hi
      else if Z.even s then Some lo else Some hi
  | true, false => Some lo
  | false, true => Some hi
  | false, false => None
  end.

Fixpoint shortestFrom (x k : Z) (fuel : nat) : Z :=
  match fuel with
  | O => x
  | S fuel' =>
      match withDigits x k with
      | Some v => v
      | None => shortestFrom x (k + 1) fuel'
      end
  end.

(** The decimal value with the fewest significant digits that reads back
    as the Number [x] (17 digits always do). *)
Definition shortest (x : Z) : Z :=
  if x <? 2 ^ 53 then x else shortestFrom x 1 17.

Fixpoint stripZeros (s : string) : string :=
  match s with
  | EmptyString => EmptyString
  | String c r =>
      let r' := stripZeros r in
      if Ascii.eqb c "0"%char && String.eqb r' "" then "" else String c r'
  end.

Definition exponentForm (v : Z) : string :=
  match stripZeros (decimal v) with
  | EmptyString => "0"
  | String c r =>
      String c (if String.eqb r "" then "" else "." +:+ r)
      +:+ "e+" +:+ decimal (digitCount v - 1)
  end.

(** Template-literal rendering of an integer-valued Number
    ([Number::toString]): the shortest digits that read back as the same
    Number, written out in full below 10^21 and in exponent form from
    there on. *)
Definition numberToString (n : Z) : string :=
  let x := toNumber (Z.abs n) in
  (if n <? 0 then "-" else "")
  +:+ (if 2 ^ 1024 <=? x then "Infinity"
       else
         let v := shortest x in
         if v <? 10 ^ 21 then decimal v else exponentForm v).

(** [Array.prototype.indexOf] on an array of numbers, searched for a value
    that may be [undefined]: the first index holding the value, else [-1]. *)
Fixpoint indexOf_from (k : Z) (xs : list Z) (x : option Z) : Z :=
  match xs with
  | [] => -1
  | y :: ys =>
      match x with
      | Some v => if y =? v then k else indexOf_from (k + 1) ys x
      | None => indexOf_from (k + 1) ys x
      end
  end.

Definition indexOf (xs : list Z) (x : option Z) : Z := indexOf_from 0 xs x.

End Js.

Import Js.

(** ** Errors *)

(** The decoded [google.rpc.ErrorInfo]. *)
Record ErrorInfo : Type := mkErrorInfo {
  ei_reason : string;
  ei_domain : string;
  ei_metadata : list (string * string)
}.

(** [GoogleError]. [statusDetailsBin] stands for the
    [grpc-status-details-bin] entry of [error.metadata], kept as the
    [ErrorInfo] it decodes to: [None] when the metadata or the key is absent
    or the payload does not decode. *)
Record GoogleError : Type := mkGoogleError {
  message : string;
  code : option Z;
  note : option string;
  statusDetailsBin : option ErrorInfo;
  reason : option string;
  domain : option string;
  errorInfoMetadata : option (list (string * string))
}.

Definition newGoogleError (msg : string) : GoogleError :=
  {| message := msg; code := None; note := None; statusDetailsBin := None;
     reason := None; domain := None; errorInfoMetadata := None |}.

Definition set_code (c : Z) (e : GoogleError) : GoogleError :=
  {| message := message e; code := Some c; note := note e;
     statusDetailsBin := statusDetailsBin e; reason := reason e;
     domain := domain e; errorInfoMetadata := errorInfoMetadata e |}.

Definition set_note (n : string) (e : GoogleError) : GoogleError :=
  {| message := message e; code := code e; note := Some n;
     statusDetailsBin := statusDetailsBin e; reason := reason e;
     domain := domain e; errorInfoMetadata := errorInfoMetadata e |}.

(** Modelled from the spec: [GoogleError.parseGRPCStatusDetails]
    (googleError.ts is not among the sources). It reads the
    [grpc-status-details-bin] entry, copies the decoded reason, domain and
    metadata onto the error and returns the same error; absent or malformed
    input leaves the fields unset and nothing is thrown. *)
Definition parseGRPCStatusDetails (e : GoogleError) : GoogleError :=
  match statusDetailsBin e with
  | None => e
  | Some info =>
      {| message := message e; code := code e; note := note e;
         statusDetailsBin := statusDetailsBin e;
         reason := Some (ei_reason info);
         domain := Some (ei_domain info);
         errorInfoMetadata := Some (ei_metadata info) |}
  end.

(** [`${error}`]: [Error.prototype.toString] with the default name. *)
Definition errorToString (e : GoogleError) : string :=
  if String.eqb (message e) "" then "Error" else "Error: " +:+ message e.

(** Modelled from the spec: the two members of the [Status] enum
    (status.ts is not among the sources) that the retry code uses. *)
Module Status.
Definition INVALID_ARGUMENT : Z := 3.
Definition DEADLINE_EXCEEDED : Z := 4.
End Status.

(** ** Retry settings (gax.ts declares them; the fields are those the
    streaming code reads)

    Numbers: counts and millisecond quantities are integers, the two
    multipliers and the running per-attempt timeout (a product of both kinds)
    are rationals; [NaN] and the infinities are not represented. An optional
    field that is [undefined] (or [null], which [??] turns into [undefined])
    is [None]. *)

Record BackoffSettings : Type := mkBackoffSettings {
  initialRetryDelayMillis : Z;
  retryDelayMultiplier : Q;
  maxRetryDelayMillis : Z;
  initialRpcTimeoutMillis : option Z;
  rpcTimeoutMultiplier : option Q;
  maxRpcTimeoutMillis : option Z;
  totalTimeoutMillis : option Z;
  maxRetries : option Z
}.

Record RetryOptions : Type := mkRetryOptions {
  retryCodes : list Z;
  backoffSettings : BackoffSettings;
  shouldRetryFn : option (GoogleError -> bool);
  getResumptionRequestFn : option (JsValue -> JsValue)
}.

(** ** StreamProxy: classification of errors *)

Module StreamProxy.

(** [defaultShouldRetry]. *)
Definition defaultShouldRetry (error : GoogleError) (retry : RetryOptions) : bool :=
  if ((0 <? Z.of_nat (length (retryCodes retry)))
        && (indexOf (retryCodes retry) (code error) <? 0))
     || (Z.of_nat (length (retryCodes retry)) =? 0)
  then false
  else true.

(** [shouldRetryRequest]. *)
Definition shouldRetryRequest (error : GoogleError) (retry : RetryOptions) : bool :=
  let e := parseGRPCStatusDetails error in
  let shouldRetry := defaultShouldRetry e retry in
  match shouldRetryFn retry with
  | Some f => f e
  | None => shouldRetry
  end.

(** *** The retry state machine of [newStreamingRetryRequest] *)

(** What one call is configured with: [opts.retry] (taken as given),
    [this.argument], [this._isCancelCalled], which only a [cancel()] issued
    before [setStream] sets, and the clock when [newStreamingRetryRequest]
    runs. *)
Record Call : Type := mkCall {
  retry : RetryOptions;
  argument : JsValue;
  isCancelCalled : bool;
  startTime : Z
}.

(** The locals of one invocation of [newMakeRequest]. *)
Record Attempt : Type := mkAttempt {
  dataEnd : bool;
  statusReceived : bool;
  enteredError : bool
}.

(** The variables shared by every attempt of one call. [attempts] holds the
    locals of each [newMakeRequest] made so far (request stream [i] is the
    one created by the [i]-th invocation); [timers] counts the [setTimeout]
    callbacks scheduled and not yet run. *)
Record State : Type := mkState {
  retries : Z;
  timeout : option Q;
  responseHasSent : bool;
  attempts : list Attempt;
  timers : nat
}.

(** Calls made by the handlers, in program order. *)
Inductive Action : Type :=
| ApiCall (arg : JsValue)
| RetryStreamEmit (event : string) (arg : JsValue)
| ProxyEmit (event : string) (arg : JsValue)
| RetryStreamEnd
| RetryStreamDestroy (e : GoogleError)
| RequestStreamDestroy (i : nat)
| SetTimeout (toSleep : Q)
| StreamCancel
| ThrowTypeError.

(** Events of request stream [i]; an error handler reads the clock ([now])
    and [Math.random()] ([rnd]). *)
Inductive StreamEvent : Type :=
| EvMetadata (metadata : JsValue)
| EvResponse (response : JsValue)
| EvStatus (status : JsValue)
| EvData (data : JsValue)
| EvEnd
| EvError (error : GoogleError) (now : Z) (rnd : Q).

Inductive Event : Type :=
| OnRequestStream (i : nat) (ev : StreamEvent)
| TimerFired (now : Z).

Definition totalTimeout (c : Call) : option Z :=
  totalTimeoutMillis (backoffSettings (retry c)).

Definition deadline (c : Call) : Z :=
  match totalTimeout c with
  | Some t => if truthyZ (Some t) then startTime c + t else 0
  | None => 0
  end.

Definition freshAttempt : Attempt :=
  {| dataEnd := false; statusReceived := false; enteredError := false |}.

Definition set_attempts (f : list Attempt -> list Attempt) (s : State) : State :=
  {| retries := retries s; timeout := timeout s;
     responseHasSent := responseHasSent s; attempts := f (attempts s);
     timers := timers s |}.

Definition set_retries (n : Z) (s : State) : State :=
  {| retries := n; timeout := timeout s;
     responseHasSent := responseHasSent s; attempts := attempts s;
     timers := timers s |}.

(** The response objects that [statusMetadataHelper] emits. *)
Definition okResponse : JsValue :=
  VObj [("code", VNum 200); ("details", VStr ""); ("message", VStr "OK")].

Definition okResponseWith (metadata : JsValue) : JsValue :=
  VObj [("code", VNum 200); ("details", VStr ""); ("message", VStr "OK");
        ("metadata", metadata)].

(** [throwIfMaxRetriesOrTotalTimeoutExceeded]: [Some e] when it throws [e].
    [nowTime] is the clock it reads. *)
Definition throwIfMaxRetriesOrTotalTimeoutExceeded
    (nowTime : Z) (deadline : Z) (maxRetries : option Z)
    (totalTimeoutMillis : option Q) (originalError : GoogleError)
    (originalTimeout : option Z) (retries : Z) : option GoogleError :=
  if truthyZ originalTimeout
     && (match totalTimeoutMillis with
         | Some t => Qeq_bool t 0 || negb (Qle_bool 0 t)
         | None => false
         end
         || (negb (deadline =? 0) && (deadline <=? nowTime)))
  then
    Some (set_code Status.DEADLINE_EXCEEDED
            (newGoogleError
               ("Total timeout of API exceeded "
                +:+ from_option numberToString "undefined" originalTimeout
                +:+ " milliseconds "
                +:+ ("retrying error " +:+ errorToString originalError +:+ " ")
                +:+ " before any response was received.")))
  else if match maxRetries with Some m => m =? 0 | None => false end
  then Some (set_note "Max retries is set to zero." originalError)
  else if negb (retries =? 0)
          && match maxRetries with Some m => m <=? retries | None => false end
  then
    Some (set_code Status.DEADLINE_EXCEEDED
            (newGoogleError
               ("Exceeded maximum number of retries "
                +:+ ("retrying error " +:+ errorToString originalError +:+ " ")
                +:+ "before any response was received")))
  else None.

(** [transientErrorHelper]. *)
Definition transientErrorHelper (i : nat) (error : GoogleError) : list Action :=
  let e := parseGRPCStatusDetails error in
  let e := set_note
             ("Exception occurred in retry method that was "
              +:+ "not classified as transient") e in
  [RequestStreamDestroy i; RetryStreamDestroy e].

(** [newMakeRequest] up to the registration of the handlers: the request
    function returns [undefined] once [_isCancelCalled] is set (after
    cancelling [this.stream] when there is one), and reading [.cancel] of
    that throws. *)
Definition newMakeRequest (c : Call) (arg : JsValue) (hasStream : bool)
    (s : State) : State * list Action :=
  if isCancelCalled c
  then (s, (if hasStream then [StreamCancel] else []) ++ [ThrowTypeError])
  else (set_attempts (fun l => l ++ [freshAttempt]) s, [ApiCall arg]).

(** [newStreamingRetryRequest]: the shared variables and the first
    [newMakeRequest]. *)
Definition newStreamingRetryRequest (c : Call) : State * list Action :=
  newMakeRequest c (argument c) false
    {| retries := 0;
       timeout := inject_Z <$> initialRpcTimeoutMillis (backoffSettings (retry c));
       responseHasSent := false;
       attempts := [];
       timers := 0 |}.

(** The ['metadata'] handlers of request stream [i], in registration order:
    the forwarder, then [statusMetadataHelper], whose ['response'] on the
    request stream the forwarder passes on. *)
Definition onMetadata (metadata : JsValue) (s : State) : State * list Action :=
  ({| retries := retries s; timeout := timeout s; responseHasSent := true;
      attempts := attempts s; timers := timers s |},
   [RetryStreamEmit "metadata" metadata;
    RetryStreamEmit "response" (okResponseWith metadata)]).

(** The ['status'] handlers: the forwarder, [statusMetadataHelper], then the
    handler of [newMakeRequest]. *)
Definition onStatus (i : nat) (a : Attempt) (status : JsValue) (s : State)
    : State * list Action :=
  (set_attempts
     (alter (fun a => {| dataEnd := dataEnd a; statusReceived := true;
                         enteredError := enteredError a |}) i) s,
   [RetryStreamEmit "status" status]
   ++ (if responseHasSent s then [] else [RetryStreamEmit "response" okResponse])
   ++ (if dataEnd a then [RetryStreamEnd] else [])).

(** The ['data'] handler. *)
Definition onData (data : JsValue) (s : State) : State * list Action :=
  (set_retries 0 s, [ProxyEmit "data" data]).

(** The ['end'] handler. *)
Definition onEnd (i : nat) (a : Attempt) (s : State) : State * list Action :=
  if negb (enteredError a)
  then (set_attempts
          (alter (fun a => {| dataEnd := true; statusReceived := statusReceived a;
                              enteredError := enteredError a |}) i) s,
        if statusReceived a then [RetryStreamEnd] else [])
  else (s, []).

(** The ['error'] handler. *)
Definition onError (c : Call) (i : nat) (error : GoogleError) (now : Z) (rnd : Q)
    (s : State) : State * list Action :=
  let s := set_attempts
             (alter (fun a => {| dataEnd := dataEnd a;
                                 statusReceived := statusReceived a;
                                 enteredError := true |}) i) s in
  let maxRetries := maxRetries (backoffSettings (retry c)) in
  if strict_neq_undefined (typeof_number maxRetries)
     || strict_neq_undefined (typeof_number (totalTimeout c))
  then
    if shouldRetryRequest error (retry c)
    then
      (* [shouldRetryRequest] has parsed the error object in place *)
      let error := parseGRPCStatusDetails error in
      if truthyZ maxRetries && truthyZ (totalTimeout c)
      then
        let newError :=
          set_code Status.INVALID_ARGUMENT
            (newGoogleError
               ("Cannot set both totalTimeoutMillis and maxRetries "
                +:+ "in backoffSettings.")) in
        (s, [RequestStreamDestroy i; RetryStreamDestroy newError])
      else
        match throwIfMaxRetriesOrTotalTimeoutExceeded now (deadline c)
                maxRetries (timeout s) error (totalTimeout c) (retries s) with
        | Some thrown =>
            let e := parseGRPCStatusDetails thrown in
            (s, [RequestStreamDestroy i; RetryStreamDestroy e])
        | None =>
            let delay := initialRetryDelayMillis (backoffSettings (retry c)) in
            let toSleep := (rnd * inject_Z delay)%Q in
            ({| retries := retries s; timeout := timeout s;
                responseHasSent := responseHasSent s; attempts := attempts s;
                timers := S (timers s) |},
             [SetTimeout toSleep])
        end
    else (s, transientErrorHelper i error)
  else (s, transientErrorHelper i error).

(** The callback given to [setTimeout]: it recomputes [timeout], counts the
    retry, derives the argument and calls [newMakeRequest]. (Its update of
    the handler-local [delay] is never read and is left out.) *)
Definition onTimer (c : Call) (now : Z) (s : State) : State * list Action :=
  match timers s with
  | O => (s, [])
  | S k =>
      let bs := backoffSettings (retry c) in
      let timeout' :=
        match timeout s with
        | Some t =>
            if truthyQ (Some t)
            then
              let timeoutCal :=
                if truthyQ (rpcTimeoutMultiplier bs)
                then (t * default 0%Q (rpcTimeoutMultiplier bs))%Q else 0%Q in
              let rpcTimeout :=
                if truthyZ (maxRpcTimeoutMillis bs)
                then inject_Z (default 0 (maxRpcTimeoutMillis bs)) else 0%Q in
              let newDeadline :=
                if negb (deadline c =? 0)
                then inject_Z (deadline c - now) else 0%Q in
              Some (Qmin (Qmin timeoutCal rpcTimeout) newDeadline)
            else Some t
        | None => None
        end in
      let retryArgument :=
        match getResumptionRequestFn (retry c) with
        | Some f => f (argument c)
        | None => argument c
        end in
      newMakeRequest c retryArgument true
        {| retries := retries s + 1; timeout := timeout';
           responseHasSent := responseHasSent s; attempts := attempts s;
           timers := k |}
  end.

(** One event. A request stream that was never created has no handlers. *)
Definition step (c : Call) (s : State) (ev : Event) : State * list Action :=
  match ev with
  | TimerFired now => onTimer c now s
  | OnRequestStream i sev =>
      match attempts s !! i with
      | None => (s, [])
      | Some a =>
          match sev with
          | EvMetadata m => onMetadata m s
          | EvResponse r => (s, [RetryStreamEmit "response" r])
          | EvStatus st => onStatus i a st s
          | EvData d => onData d s
          | EvEnd => onEnd i a s
          | EvError e now rnd => onError c i e now rnd s
          end
      end
  end.

(** A sequence of events, with everything the handlers did. *)
Fixpoint run (c : Call) (s : State) (evs : list Event) : State * list Action :=
  match evs with
  | [] => (s, [])
  | ev :: evs' =>
      let '(s1, out1) := step c s ev in
      let '(s2, out2) := run c s1 evs' in
      (s2, out1 ++ out2)
  end.

(** A call from its start: [newStreamingRetryRequest], then the events. *)
Definition runCall (c : Call) (evs : list Event) : State * list Action :=
  let '(s0, out0) := newStreamingRetryRequest c in
  let '(s1, out1) := run c s0 evs in
  (s1, out0 ++ out1).

(** *** The proxy object: constructor, [cancel] and [setStream] *)

Inductive StreamType : Type :=
| SERVER_STREAMING
| CLIENT_STREAMING
| BIDI_STREAMING.

(** What [this.stream] refers to. *)
Inductive StreamRef : Type :=
| ApiStream        (* the stream returned by [apiCall] *)
| RetryStream.     (* the stream returned by [newStreamingRetryRequest] *)

(** The fields of a [StreamProxy], with the [readable] and [writable]
    options that the constructor hands to the duplex. *)
Record Proxy : Type := mkProxy {
  type : StreamType;
  readable : bool;
  writable : bool;
  _isCancelCalled : bool;
  rest : bool;
  gaxServerStreamingRetries : bool;
  stream : option StreamRef
}.

(** Calls made by [cancel] and [setStream], in program order; [Machine]
    wraps what [newStreamingRetryRequest] does, and [CallRetryRequest]
    carries the request function that retry-request is given. *)
#[local] Unset Elimination Schemes.
Inductive ProxyAction : Type :=
| CallApi (arg : JsValue)
| CancelStream
| SetReadable (target : option StreamRef)   (* [None]: the stream of retry-request *)
| SetWritable
| ForwardEvents
| EventForwardHelper
| CallRetryRequest (request : Proxy -> Proxy * list ProxyAction)
| Machine (a : Action).
#[local] Set Elimination Schemes.

(** The constructor ([rest] and [gaxServerStreamingRetries] are read for
    their truthiness only). *)
Definition constructor (type : StreamType) (rest gaxServerStreamingRetries : bool)
    : Proxy :=
  {| type := type;
     readable := match type with CLIENT_STREAMING => false | _ => true end;
     writable := match type with SERVER_STREAMING => false | _ => true end;
     _isCancelCalled := false;
     rest := rest;
     gaxServerStreamingRetries := gaxServerStreamingRetries;
     stream := None |}.

(** [cancel]. *)
Definition cancel (p : Proxy) : Proxy * list ProxyAction :=
  match stream p with
  | Some _ => (p, [CancelStream])
  | None =>
      ({| type := type p; readable := readable p; writable := writable p;
          _isCancelCalled := true; rest := rest p;
          gaxServerStreamingRetries := gaxServerStreamingRetries p;
          stream := stream p |}, [])
  end.

Definition set_stream (r : StreamRef) (p : Proxy) : Proxy :=
  {| type := type p; readable := readable p; writable := writable p;
     _isCancelCalled := _isCancelCalled p; rest := rest p;
     gaxServerStreamingRetries := gaxServerStreamingRetries p;
     stream := Some r |}.

(** The request function of the legacy branch of [setStream]: it reads
    [_isCancelCalled] and [this.stream] when it is called. *)
Definition legacyRequest (argument : JsValue) (p : Proxy)
    : Proxy * list ProxyAction :=
  if _isCancelCalled p
  then (p, match stream p with Some _ => [CancelStream] | None => [] end)
  else (set_stream ApiStream p, [CallApi argument; ForwardEvents]).

(** [setStream], read at [now]. In the legacy branch the request function
    is handed to retry-request, which is not part of this repository: when
    it calls the function is an event of its own, [OpRequest] below. In the
    branch of the new retries a throw of [newStreamingRetryRequest] leaves
    [setStream] there. *)
Definition setStream (argument : JsValue) (retry : RetryOptions) (now : Z)
    (p : Proxy) : Proxy * list ProxyAction :=
  match type p with
  | SERVER_STREAMING =>
      if rest p
      then (set_stream ApiStream p, [CallApi argument; SetReadable (Some ApiStream)])
      else if gaxServerStreamingRetries p
      then
        let c := {| StreamProxy.retry := retry; StreamProxy.argument := argument;
                    isCancelCalled := _isCancelCalled p; startTime := now |} in
        let out := snd (newStreamingRetryRequest c) in
        if existsb (fun a => match a with ThrowTypeError => true | _ => false end) out
        then
          (* the request function cancels [this.stream], if any, before it
             returns nothing *)
          (p, (match stream p with Some _ => [CancelStream] | None => [] end)
              ++ map Machine out)
        else (set_stream RetryStream p,
              map Machine out
              ++ [EventForwardHelper; SetReadable (Some RetryStream)])
      else (p, [CallRetryRequest (legacyRequest argument); SetReadable None])
  | CLIENT_STREAMING =>
      (set_stream ApiStream p,
       [CallApi argument; ForwardEvents; SetWritable]
       ++ (if _isCancelCalled p then [CancelStream] else []))
  | BIDI_STREAMING =>
      (set_stream ApiStream p,
       [CallApi argument; ForwardEvents; SetReadable (Some ApiStream); SetWritable]
       ++ (if _isCancelCalled p then [CancelStream] else []))
  end.

(** What happens to a proxy: the calls of its user, and retry-request
    calling the request function it was given. *)
Inductive ProxyOp : Type :=
| OpCancel
| OpSetStream (argument : JsValue) (retry : RetryOptions) (now : Z)
| OpRequest (request : Proxy -> Proxy * list ProxyAction).

Definition proxyStep (p : Proxy) (op : ProxyOp) : Proxy * list ProxyAction :=
  match op with
  | OpCancel => cancel p
  | OpSetStream argument retry now => setStream argument retry now p
  | OpRequest request => request p
  end.

Fixpoint proxyRun (p : Proxy) (ops : list ProxyOp) : Proxy * list ProxyAction :=
  match ops with
  | [] => (p, [])
  | op :: ops' =>
      let '(p1, out1) := proxyStep p op in
      let '(p2, out2) := proxyRun p1 ops' in
      (p2, out1 ++ out2)
  end.

Definition isSetReadable (a : ProxyAction) : bool :=
  match a with SetReadable _ => true | _ => false end.

Definition isSetWritable (a : ProxyAction) : bool :=
  match a with SetWritable => true | _ => false end.

Definition isCancelStream (a : ProxyAction) : bool :=
  match a with CancelStream => true | _ => false end.

(** The API calls among the actions, those of the retry machinery
    included. *)
Definition isProxyApiCall (a : ProxyAction) : bool :=
  match a with
  | CallApi _ | Machine (ApiCall _) => true
  | _ => false
  end.

End StreamProxy.

(** ** streamingRetryRequest: the legacy wrapper *)

Module StreamingRetryRequest.

(** [opts.maxRetries]: [None] when the caller leaves the property out. *)
Record Options : Type := mkOptions {
  opt_maxRetries : option Z
}.

Module DEFAULTS.
Definition maxRetries : Z := 2.
End DEFAULTS.

(** [Object.assign({}, DEFAULTS, opts).maxRetries]. *)
Definition maxRetries (opts : Options) : Z :=
  default DEFAULTS.maxRetries (opt_maxRetries opts).

(** The variables of one [streamingRetryRequest]. Request stream [i] is the
    one returned by the [i]-th [opts.request]; [requestStreams] counts them,
    so the variable [requestStream] is stream [requestStreams - 1].
    [destroyOnError] lists, one entry per registration, the streams that
    carry the second ['error'] listener, added by [onResponse]. *)
Record State : Type := mkState {
  numNoResponseAttempts : Z;
  streamResponseHandled : bool;
  requestStreams : nat;
  destroyOnError : list nat
}.

Inductive Action : Type :=
| Request
| RetryStreamEmitError (err : GoogleError)
| RetryStreamEmitResponse (resp : JsValue)
| DelayStreamPipe
| RetryStreamDestroy.

Inductive StreamEvent : Type :=
| EvError (err : GoogleError)
| EvResponse (resp : JsValue).

(** An event of request stream [i]. *)
Definition Event : Type := (nat * StreamEvent)%type.

(** [makeRequest]. *)
Definition makeRequest (s : State) : State * list Action :=
  ({| numNoResponseAttempts := numNoResponseAttempts s;
      streamResponseHandled := false;
      requestStreams := S (requestStreams s);
      destroyOnError := destroyOnError s |},
   [Request]).

(** [onResponse(err)] with an error. *)
Definition onResponse_err (opts : Options) (err : GoogleError) (s : State)
    : State * list Action :=
  let n := numNoResponseAttempts s + 1 in
  let s := {| numNoResponseAttempts := n;
              streamResponseHandled := streamResponseHandled s;
              requestStreams := requestStreams s;
              destroyOnError := destroyOnError s |} in
  if n <=? maxRetries opts
  then makeRequest s
  else (s, [RetryStreamEmitError err]).

(** [onResponse(null, response)]. *)
Definition onResponse_ok (resp : JsValue) (s : State) : State * list Action :=
  ({| numNoResponseAttempts := numNoResponseAttempts s;
      streamResponseHandled := streamResponseHandled s;
      requestStreams := requestStreams s;
      destroyOnError := destroyOnError s ++ [Nat.pred (requestStreams s)] |},
   [RetryStreamEmitResponse resp; DelayStreamPipe]).

Definition set_handled (s : State) : State :=
  {| numNoResponseAttempts := numNoResponseAttempts s;
     streamResponseHandled := true;
     requestStreams := requestStreams s;
     destroyOnError := destroyOnError s |}.

(** The listeners of request stream [i] for one event, in registration
    order: the one [makeRequest] added, then for ['error'] those added by
    [onResponse]. *)
Definition step (opts : Options) (s : State) (ev : Event) : State * list Action :=
  let '(i, sev) := ev in
  if bool_decide (i < requestStreams s)%nat
  then
    match sev with
    | EvError err =>
        let later :=
          map (fun _ => RetryStreamDestroy)
            (List.filter (Nat.eqb i) (destroyOnError s)) in
        if streamResponseHandled s
        then (s, later)
        else
          let '(s1, out) := onResponse_err opts err (set_handled s) in
          (s1, out ++ later)
    | EvResponse resp =>
        if streamResponseHandled s
        then (s, [])
        else onResponse_ok resp (set_handled s)
    end
  else (s, []).

Fixpoint run (opts : Options) (s : State) (evs : list Event) : State * list Action :=
  match evs with
  | [] => (s, [])
  | ev :: evs' =>
      let '(s1, out1) := step opts s ev in
      let '(s2, out2) := run opts s1 evs' in
      (s2, out1 ++ out2)
  end.

(** [streamingRetryRequest(opts)]: the variables and the first
    [makeRequest]. *)
Definition streamingRetryRequest : State * list Action :=
  makeRequest
    {| numNoResponseAttempts := 0; streamResponseHandled := false;
       requestStreams := 0; destroyOnError := [] |}.

Definition isEmitError (a : Action) : bool :=
  match a with RetryStreamEmitError _ => true | _ => false end.

Definition isRequest (a : Action) : bool :=
  match a with Request => true | _ => false end.

Definition isError (i : nat) (ev : Event) : bool :=
  match ev with
  | (j, EvError _) => bool_decide (j = i)
  | _ => false
  end.

(** The number of ['error'] events of request stream [i]. *)
Definition errorsOf (i : nat) (evs : list Event) : nat :=
  length (List.filter (isError i) evs).

(** No request stream emits ['error'] twice. *)
Definition errors_once (evs : list Event) : Prop :=
  forall i, (errorsOf i evs <= 1)%nat.

(** The claim of C10 at one run: request stream [i] answers after the
    events [evs1] and emits ['error'] after the events [evs2]; that error
    is not emitted and the consumer stream is destroyed. *)
Definition error_after_response_destroys (opts : Options) (evs1 : list Event)
    (i : nat) (resp : JsValue) (evs2 : list Event) (err : GoogleError) : Prop :=
  let s1 := fst (run opts (fst streamingRetryRequest) evs1) in
  let s2 := fst (step opts s1 (i, EvResponse resp)) in
  let s3 := fst (run opts s2 evs2) in
  (i < requestStreams s1)%nat ->
  streamResponseHandled s1 = false ->
  List.filter isEmitError (snd (step opts s3 (i, EvError err))) = []
  /\ In RetryStreamDestroy (snd (step opts s3 (i, EvError err))).

(** What holds of the variables after the events [seen]: no second
    ['error'] listener is registered while no response is handled, every
    request stream but the last has emitted ['error'], and there is a
    request stream. *)
Definition reached (s : State) (seen : list Event) : Prop :=
  (streamResponseHandled s = false -> destroyOnError s = [])
  /\ (forall j, (S j < requestStreams s)%nat -> (1 <= errorsOf j seen)%nat)
  /\ (1 <= requestStreams s)%nat.

(** A first request stream that fails, and a second one that answers and
    fails later. *)
Definition failsOnce (err : GoogleError) : list Event := [(0%nat, EvError err)].

(** [streamingRetryRequest(opts)] followed by the events. *)
Definition runWrapper (opts : Options) (evs : list Event) : State * list Action :=
  let '(s0, out0) := streamingRetryRequest in
  let '(s1, out1) := run opts s0 evs in
  (s1, out0 ++ out1).

Definition requestsMade (out : list Action) : nat :=
  length (List.filter isRequest out).

(** A ['response'] or an ['error'] given to the consumer. *)
Definition isEmission (a : Action) : bool :=
  match a with
  | RetryStreamEmitError _ | RetryStreamEmitResponse _ => true
  | _ => false
  end.

Definition emissions (out : list Action) : nat :=
  length (List.filter isEmission out).

(** The request streams [k], [k + 1], ... fail one after the other, each
    with its own error. *)
Fixpoint failures (k : nat) (errs : list GoogleError) : list Event :=
  match errs with
  | [] => []
  | err :: errs' => (k, EvError err) :: failures (S k) errs'
  end.

(** The request streams are counted by the failures, which stay within
    [maxRetries] when they lead to a request. *)
Definition within_budget (opts : Options) (s : State) : Prop :=
  0 <= numNoResponseAttempts s
  /\ Z.of_nat (requestStreams s) <= numNoResponseAttempts s + 1
  /\ Z.of_nat (requestStreams s) <= 1 + Z.max 0 (maxRetries opts).

End StreamingRetryRequest.

(** ** PageDescriptor *)

Module PageDescriptor.

Definition maxAttemptsEmptyResponse : Z := 10.

(** The [result] of a page: an array of resources, an object standing for a
    protobuf map, or [null]. *)
Inductive PageResult : Type :=
| ResArray (resources : list JsValue)
| ResMap (entries : list (string * JsValue))
| ResNull.

(** What [apiCall] answers: the call's position in the sequence of calls
    stands for whatever the service's answer depends on besides the request
    and the options. *)
Definition GaxCall : Type :=
  nat -> JsValue -> gmap string JsValue -> PageResult * option JsValue.

(** *** createIterator *)

(** The variables of one iterator; [calls] counts the [apiCall]s made. *)
Record IterState : Type := mkIterState {
  nextPageRequest : option JsValue;
  cache : list JsValue;
  calls : nat
}.

Inductive IterResult : Type :=
| Yield (value : JsValue)            (* {done: false, value} *)
| Done                               (* {done: true, value: undefined} *)
| Rejected                           (* spreading a null result throws *)
| OutOfFuel.

(** How the [while] loop of [next()] is left. *)
Inductive LoopExit : Type :=
| LoopLeft
| LoopThrew
| LoopOutOfFuel.

(** The [while] loop of [next()], [fuel] bounding its iterations. *)
Fixpoint fetchLoop (apiCall : GaxCall) (options : gmap string JsValue)
    (fuel : nat) (attempts : Z) (st : IterState) : LoopExit * IterState :=
  match fuel with
  | O => (LoopOutOfFuel, st)
  | S fuel' =>
      match cache st, nextPageRequest st with
      | [], Some req =>
          let '(result, next) := apiCall (calls st) req options in
          let called := {| nextPageRequest := next; cache := cache st;
                           calls := S (calls st) |} in
          match
            match result with
            | ResMap entries =>
                Some (cache st
                      ++ map (fun kv => VArr [VStr (fst kv); snd kv]) entries)
            | ResArray resources => Some (cache st ++ resources)
            | ResNull => None
            end
          with
          | None => (LoopThrew, called)
          | Some cache' =>
              let st' := {| nextPageRequest := next; cache := cache';
                            calls := S (calls st) |} in
              match cache' with
              | [] =>
                  let attempts' := attempts + 1 in
                  if maxAttemptsEmptyResponse <? attempts'
                  then (LoopLeft, st')
                  else fetchLoop apiCall options fuel' attempts' st'
              | _ :: _ => fetchLoop apiCall options fuel' attempts st'
              end
          end
      | _, _ => (LoopLeft, st)
      end
  end.

(** Iterations that [next()] is given: one per tolerated empty page, the
    page that ends the loop, and the last test of the loop condition. *)
Definition nextFuel : nat := 12.

(** [next()]. *)
Definition next (apiCall : GaxCall) (options : gmap string JsValue)
    (st : IterState) : IterResult * IterState :=
  match cache st with
  | v :: rest =>
      (Yield v, {| nextPageRequest := nextPageRequest st; cache := rest;
                   calls := calls st |})
  | [] =>
      match fetchLoop apiCall options nextFuel 0 st with
      | (LoopThrew, st') => (Rejected, st')
      | (LoopOutOfFuel, st') => (OutOfFuel, st')
      | (LoopLeft, st') =>
          match cache st' with
          | [] => (Done, st')
          | v :: rest =>
              (Yield v, {| nextPageRequest := nextPageRequest st';
                           cache := rest; calls := calls st' |})
          end
      end
  end.

(** [[Symbol.asyncIterator]()]. *)
Definition asyncIterator (request : JsValue) : IterState :=
  {| nextPageRequest := Some request; cache := []; calls := 0 |}.

(** A service that answers its first [n] calls with an empty page and a
    next-page request, and then with [last]. *)
Definition emptyPagesThen (n : nat) (last : PageResult * option JsValue)
    : GaxCall :=
  fun k req _ => if (k <? n)%nat then (ResArray [], Some req) else last.

(** *** createStream *)

(** JavaScript truthiness. *)
Definition truthy (v : JsValue) : bool :=
  match v with
  | VUndefined | VNull => false
  | VBool b => b
  | VNum n => negb (n =? 0)
  | VStr s => negb (String.eqb s "")
  | VArr _ | VObj _ => true
  end.

(** The variables of one [createStream]: the copied [options], [request],
    [started], [pushCount], and of the stream itself whether its readable
    side has ended and whether the consumer has paused it. *)
Record StreamState : Type := mkStreamState {
  options : gmap string JsValue;
  request : JsValue;
  maxResults : JsValue;
  pushCount : Z;
  started : bool;
  ended : bool;
  paused : bool
}.

Inductive StreamAction : Type :=
| Warn (kind : string)
| EmitError (err : GoogleError)
| EmitResponse (apiResp : JsValue)
| Push (resource : JsValue)
| StreamEnd
| ApiCall (request : JsValue) (options : gmap string JsValue)
| SetImmediateApiCall (request : JsValue) (options : gmap string JsValue).

Inductive StreamEvent : Type :=
| Resume
| Pause
| Callback (err : option GoogleError) (resources : list JsValue)
    (next : option JsValue) (apiResp : JsValue).

(** [pushCount === maxResults]. *)
Definition reachedMaxResults (pushCount : Z) (maxResults : JsValue) : bool :=
  match maxResults with
  | VNum m => pushCount =? m
  | _ => false
  end.

(** [createStream] up to the return of the stream. [stream.end()] on the
    pass-through marks its readable side ended before the next statement
    runs, which is what the callback's reads of [_readableState.ended]
    rely on. *)
Definition createStream (request : JsValue) (options : option (gmap string JsValue))
    : StreamState * list StreamAction :=
  let warned :=
    match options with
    | Some o =>
        if truthy (default VUndefined (o !! "autoPaginate"))
        then [Warn "AutopaginateTrueWarning"] else []
    | None => []
    end in
  let options := <["autoPaginate" := VBool false]> (default ∅ options) in
  ({| options := options; request := request;
      maxResults := default (VNum (-1)) (options !! "maxResults");
      pushCount := 0; started := false; ended := false; paused := false |},
   warned).

(** The [for] loop of [callback]; the boolean tells that the loop returned
    from [callback]. *)
Fixpoint pushResources (resources : list JsValue) (s : StreamState)
    : StreamState * list StreamAction * bool :=
  match resources with
  | [] => (s, [], false)
  | r :: rest =>
      if ended s then (s, [], true)
      else
        match r with
        | VNull => pushResources rest s
        | _ =>
            let n := pushCount s + 1 in
            let hit := reachedMaxResults n (maxResults s) in
            let s1 := {| options := options s; request := request s;
                         maxResults := maxResults s; pushCount := n;
                         started := started s;
                         ended := if hit then true else ended s;
                         paused := paused s |} in
            let '(s2, out, ret) := pushResources rest s1 in
            (s2, [Push r] ++ (if hit then [StreamEnd] else []) ++ out, ret)
        end
  end.

(** [callback]. *)
Definition callback (err : option GoogleError) (resources : list JsValue)
    (next : option JsValue) (apiResp : JsValue) (s : StreamState)
    : StreamState * list StreamAction :=
  match err with
  | Some e => (s, [EmitError e])
  | None =>
      let '(s1, out, ret) := pushResources resources s in
      let out := EmitResponse apiResp :: out in
      if ret then (s1, out)
      else if ended s1 then (s1, out)
      else
        match next with
        | None =>
            ({| options := options s1; request := request s1;
                maxResults := maxResults s1; pushCount := pushCount s1;
                started := started s1; ended := true; paused := paused s1 |},
             out ++ [StreamEnd])
        | Some nextRequest =>
            let options' :=
              if bool_decide (is_Some (options s1 !! "pageToken"))
              then delete "pageToken" (options s1)
              else options s1 in
            if paused s1
            then
              ({| options := options'; request := nextRequest;
                  maxResults := maxResults s1; pushCount := pushCount s1;
                  started := false; ended := ended s1; paused := paused s1 |},
               out)
            else
              ({| options := options'; request := request s1;
                  maxResults := maxResults s1; pushCount := pushCount s1;
                  started := started s1; ended := ended s1; paused := paused s1 |},
               out ++ [SetImmediateApiCall nextRequest options'])
        end
  end.

(** The ['resume'] listener. *)
Definition onResume (s : StreamState) : StreamState * list StreamAction :=
  let s := {| options := options s; request := request s;
              maxResults := maxResults s; pushCount := pushCount s;
              started := started s; ended := ended s; paused := false |} in
  if negb (started s)
  then
    ({| options := options s; request := request s;
        maxResults := maxResults s; pushCount := pushCount s;
        started := true; ended := ended s; paused := paused s |},
     [ApiCall (request s) (options s)])
  else (s, []).

Definition streamStep (s : StreamState) (ev : StreamEvent)
    : StreamState * list StreamAction :=
  match ev with
  | Resume => onResume s
  | Pause =>
      ({| options := options s; request := request s;
          maxResults := maxResults s; pushCount := pushCount s;
          started := started s; ended := ended s; paused := true |}, [])
  | Callback err resources next apiResp => callback err resources next apiResp s
  end.

Fixpoint streamRun (s : StreamState) (evs : list StreamEvent)
    : StreamState * list StreamAction :=
  match evs with
  | [] => (s, [])
  | ev :: evs' =>
      let '(s1, out1) := streamStep s ev in
      let '(s2, out2) := streamRun s1 evs' in
      (s2, out1 ++ out2)
  end.

(** The page calls among the actions: request and options of each. *)
Definition pageCalls (out : list StreamAction)
    : list (JsValue * gmap string JsValue) :=
  omap (fun a => match a with
                 | ApiCall r o | SetImmediateApiCall r o => Some (r, o)
                 | _ => None
                 end) out.

(** A page without resources that names a next page. *)
Definition isEmptyPage (page : PageResult * option JsValue) : bool :=
  match page with
  | (ResArray [], Some _) | (ResMap [], Some _) => true
  | _ => false
  end.

(** The claim of C8 with the number of empty pages left open: when the
    next [n] calls each answer with an empty page and a next-page request,
    [next()] makes exactly those calls and resolves to the terminal value. *)
Definition stops_after_empty_pages (n : nat) (apiCall : GaxCall)
    (options : gmap string JsValue) (st : IterState) : Prop :=
  cache st = [] ->
  is_Some (nextPageRequest st) ->
  (forall k req, (calls st <= k < calls st + n)%nat ->
                 isEmptyPage (apiCall k req options) = true) ->
  fst (next apiCall options st) = Done
  /\ calls (snd (next apiCall options st)) = (calls st + n)%nat.

(** ** Concrete streams used below *)

(** Options [{pageToken: "x", maxResults: 1}]. *)
Definition pinnedOptions : gmap string JsValue :=
  <["pageToken" := VStr "x"]> (<["maxResults" := VNum 1]> ∅).

(** The stream made with them, resumed. *)
Definition pinnedStream : StreamState :=
  fst (streamStep (fst (createStream (VObj []) (Some pinnedOptions))) Resume).

(** The claim of C9 at one page with a next-page request: after the
    callback the options hold no [pageToken]. *)
Definition pageToken_deleted_after_page (s : StreamState)
    (resources : list JsValue) (nextRequest apiResp : JsValue) : Prop :=
  options (fst (callback None resources (Some nextRequest) apiResp s))
    !! "pageToken" = None.

(** What licenses a page call without the initial token: the first call
    was made, or the token is gone. *)
Definition unpinned (s : StreamState) : Prop :=
  started s = true \/ options s !! "pageToken" = None.

(** Options [{pageToken: "x"}], and the stream made with them, resumed. *)
Definition tokenOptions : gmap string JsValue := <["pageToken" := VStr "x"]> ∅.

Definition tokenStream : StreamState :=
  fst (streamStep (fst (createStream (VObj []) (Some tokenOptions))) Resume).

(** [n] calls of [next()] in a row: what they resolve to, and the state
    they leave. *)
Fixpoint drain (apiCall : GaxCall) (options : gmap string JsValue) (n : nat)
    (st : IterState) : list IterResult * IterState :=
  match n with
  | O => ([], st)
  | S n' =>
      let '(r, st1) := next apiCall options st in
      let '(rs, st2) := drain apiCall options n' st1 in
      (r :: rs, st2)
  end.

(** The tuples that stand for the entries of a map result. *)
Definition entryTuples (entries : list (string * JsValue)) : list JsValue :=
  map (fun kv => VArr [VStr (fst kv); snd kv]) entries.

(** The resources that [stream.push] was called with, in order. *)
Definition pushed (out : list StreamAction) : list JsValue :=
  omap (fun a => match a with Push r => Some r | _ => None end) out.

Definition isNull (v : JsValue) : bool :=
  match v with VNull => true | _ => false end.

(** An action that hands nothing to the consumer's data flow and asks for
    no page. *)
Definition isQuiet (a : StreamAction) : bool :=
  match a with
  | Push _ | StreamEnd | ApiCall _ _ | SetImmediateApiCall _ _ => false
  | _ => true
  end.

(** How [maxResults = m] bounds the count of pushed resources. *)
Definition capped (m : Z) (s : StreamState) : Prop :=
  maxResults s = VNum m
  /\ pushCount s <= m
  /\ (pushCount s = m -> ended s = true).

End PageDescriptor.

(** ** Concrete calls used below *)

Module Scenarios.
Import StreamProxy.

(** The backoff settings of the repository's streaming tests, with the two
    budgets left open. *)
Definition backoff (totalTimeoutMillis maxRetries : option Z) : BackoffSettings :=
  {| initialRetryDelayMillis := 100;
     retryDelayMultiplier := 6 # 5;
     maxRetryDelayMillis := 1000;
     initialRpcTimeoutMillis := None;
     rpcTimeoutMultiplier := Some (3 # 2);
     maxRpcTimeoutMillis := Some 3000;
     totalTimeoutMillis := totalTimeoutMillis;
     maxRetries := maxRetries |}.

(** [createRetryOptions(codes, backoff)] on an empty request. *)
Definition call (codes : list Z) (totalTimeoutMillis maxRetries : option Z) : Call :=
  {| retry := {| retryCodes := codes;
                 backoffSettings := backoff totalTimeoutMillis maxRetries;
                 shouldRetryFn := None;
                 getResumptionRequestFn := None |};
     argument := VObj [];
     isCancelCalled := false;
     startTime := 0 |}.

Definition errorWithCode (c : Z) (msg : string) : GoogleError :=
  set_code c (newGoogleError msg).

Definition unavailable : GoogleError := errorWithCode 14 "UNAVAILABLE".
Definition notFound : GoogleError := errorWithCode 5 "test error".

(** The state after [newStreamingRetryRequest]. *)
Definition started (c : Call) : State := fst (newStreamingRetryRequest c).

(** The message of the error that refuses both budgets. *)
Definition bothBudgetsMessage : string :=
  "Cannot set both totalTimeoutMillis and maxRetries in backoffSettings.".

(** The error built when both budgets are set. *)
Definition bothBudgetsError : GoogleError :=
  set_code Status.INVALID_ARGUMENT (newGoogleError bothBudgetsMessage).

Definition notTransientNote : string :=
  "Exception occurred in retry method that was not classified as transient".

(** The claim of C2 at one error: with both budgets configured the consumer
    stream is destroyed with the [INVALID_ARGUMENT] error. *)
Definition both_budgets_always_refused (c : Call) (s : State) (i : nat)
    (e : GoogleError) (now : Z) (rnd : Q) : Prop :=
  is_Some (maxRetries (backoffSettings (retry c))) ->
  is_Some (totalTimeout c) ->
  exists err,
    In (RetryStreamDestroy err)
       (snd (step c s (OnRequestStream i (EvError e now rnd))))
    /\ code err = Some Status.INVALID_ARGUMENT
    /\ message err = bothBudgetsMessage.

(** The message of the error thrown once the retries are used up. *)
Definition maxRetriesExceededMessage (e : GoogleError) : string :=
  "Exceeded maximum number of retries "
  +:+ ("retrying error " +:+ errorToString e +:+ " ")
  +:+ "before any response was received".

Definition maxRetriesExceededError (e : GoogleError) : GoogleError :=
  set_code Status.DEADLINE_EXCEEDED (newGoogleError (maxRetriesExceededMessage e)).

Definition isRetryStreamDestroy (a : Action) : bool :=
  match a with RetryStreamDestroy _ => true | _ => false end.

Definition isApiCall (a : Action) : bool :=
  match a with ApiCall _ => true | _ => false end.

(** One round of progress on request stream [k]: a message, then an error,
    then the timer of the retry. [round] gives the message, the clock and
    the random number read by the error handler, and the clock read by the
    timer. *)
Definition progressRound (e : GoogleError) (k : nat)
    (round : JsValue * Z * Q * Z) : list Event :=
  let '(d, now, rnd, now') := round in
  [OnRequestStream k (EvData d);
   OnRequestStream k (EvError e now rnd);
   TimerFired now'].

(** Rounds of progress on the request streams [k], [k + 1], ... in turn. *)
Fixpoint alternating (e : GoogleError) (k : nat)
    (rounds : list (JsValue * Z * Q * Z)) : list Event :=
  match rounds with
  | [] => []
  | r :: rest => progressRound e k r ++ alternating e (S k) rest
  end.

(** The messages handed to the consumer, in order. *)
Definition dataEmitted (out : list Action) : list JsValue :=
  omap (fun a => match a with
                 | ProxyEmit ev d => if String.eqb ev "data" then Some d else None
                 | _ => None
                 end) out.

(** The ['response'] events given to the consumer, in order. *)
Definition responsesEmitted (out : list Action) : list JsValue :=
  omap (fun a => match a with
                 | RetryStreamEmit ev r =>
                     if String.eqb ev "response" then Some r else None
                 | _ => None
                 end) out.

(** The events of a successful attempt on request stream [i]: the metadata
    if any, the messages, then ['end'] and ['status'] in either order. *)
Definition successfulAttempt (i : nat) (metadata : option JsValue)
    (messages : list JsValue) (status : JsValue) (endFirst : bool) : list Event :=
  match metadata with
  | Some m => [OnRequestStream i (EvMetadata m)]
  | None => []
  end
  ++ map (fun d => OnRequestStream i (EvData d)) messages
  ++ (if endFirst
      then [OnRequestStream i EvEnd; OnRequestStream i (EvStatus status)]
      else [OnRequestStream i (EvStatus status); OnRequestStream i EvEnd]).

(** The response that a successful attempt is to produce. *)
Definition expectedResponse (metadata : option JsValue) : JsValue :=
  match metadata with
  | Some m => okResponseWith m
  | None => okResponse
  end.

(** The claim of C4 for one attempt, run from state [s]: exactly one
    response, of the expected shape, before the stream is ended. *)
Definition one_response_before_end (c : Call) (s : State) (i : nat)
    (metadata : option JsValue) (messages : list JsValue) (status : JsValue)
    (endFirst : bool) : Prop :=
  let out := snd (run c s (successfulAttempt i metadata messages status endFirst)) in
  exists pre,
    out = pre ++ [RetryStreamEnd]
    /\ responsesEmitted pre = [expectedResponse metadata].

(** A first attempt that emits metadata and fails with a retryable error,
    up to the start of the second attempt. *)
Definition metadataThenRetry : list Event :=
  [OnRequestStream 0 (EvMetadata (VObj []));
   OnRequestStream 0 (EvError unavailable 0 0);
   TimerFired 0].


(** ** Further vocabulary for runs of the retry state machine *)

(** The note of an error met with [maxRetries] equal to 0. *)
Definition maxRetriesZeroNote : string := "Max retries is set to zero.".

(** The error thrown once the total timeout has passed. *)
Definition totalTimeoutExceededError (originalTimeout : Z) (e : GoogleError)
    : GoogleError :=
  set_code Status.DEADLINE_EXCEEDED
    (newGoogleError
       ("Total timeout of API exceeded " +:+ numberToString originalTimeout
        +:+ " milliseconds "
        +:+ ("retrying error " +:+ errorToString e +:+ " ")
        +:+ " before any response was received.")).

Definition isSetTimeout (a : Action) : bool :=
  match a with SetTimeout _ => true | _ => false end.

(** The arguments of the API calls, in order. *)
Definition apiArguments (out : list Action) : list JsValue :=
  omap (fun a => match a with ApiCall arg => Some arg | _ => None end) out.

(** The argument of every retry: the resumption function applied to
    [this.argument], or [this.argument] itself. *)
Definition retryArgument (c : Call) : JsValue :=
  match getResumptionRequestFn (retry c) with
  | Some f => f (argument c)
  | None => argument c
  end.

(** [n] failed attempts in a row on the request streams [k], [k + 1], ...:
    each emits the error and the timer of its retry runs. *)
Fixpoint failedAttempts (e : GoogleError) (now : Z) (rnd : Q) (k n : nat)
    : list Event :=
  match n with
  | O => []
  | S n' =>
      [OnRequestStream k (EvError e now rnd); TimerFired now]
      ++ failedAttempts e now rnd (S k) n'
  end.

(** Failed attempts in a row on the request streams [k], [k + 1], ...:
    each emits its own error, read at its own clock and random number, and
    the timer of its retry runs (at the clock given last). *)
Fixpoint failingRounds (k : nat) (rounds : list (GoogleError * Z * Q * Z))
    : list Event :=
  match rounds with
  | [] => []
  | (e, now, rnd, now') :: rest =>
      [OnRequestStream k (EvError e now rnd); TimerFired now']
      ++ failingRounds (S k) rest
  end.

(** What those failed attempts make the handlers do. *)
Fixpoint retriesMade (c : Call) (rounds : list (GoogleError * Z * Q * Z))
    : list Action :=
  match rounds with
  | [] => []
  | (_, _, rnd, _) :: rest =>
      [SetTimeout (rnd * inject_Z (initialRetryDelayMillis
                                     (backoffSettings (retry c))))%Q;
       ApiCall (retryArgument c)]
      ++ retriesMade c rest
  end.

(** The error of a round. *)
Definition roundError (round : GoogleError * Z * Q * Z) : GoogleError :=
  fst (fst (fst round)).

(** Two failed attempts with different errors, and the error of a third. *)
Definition twoFailures : list (GoogleError * Z * Q * Z) :=
  [(unavailable, 5, (1 # 2)%Q, 60); (errorWithCode 4 "late", 70, (1 # 4)%Q, 100)].

Definition downAgain : GoogleError := errorWithCode 14 "down again".

(** The error of the repository's tests: code 3 with an encoded
    [ErrorInfo]. *)
Definition serviceDisabled : GoogleError :=
  {| message := "test error"; code := Some 3; note := None;
     statusDetailsBin :=
       Some {| ei_reason := "SERVICE_DISABLED"; ei_domain := "googleapis.com";
               ei_metadata := [("consumer", "projects/455411330361");
                               ("service", "translate.googleapis.com")] |};
     reason := None; domain := None; errorInfoMetadata := None |}.

Definition apiCalls (out : list Action) : nat := length (List.filter isApiCall out).

Definition timeoutsSet (out : list Action) : nat :=
  length (List.filter isSetTimeout out).

(** The bounds that the timer puts on the next per-attempt timeout. *)
Definition rpcTimeoutBound (c : Call) : Q :=
  if truthyZ (maxRpcTimeoutMillis (backoffSettings (retry c)))
  then inject_Z (default 0 (maxRpcTimeoutMillis (backoffSettings (retry c))))
  else 0%Q.

Definition deadlineBound (c : Call) (now : Z) : Q :=
  if negb (deadline c =? 0) then inject_Z (deadline c - now) else 0%Q.

(** A call with a total timeout of four seconds, and a state of it with a
    per-attempt timeout of two seconds and one retry pending. *)
Definition timedCall : Call := call [14] (Some 4000) None.

Definition retryPending : State :=
  {| retries := 0; timeout := Some (inject_Z 2000); responseHasSent := false;
     attempts := [freshAttempt]; timers := 1 |}.

End Scenarios.

(** * Properties *)

(** ** Numbers in template literals *)

Module JsFacts.
Import Js.

(** An integer below 2^53 is printed digit for digit. *)
Lemma numberToString_safe n :
  Z.abs n < 2 ^ 53 -> numberToString n = decimal n.
Proof.
  intros Hsafe.
  assert (H1 : 2 ^ 53 < 2 ^ 1024) by (vm_compute; reflexivity).
  assert (H2 : 2 ^ 53 < 10 ^ 21) by (vm_compute; reflexivity).
  unfold numberToString. cbv zeta.
  unfold toNumber. rewrite (proj2 (Z.ltb_lt _ _) Hsafe).
  unfold shortest. rewrite (proj2 (Z.ltb_lt _ _) Hsafe).
  rewrite (proj2 (Z.leb_gt _ _)) by lia.
  rewrite (proj2 (Z.ltb_lt (Z.abs n) (10 ^ 21))) by lia.
  destruct n as [|q|q]; reflexivity.
Qed.

(** From 2^53 on only the digits needed to read the Number back are
    printed, followed by zeros, and from 10^21 on in exponent form. *)
Lemma numberToString_large :
  numberToString (2 ^ 64) = "18446744073709552000"
  /\ numberToString (10 ^ 21) = "1e+21"
  /\ numberToString (2 ^ 70) = "1.1805916207174113e+21"
  /\ numberToString (10 ^ 23) = "1e+23".
Proof. repeat split; vm_compute; reflexivity. Qed.

End JsFacts.

(** ** Classification of errors *)

Module StreamProxyFacts.
Import StreamProxy.

Lemma indexOf_from_None k xs : indexOf_from k xs None = -1.
Proof. revert k; induction xs as [|y ys IH]; intros k; simpl; auto. Qed.

Lemma indexOf_from_range k xs x :
  0 <= k -> indexOf_from k xs x = -1 \/ k <= indexOf_from k xs x.
Proof.
  revert k; induction xs as [|y ys IH]; intros k Hk; simpl; [now left|].
  destruct x as [v|].
  - destruct (y =? v); [right; lia|].
    destruct (IH (k + 1) ltac:(lia)) as [->|H]; [now left|right; lia].
  - destruct (IH (k + 1) ltac:(lia)) as [->|H]; [now left|right; lia].
Qed.

Lemma indexOf_from_found k xs v :
  0 <= k -> (indexOf_from k xs (Some v) <? 0) = false <-> In v xs.
Proof.
  revert k; induction xs as [|y ys IH]; intros k Hk; simpl.
  - split; [discriminate|tauto].
  - destruct (Z.eqb_spec y v) as [->|Hne].
    + split; [now left|intros _; apply Z.ltb_ge; lia].
    + rewrite IH by lia. split; [now right|intros [H|H]; [congruence|easy]].
Qed.

(** [indexOf] finds exactly the members. *)
Lemma indexOf_found xs x :
  (indexOf xs x <? 0) = false <-> exists v, x = Some v /\ In v xs.
Proof.
  unfold indexOf. destruct x as [v|].
  - rewrite indexOf_from_found by lia.
    split; [intros H; eauto|intros (w & [= ->] & H); exact H].
  - rewrite indexOf_from_None. split; [discriminate|intros (w & [=] & _)].
Qed.

Lemma defaultShouldRetry_spec error retry :
  defaultShouldRetry error retry = true
  <-> retryCodes retry <> [] /\ exists v, code error = Some v /\ In v (retryCodes retry).
Proof.
  unfold defaultShouldRetry.
  pose proof (indexOf_found (retryCodes retry) (code error)) as Hfound.
  destruct (retryCodes retry) as [|y ys].
  - simpl. split; [discriminate|intros [H _]; congruence].
  - replace (0 <? Z.of_nat (length (y :: ys))) with true
      by (symmetry; apply Z.ltb_lt; simpl; lia).
    replace (Z.of_nat (length (y :: ys)) =? 0) with false
      by (symmetry; apply Z.eqb_neq; simpl; lia).
    destruct (indexOf (y :: ys) (code error) <? 0); simpl.
    + split; [discriminate|].
      intros [_ H]. apply Hfound in H. discriminate.
    + split; [intros _; split; [discriminate|now apply Hfound]|reflexivity].
Qed.

Lemma parseGRPCStatusDetails_code e : code (parseGRPCStatusDetails e) = code e.
Proof. unfold parseGRPCStatusDetails. now destruct (statusDetailsBin e). Qed.

Lemma parseGRPCStatusDetails_message e :
  message (parseGRPCStatusDetails e) = message e.
Proof. unfold parseGRPCStatusDetails. now destruct (statusDetailsBin e). Qed.

Lemma parseGRPCStatusDetails_no_details e :
  statusDetailsBin e = None -> parseGRPCStatusDetails e = e.
Proof. unfold parseGRPCStatusDetails. now intros ->. Qed.

(** C3. [shouldRetryRequest] answers true exactly when the predicate is
    present and accepts the parsed error, or the predicate is absent, the
    retry codes are not empty and the error's code is one of them; with no
    codes and no predicate every error is refused. *)
Theorem shouldRetryRequest_classifies :
  (forall error retry,
     shouldRetryRequest error retry = true
     <-> (exists f, shouldRetryFn retry = Some f
                    /\ f (parseGRPCStatusDetails error) = true)
         \/ (shouldRetryFn retry = None
             /\ retryCodes retry <> []
             /\ exists v, code error = Some v /\ In v (retryCodes retry)))
  /\ (forall error backoff resume,
        shouldRetryRequest error
          {| retryCodes := []; backoffSettings := backoff;
             shouldRetryFn := None; getResumptionRequestFn := resume |}
        = false).
Proof.
  split.
  - intros error retry. unfold shouldRetryRequest.
    destruct (shouldRetryFn retry) as [f|].
    + split.
      * intros H. left. eauto.
      * intros [(g & [= <-] & H)|(H & _)]; [exact H|discriminate].
    + rewrite defaultShouldRetry_spec, parseGRPCStatusDetails_code.
      split.
      * intros H. right. split; [reflexivity|exact H].
      * intros [(g & H & _)|(_ & H)]; [discriminate|exact H].
  - intros error backoff resume. reflexivity.
Qed.

End StreamProxyFacts.

(** ** The ['error'] handler of the retry state machine *)

Module RetryFacts.
Import StreamProxy Scenarios.

Lemma step_error c s i a e now rnd :
  attempts s !! i = Some a ->
  step c s (OnRequestStream i (EvError e now rnd)) = onError c i e now rnd s.
Proof. intros H. unfold step. now rewrite H. Qed.

(** The guard of the handler holds whatever the settings are. *)
Lemma guard_always (maxRetries totalTimeout : option Z) :
  strict_neq_undefined (typeof_number maxRetries)
  || strict_neq_undefined (typeof_number totalTimeout) = true.
Proof. now destruct maxRetries. Qed.

(** An error that the policy refuses goes to [transientErrorHelper]. *)
Lemma onError_not_retryable c i e now rnd s :
  shouldRetryRequest e (retry c) = false ->
  snd (onError c i e now rnd s) = transientErrorHelper i e
  /\ timers (fst (onError c i e now rnd s)) = timers s.
Proof.
  intros H. unfold onError. rewrite guard_always, H. now split.
Qed.

(** C1. With neither [maxRetries] nor [totalTimeoutMillis] set, an error
    that the policy accepts is not surfaced: the guard of the handler holds,
    nothing is thrown by the budget check, and the handler only schedules
    the next attempt. *)
Theorem no_budget_retryable_error_is_retried c s i a e now rnd :
  attempts s !! i = Some a ->
  maxRetries (backoffSettings (retry c)) = None ->
  totalTimeout c = None ->
  shouldRetryRequest e (retry c) = true ->
  snd (step c s (OnRequestStream i (EvError e now rnd)))
  = [SetTimeout (rnd * inject_Z (initialRetryDelayMillis (backoffSettings (retry c))))%Q]
  /\ timers (fst (step c s (OnRequestStream i (EvError e now rnd)))) = S (timers s).
Proof.
  intros Hi Hmax Htot Hretry.
  rewrite (step_error _ _ _ _ _ _ _ Hi).
  unfold onError. rewrite guard_always, Hretry, Hmax, Htot. simpl.
  unfold throwIfMaxRetriesOrTotalTimeoutExceeded. simpl.
  rewrite andb_false_r. now split.
Qed.

(** With no budget three code-14 errors in a row are each answered with a
    new attempt. *)
Lemma no_budget_three_errors :
  snd (runCall (call [14] None None)
         [OnRequestStream 0 (EvError unavailable 0 0); TimerFired 0;
          OnRequestStream 1 (EvError unavailable 0 0); TimerFired 0;
          OnRequestStream 2 (EvError unavailable 0 0); TimerFired 0])
  = [ApiCall (VObj []); SetTimeout (0 * inject_Z 100)%Q;
     ApiCall (VObj []); SetTimeout (0 * inject_Z 100)%Q;
     ApiCall (VObj []); SetTimeout (0 * inject_Z 100)%Q;
     ApiCall (VObj [])].
Proof. reflexivity. Qed.

(** With no budget an error outside the retry codes is surfaced, as in the
    repository's test. *)
Lemma no_budget_refused_error :
  snd (runCall (call [5] None None)
         [OnRequestStream 0 (EvError (errorWithCode 3 "test error") 0 0)])
  = [ApiCall (VObj []); RequestStreamDestroy 0;
     RetryStreamDestroy
       (set_note notTransientNote (errorWithCode 3 "test error"))].
Proof. reflexivity. Qed.

Lemma no_budget_retryable_error_is_retried_witness :
  snd (step (call [14] None None) (started (call [14] None None))
         (OnRequestStream 0 (EvError unavailable 0 (1 # 2))))
  = [SetTimeout ((1 # 2) * inject_Z 100)%Q]
  /\ timers (fst (step (call [14] None None) (started (call [14] None None))
                    (OnRequestStream 0 (EvError unavailable 0 (1 # 2))))) = 1%nat.
Proof.
  apply (no_budget_retryable_error_is_retried
           (call [14] None None) (started (call [14] None None)) 0%nat
           freshAttempt unavailable 0 (1 # 2)); reflexivity.
Defined.

(** What the handler does with an error of code 5 when the retry codes
    are 1 and 4 and both budgets are set. *)
Lemma refused_error_with_both_budgets :
  snd (step (call [1; 4] (Some 4000) (Some 5))
         (started (call [1; 4] (Some 4000) (Some 5)))
         (OnRequestStream 0 (EvError notFound 0 0)))
  = [RequestStreamDestroy 0;
     RetryStreamDestroy (set_note notTransientNote notFound)].
Proof. reflexivity. Qed.

(** C2, as stated, fails: with [maxRetries = 5] and
    [totalTimeoutMillis = 4000] an error whose code is not a retry code is
    passed on with the not-transient note, its own code and message. *)
Lemma both_budgets_counterexample :
  ~ both_budgets_always_refused (call [1; 4] (Some 4000) (Some 5))
      (started (call [1; 4] (Some 4000) (Some 5))) 0 notFound 0 0.
Proof.
  intros H.
  destruct (H ltac:(eexists; reflexivity) ltac:(eexists; reflexivity))
    as (err & Hin & Hcode & _).
  simpl in Hin. destruct Hin as [Hin|[Hin|[]]]; [discriminate|].
  injection Hin as <-. discriminate.
Qed.

(** C2, amended. When both budgets are set to non-zero values, every error
    that the policy accepts destroys the request stream and destroys the
    consumer stream with [INVALID_ARGUMENT] (3) and the message "Cannot set
    both totalTimeoutMillis and maxRetries in backoffSettings.", and no retry
    is scheduled; the policy is consulted first, and an error that it refuses
    is passed on by [transientErrorHelper] instead. *)
Theorem both_budgets_refused_when_retryable c s i a e now rnd mr tt :
  attempts s !! i = Some a ->
  maxRetries (backoffSettings (retry c)) = Some mr -> mr <> 0 ->
  totalTimeout c = Some tt -> tt <> 0 ->
  snd (step c s (OnRequestStream i (EvError e now rnd)))
  = (if shouldRetryRequest e (retry c)
     then [RequestStreamDestroy i; RetryStreamDestroy bothBudgetsError]
     else transientErrorHelper i e)
  /\ code bothBudgetsError = Some 3
  /\ message bothBudgetsError = bothBudgetsMessage
  /\ timers (fst (step c s (OnRequestStream i (EvError e now rnd)))) = timers s.
Proof.
  intros Hi Hmax Hmr Htot Htt.
  rewrite (step_error _ _ _ _ _ _ _ Hi).
  destruct (shouldRetryRequest e (retry c)) eqn:Hretry.
  - unfold onError.
    rewrite guard_always, Hretry, Hmax, Htot. simpl.
    destruct (Z.eqb_spec mr 0) as [|_]; [contradiction|].
    destruct (Z.eqb_spec tt 0) as [|_]; [contradiction|].
    simpl. repeat split; reflexivity.
  - destruct (onError_not_retryable c i e now rnd s Hretry) as [-> ->].
    repeat split; reflexivity.
Qed.

Lemma both_budgets_refused_when_retryable_witness :
  snd (step (call [1; 4] (Some 4000) (Some 5))
         (started (call [1; 4] (Some 4000) (Some 5)))
         (OnRequestStream 0 (EvError (errorWithCode 4 "test error") 0 0)))
  = [RequestStreamDestroy 0; RetryStreamDestroy bothBudgetsError]
  /\ code bothBudgetsError = Some 3
  /\ message bothBudgetsError = bothBudgetsMessage
  /\ timers (fst (step (call [1; 4] (Some 4000) (Some 5))
                    (started (call [1; 4] (Some 4000) (Some 5)))
                    (OnRequestStream 0 (EvError (errorWithCode 4 "test error") 0 0))))
     = 0%nat.
Proof.
  apply (both_budgets_refused_when_retryable
           (call [1; 4] (Some 4000) (Some 5))
           (started (call [1; 4] (Some 4000) (Some 5))) 0%nat freshAttempt
           (errorWithCode 4 "test error") 0 0 5 4000);
    [reflexivity|reflexivity|lia|reflexivity|lia].
Defined.

Lemma run_app c s evs1 evs2 :
  run c s (evs1 ++ evs2)
  = (fst (run c (fst (run c s evs1)) evs2),
     snd (run c s evs1) ++ snd (run c (fst (run c s evs1)) evs2)).
Proof.
  revert s; induction evs1 as [|ev evs1 IH]; intros s; simpl.
  - now destruct (run c s evs2).
  - destruct (step c s ev) as [s1 out1]. rewrite IH.
    destruct (run c s1 evs1) as [s2 out2]; simpl.
    now rewrite app_assoc.
Qed.

Lemma append_assoc (a b c : string) : (a +:+ b) +:+ c = a +:+ (b +:+ c).
Proof.
  induction a as [|x a IH]; [reflexivity|].
  change (String x ((a +:+ b) +:+ c) = String x (a +:+ (b +:+ c))).
  now rewrite IH.
Qed.

Lemma errorToString_parsed e :
  errorToString (parseGRPCStatusDetails e) = errorToString e.
Proof.
  unfold errorToString.
  now rewrite StreamProxyFacts.parseGRPCStatusDetails_message.
Qed.

(** The ['error'] handler never adds a request stream. *)
Lemma onError_attempts_length c i e now rnd s :
  length (attempts (fst (onError c i e now rnd s))) = length (attempts s).
Proof.
  unfold onError.
  repeat match goal with
         | |- context [if ?b then _ else _] => destruct b
         | |- context [match ?o with Some _ => _ | None => _ end] => destruct o
         end;
    cbn [fst attempts set_attempts]; apply length_alter.
Qed.

(** C6. A retryable error handled when the retry counter has reached
    [maxRetries] (at least 1, no [totalTimeoutMillis]) destroys the request
    stream and destroys the consumer stream with an error of code
    [DEADLINE_EXCEEDED] (4) whose message starts with "Exceeded maximum
    number of retries" and quotes the original error; no timer is scheduled
    and no request stream is added. *)
Theorem max_retries_exceeded c s i a e now rnd m :
  attempts s !! i = Some a ->
  maxRetries (backoffSettings (retry c)) = Some m ->
  1 <= m -> m <= retries s ->
  totalTimeout c = None ->
  shouldRetryRequest e (retry c) = true ->
  snd (step c s (OnRequestStream i (EvError e now rnd)))
  = [RequestStreamDestroy i;
     RetryStreamDestroy (maxRetriesExceededError (parseGRPCStatusDetails e))]
  /\ code (maxRetriesExceededError (parseGRPCStatusDetails e)) = Some 4
  /\ message (maxRetriesExceededError (parseGRPCStatusDetails e))
     = "Exceeded maximum number of retries" +:+ " retrying error "
       +:+ errorToString e +:+ " before any response was received"
  /\ timers (fst (step c s (OnRequestStream i (EvError e now rnd)))) = timers s
  /\ length (attempts (fst (step c s (OnRequestStream i (EvError e now rnd)))))
     = length (attempts s).
Proof.
  intros Hi Hmax Hm Hret Htot Hretry.
  rewrite (step_error _ _ _ _ _ _ _ Hi).
  rewrite onError_attempts_length.
  unfold onError. rewrite guard_always, Hretry, Hmax, Htot. simpl.
  rewrite andb_false_r.
  unfold throwIfMaxRetriesOrTotalTimeoutExceeded. simpl.
  destruct (Z.eqb_spec m 0) as [|_]; [lia|].
  destruct (Z.eqb_spec (retries s) 0) as [|_]; [lia|].
  destruct (Z.leb_spec m (retries s)) as [_|]; [|lia].
  simpl. repeat split; try reflexivity.
  unfold maxRetriesExceededMessage. rewrite errorToString_parsed.
  rewrite !append_assoc. reflexivity.
Qed.

Lemma max_retries_exceeded_witness :
  snd (step (call [14] None (Some 2))
         (set_retries 2 (started (call [14] None (Some 2))))
         (OnRequestStream 0 (EvError unavailable 0 0)))
  = [RequestStreamDestroy 0;
     RetryStreamDestroy (maxRetriesExceededError unavailable)]
  /\ code (maxRetriesExceededError unavailable) = Some 4
  /\ message (maxRetriesExceededError unavailable)
     = "Exceeded maximum number of retries retrying error Error: UNAVAILABLE before any response was received"
  /\ timers (fst (step (call [14] None (Some 2))
                    (set_retries 2 (started (call [14] None (Some 2))))
                    (OnRequestStream 0 (EvError unavailable 0 0)))) = 0%nat
  /\ length (attempts (fst (step (call [14] None (Some 2))
                              (set_retries 2 (started (call [14] None (Some 2))))
                              (OnRequestStream 0 (EvError unavailable 0 0)))))
     = 1%nat.
Proof.
  apply (max_retries_exceeded (call [14] None (Some 2))
           (set_retries 2 (started (call [14] None (Some 2)))) 0%nat
           freshAttempt unavailable 0 0 2);
    [reflexivity|reflexivity|lia|simpl; lia|reflexivity|reflexivity].
Defined.

(** The run of the repository's test: [maxRetries = 2] and a code-14 error
    on every attempt. The third error is answered with code 4. *)
Lemma third_error_meets_deadline_exceeded :
  snd (runCall (call [14] None (Some 2))
         [OnRequestStream 0 (EvError unavailable 0 0); TimerFired 0;
          OnRequestStream 1 (EvError unavailable 0 0); TimerFired 0;
          OnRequestStream 2 (EvError unavailable 0 0)])
  = [ApiCall (VObj []); SetTimeout (0 * inject_Z 100)%Q;
     ApiCall (VObj []); SetTimeout (0 * inject_Z 100)%Q;
     ApiCall (VObj []); RequestStreamDestroy 2;
     RetryStreamDestroy (maxRetriesExceededError unavailable)].
Proof. reflexivity. Qed.

Lemma step_data c s i a d :
  attempts s !! i = Some a ->
  step c s (OnRequestStream i (EvData d)) = (set_retries 0 s, [ProxyEmit "data" d]).
Proof. intros H. unfold step. now rewrite H. Qed.

(** With a fresh counter and [maxRetries] as the only budget, the budget
    check lets a retryable error through and the handler schedules the
    retry. *)
Lemma onError_schedules_retry c i e now rnd s m :
  maxRetries (backoffSettings (retry c)) = Some m -> 1 <= m ->
  truthyZ (totalTimeout c) = false ->
  shouldRetryRequest e (retry c) = true ->
  retries s = 0 ->
  exists s',
    onError c i e now rnd s
    = (s', [SetTimeout (rnd * inject_Z (initialRetryDelayMillis
                                          (backoffSettings (retry c))))%Q])
    /\ length (attempts s') = length (attempts s)
    /\ timers s' = S (timers s)
    /\ retries s' = 0.
Proof.
  intros Hmax Hm Htot Hretry Hzero.
  unfold onError. rewrite guard_always, Hretry, Hmax, Htot, andb_false_r.
  unfold throwIfMaxRetriesOrTotalTimeoutExceeded.
  rewrite Htot. cbn [andb retries set_attempts].
  destruct (Z.eqb_spec m 0) as [|_]; [lia|].
  rewrite Hzero. cbn [Z.eqb negb andb].
  eexists. split; [reflexivity|].
  cbn [attempts timers retries set_attempts]. rewrite length_alter.
  now repeat split.
Qed.

(** The timer of a retry starts the next attempt. *)
Lemma onTimer_starts_attempt c now s k :
  isCancelCalled c = false ->
  timers s = S k ->
  exists s' arg,
    onTimer c now s = (s', [ApiCall arg])
    /\ attempts s' = attempts s ++ [freshAttempt]
    /\ timers s' = k
    /\ retries s' = retries s + 1.
Proof.
  intros Hcancel Htimers. unfold onTimer. rewrite Htimers.
  unfold newMakeRequest. rewrite Hcancel.
  eexists. eexists. split; [reflexivity|]. now repeat split.
Qed.

(** One round of progress leaves the machine where it was, one attempt
    later. *)
Lemma run_progressRound c e m k round s :
  maxRetries (backoffSettings (retry c)) = Some m -> 1 <= m ->
  truthyZ (totalTimeout c) = false ->
  isCancelCalled c = false ->
  shouldRetryRequest e (retry c) = true ->
  length (attempts s) = S k -> timers s = 0%nat ->
  exists s' toSleep arg,
    run c s (progressRound e k round)
    = (s', [ProxyEmit "data" (fst (fst (fst round))); SetTimeout toSleep; ApiCall arg])
    /\ length (attempts s') = S (S k) /\ timers s' = 0%nat.
Proof.
  intros Hmax Hm Htot Hcancel Hretry Hlen Htimers.
  destruct round as [[[d now] rnd] now'].
  destruct (lookup_lt_is_Some_2 (attempts s) k ltac:(lia)) as [a Ha].
  unfold progressRound, run.
  rewrite (step_data c s k a d Ha).
  rewrite (step_error c (set_retries 0 s) k a e now rnd Ha).
  destruct (onError_schedules_retry c k e now rnd (set_retries 0 s) m
              Hmax Hm Htot Hretry eq_refl) as (s1 & -> & Hlen1 & Htimers1 & _).
  cbn [step].
  destruct (onTimer_starts_attempt c now' s1 0 Hcancel
              ltac:(rewrite Htimers1; cbn [timers set_retries]; now rewrite Htimers))
    as (s2 & arg & -> & Hatt & Htimers2 & _).
  exists s2, (rnd * inject_Z (initialRetryDelayMillis (backoffSettings (retry c))))%Q, arg.
  split; [reflexivity|]. split; [|exact Htimers2].
  rewrite Hatt, length_app, Hlen1. cbn [attempts set_retries length]. lia.
Qed.

Lemma run_alternating c e m rounds :
  maxRetries (backoffSettings (retry c)) = Some m -> 1 <= m ->
  truthyZ (totalTimeout c) = false ->
  isCancelCalled c = false ->
  shouldRetryRequest e (retry c) = true ->
  forall k s,
    length (attempts s) = S k -> timers s = 0%nat ->
    List.filter isRetryStreamDestroy (snd (run c s (alternating e k rounds))) = []
    /\ length (List.filter isApiCall (snd (run c s (alternating e k rounds))))
       = length rounds
    /\ dataEmitted (snd (run c s (alternating e k rounds)))
       = map (fun r => fst (fst (fst r))) rounds.
Proof.
  intros Hmax Hm Htot Hcancel Hretry.
  induction rounds as [|round rounds IH]; intros k s Hlen Htimers.
  - now repeat split.
  - cbn [alternating]. rewrite run_app.
    destruct (run_progressRound c e m k round s Hmax Hm Htot Hcancel Hretry
                Hlen Htimers) as (s' & toSleep & arg & -> & Hlen' & Htimers').
    cbn [fst snd].
    destruct (IH (S k) s' Hlen' Htimers') as (Hdestroy & Hcalls & Hdata).
    repeat split.
    + cbn. exact Hdestroy.
    + cbn. now rewrite Hcalls.
    + unfold dataEmitted in *. cbn. now rewrite Hdata.
Qed.

(** C7. A ['data'] event sets the retry counter to 0 and hands the message
    to the consumer. With [maxRetries] at least 1 as the only budget
    ([totalTimeoutMillis] unset or 0), any number of rounds "message, retryable error,
    retry timer" runs without the consumer stream ever being destroyed:
    every message is delivered and every round starts a new attempt. *)
Theorem data_resets_retry_counter c e m :
  maxRetries (backoffSettings (retry c)) = Some m -> 1 <= m ->
  truthyZ (totalTimeout c) = false ->
  isCancelCalled c = false ->
  shouldRetryRequest e (retry c) = true ->
  (forall s i a d,
     attempts s !! i = Some a ->
     retries (fst (step c s (OnRequestStream i (EvData d)))) = 0
     /\ snd (step c s (OnRequestStream i (EvData d))) = [ProxyEmit "data" d])
  /\ (forall rounds,
        List.filter isRetryStreamDestroy (snd (runCall c (alternating e 0 rounds))) = []
        /\ length (List.filter isApiCall (snd (runCall c (alternating e 0 rounds))))
           = S (length rounds)
        /\ dataEmitted (snd (runCall c (alternating e 0 rounds)))
           = map (fun r => fst (fst (fst r))) rounds).
Proof.
  intros Hmax Hm Htot Hcancel Hretry. split.
  - intros s i a d Ha. now rewrite (step_data c s i a d Ha).
  - intros rounds. unfold runCall, newStreamingRetryRequest, newMakeRequest.
    rewrite Hcancel.
    match goal with
    | |- context [run c ?s0 _] =>
        destruct (run_alternating c e m rounds Hmax Hm Htot Hcancel Hretry
                    0%nat s0 eq_refl eq_refl) as (Hdestroy & Hcalls & Hdata);
        destruct (run c s0 (alternating e 0 rounds)) as [s1 out1]
    end.
    cbn [fst snd] in *. repeat split.
    + cbn. exact Hdestroy.
    + cbn. now rewrite Hcalls.
    + cbn. exact Hdata.
Qed.

Lemma data_resets_retry_counter_witness :
  (forall s i a d,
     attempts s !! i = Some a ->
     retries (fst (step (call [14] None (Some 1)) s (OnRequestStream i (EvData d)))) = 0
     /\ snd (step (call [14] None (Some 1)) s (OnRequestStream i (EvData d)))
        = [ProxyEmit "data" d])
  /\ (forall rounds,
        List.filter isRetryStreamDestroy
          (snd (runCall (call [14] None (Some 1)) (alternating unavailable 0 rounds))) = []
        /\ length (List.filter isApiCall
                     (snd (runCall (call [14] None (Some 1))
                             (alternating unavailable 0 rounds))))
           = S (length rounds)
        /\ dataEmitted (snd (runCall (call [14] None (Some 1))
                               (alternating unavailable 0 rounds)))
           = map (fun r => fst (fst (fst r))) rounds).
Proof.
  apply (data_resets_retry_counter (call [14] None (Some 1)) unavailable 1);
    [reflexivity|lia|reflexivity|reflexivity|reflexivity].
Defined.

(** Without the messages the same errors exhaust [maxRetries = 1] at the
    second error. *)
Lemma errors_without_data_exhaust_budget :
  snd (runCall (call [14] None (Some 1))
         [OnRequestStream 0 (EvError unavailable 0 0); TimerFired 0;
          OnRequestStream 1 (EvError unavailable 0 0)])
  = [ApiCall (VObj []); SetTimeout (0 * inject_Z 100)%Q; ApiCall (VObj []);
     RequestStreamDestroy 1;
     RetryStreamDestroy (maxRetriesExceededError unavailable)].
Proof. reflexivity. Qed.

End RetryFacts.

(** ** Forwarding of events *)

Module ForwardFacts.
Import StreamProxy Scenarios RetryFacts.

(** Messages leave the flags of the attempts and [responseHasSent] alone
    and are handed on in order. *)
Lemma run_messages c i a messages s :
  attempts s !! i = Some a ->
  exists s',
    run c s (map (fun d => OnRequestStream i (EvData d)) messages)
    = (s', map (ProxyEmit "data") messages)
    /\ attempts s' = attempts s
    /\ responseHasSent s' = responseHasSent s.
Proof.
  revert s; induction messages as [|d messages IH]; intros s Ha.
  - exists s. now repeat split.
  - cbn [map run]. rewrite (step_data c s i a d Ha).
    destruct (IH (set_retries 0 s) Ha) as (s' & -> & Hatt & Hsent).
    exists s'. now repeat split.
Qed.

Lemma responsesEmitted_app out1 out2 :
  responsesEmitted (out1 ++ out2) = responsesEmitted out1 ++ responsesEmitted out2.
Proof. unfold responsesEmitted. apply omap_app. Qed.

Lemma responsesEmitted_messages messages :
  responsesEmitted (map (ProxyEmit "data") messages) = [].
Proof. induction messages as [|d messages IH]; [reflexivity|exact IH]. Qed.

(** The end of a successful attempt, from the state the messages leave. *)
Lemma run_end_status c i status (endFirst : bool) s :
  attempts s !! i = Some freshAttempt ->
  snd (run c s (if endFirst
                then [OnRequestStream i EvEnd; OnRequestStream i (EvStatus status)]
                else [OnRequestStream i (EvStatus status); OnRequestStream i EvEnd]))
  = ([RetryStreamEmit "status" status]
     ++ (if responseHasSent s then [] else [RetryStreamEmit "response" okResponse]))
    ++ [RetryStreamEnd].
Proof.
  intros Ha. destruct endFirst; cbn [run step]; rewrite Ha.
  - cbn [onEnd freshAttempt enteredError statusReceived negb fst snd set_attempts
         attempts app].
    rewrite list_lookup_alter_eq, Ha.
    cbn [fmap option_fmap option_map onStatus dataEnd responseHasSent
         set_attempts snd app].
    now destruct (responseHasSent s).
  - cbn [onStatus freshAttempt dataEnd set_attempts attempts].
    rewrite list_lookup_alter_eq, Ha.
    cbn [fmap option_fmap option_map onEnd enteredError statusReceived negb
         responseHasSent set_attempts snd app].
    now destruct (responseHasSent s).
Qed.

(** What the second attempt gives the consumer after a first attempt
    with metadata: the status and the end, no response. *)
Lemma second_attempt_without_response :
  snd (run (call [14] None (Some 2))
         (fst (runCall (call [14] None (Some 2)) metadataThenRetry))
         (successfulAttempt 1 None [] (VObj []) true))
  = [RetryStreamEmit "status" (VObj []); RetryStreamEnd].
Proof. reflexivity. Qed.

(** C4, as stated for every successful attempt, fails: when the first
    attempt emitted metadata and was retried, a second attempt that emits
    no metadata ends without any response. *)
Lemma one_response_counterexample :
  ~ one_response_before_end (call [14] None (Some 2))
      (fst (runCall (call [14] None (Some 2)) metadataThenRetry))
      1 None [] (VObj []) true.
Proof.
  intros (pre & Hout & Hresp). cbn in Hout.
  destruct pre as [|a1 pre]; [discriminate|].
  injection Hout as <- Hout.
  destruct pre as [|a2 pre]; [discriminate|].
  injection Hout as _ Hout. destruct pre; discriminate.
Qed.

(** A successful attempt, from any state in which its request stream has
    emitted nothing yet: what the handlers do, and [_responseHasSent]
    afterwards. *)
Lemma run_successfulAttempt c s i metadata messages status endFirst :
  attempts s !! i = Some freshAttempt ->
  let sent := match metadata with Some _ => true | None => responseHasSent s end in
  exists s2,
    run c s (successfulAttempt i metadata messages status endFirst)
    = (s2,
       (match metadata with
        | Some m => [RetryStreamEmit "metadata" m;
                     RetryStreamEmit "response" (okResponseWith m)]
        | None => []
        end
        ++ map (ProxyEmit "data") messages
        ++ [RetryStreamEmit "status" status]
        ++ (if sent then [] else [RetryStreamEmit "response" okResponse]))
       ++ [RetryStreamEnd])
    /\ responseHasSent s2 = sent.
Proof.
  intros Ha sent.
  assert (Htail : forall s1,
    attempts s1 !! i = Some freshAttempt ->
    exists s2,
      run c s1 (if endFirst
                then [OnRequestStream i EvEnd; OnRequestStream i (EvStatus status)]
                else [OnRequestStream i (EvStatus status); OnRequestStream i EvEnd])
      = (s2,
         ([RetryStreamEmit "status" status]
          ++ (if responseHasSent s1 then []
              else [RetryStreamEmit "response" okResponse]))
         ++ [RetryStreamEnd])
      /\ responseHasSent s2 = responseHasSent s1).
  { intros s1 Ha1.
    pose proof (run_end_status c i status endFirst s1 Ha1) as Hend.
    set (tail := if endFirst then _ else _) in *.
    assert (Hkeep : responseHasSent (fst (run c s1 tail)) = responseHasSent s1).
    { subst tail. destruct endFirst; cbn [run step]; rewrite Ha1;
        cbn [onEnd onStatus freshAttempt enteredError negb fst set_attempts
             attempts];
        rewrite list_lookup_alter_eq, Ha1; reflexivity. }
    destruct (run c s1 tail) as [s2 out2]. cbn [fst snd] in *.
    exists s2. now rewrite Hend. }
  unfold successfulAttempt.
  destruct metadata as [m|].
  - cbn [app run step]. rewrite Ha. cbn [onMetadata].
    match goal with |- context [run c ?s0 _] => set (s0' := s0) end.
    assert (Ha' : attempts s0' !! i = Some freshAttempt) by exact Ha.
    rewrite run_app.
    destruct (run_messages c i freshAttempt messages s0' Ha')
      as (s1 & -> & Hatt & Hsent1).
    cbn [fst snd].
    destruct (Htail s1 ltac:(now rewrite Hatt)) as (s2 & -> & Hsent2).
    cbn [fst snd]. exists s2. rewrite Hsent2, Hsent1. subst sent s0'.
    cbn [responseHasSent]. split; [|reflexivity].
    f_equal. now rewrite <- !app_assoc.
  - cbn [app]. rewrite run_app.
    destruct (run_messages c i freshAttempt messages s Ha)
      as (s1 & -> & Hatt & Hsent1).
    cbn [fst snd].
    destruct (Htail s1 ltac:(now rewrite Hatt)) as (s2 & -> & Hsent2).
    cbn [fst snd]. exists s2. rewrite Hsent2, Hsent1. subst sent.
    split; [|reflexivity].
    f_equal. now rewrite <- !app_assoc.
Qed.

(** C4, amended. A successful attempt of the retry state machine ends the
    consumer stream once, as its last act. When ['metadata'] arrives the
    consumer gets exactly one response before that, [{code: 200, message:
    "OK", details: "", metadata}], whatever [_responseHasSent] was, the flag
    is set, and ['status'] adds no second response. When only ['status']
    arrives the consumer gets the same object without the [metadata] field
    if [_responseHasSent] is still unset, and no response at all if an
    earlier attempt of the call has set it. So the attempt gives exactly
    one response of the expected shape if and only if it emits metadata or
    starts with the flag unset. *)
Theorem response_of_successful_attempt c s i metadata messages status endFirst :
  attempts s !! i = Some freshAttempt ->
  let result := run c s (successfulAttempt i metadata messages status endFirst) in
  (one_response_before_end c s i metadata messages status endFirst
   <-> is_Some metadata \/ responseHasSent s = false)
  /\ responsesEmitted (snd result)
     = match metadata with
       | Some m => [okResponseWith m]
       | None => if responseHasSent s then [] else [okResponse]
       end
  /\ (exists pre, snd result = pre ++ [RetryStreamEnd] /\ ~ In RetryStreamEnd pre)
  /\ responseHasSent (fst result)
     = match metadata with Some _ => true | None => responseHasSent s end.
Proof.
  intros Ha result.
  destruct (run_successfulAttempt c s i metadata messages status endFirst Ha)
    as (s2 & Hrun & Hsent).
  cbv zeta in Hrun, Hsent.
  match type of Hrun with _ = (_, ?body ++ _) => set (pre := body) in * end.
  assert (Hresp : responsesEmitted pre
                  = match metadata with
                    | Some m => [okResponseWith m]
                    | None => if responseHasSent s then [] else [okResponse]
                    end).
  { subst pre. rewrite !responsesEmitted_app, responsesEmitted_messages.
    destruct metadata; [reflexivity|]. now destruct (responseHasSent s). }
  assert (Hnoend : ~ In RetryStreamEnd pre).
  { subst pre. intros Hin.
    repeat (apply in_app_or in Hin as [Hin|Hin]).
    - destruct metadata; cbn in Hin; intuition discriminate.
    - apply in_map_iff in Hin as (d & Hd & _). discriminate.
    - cbn in Hin. intuition discriminate.
    - destruct metadata; [destruct Hin|].
      destruct (responseHasSent s); cbn in Hin; intuition discriminate. }
  subst result. unfold one_response_before_end. rewrite Hrun. cbn [fst snd].
  repeat split.
  - intros (pre' & Hout & Hone).
    apply app_inj_tail in Hout as [<- _]. rewrite Hresp in Hone.
    destruct metadata as [m|]; [left; eauto|right].
    destruct (responseHasSent s); [discriminate|reflexivity].
  - intros Hcase. exists pre. split; [reflexivity|]. rewrite Hresp.
    destruct metadata as [m|]; [reflexivity|].
    destruct Hcase as [[m Hm]| ->]; [discriminate|reflexivity].
  - now rewrite responsesEmitted_app, Hresp, app_nil_r.
  - exists pre. now split.
  - exact Hsent.
Qed.

Lemma response_of_successful_attempt_witness :
  let c := call [14] None (Some 2) in
  let s := fst (runCall c metadataThenRetry) in
  let metadata := Some (VObj [("foo", VBool true)]) in
  let result :=
    run c s (successfulAttempt 1 metadata [VStr "Hello"; VStr "World"]
               (VObj [("code", VNum 0)]) true) in
  (one_response_before_end c s 1 metadata [VStr "Hello"; VStr "World"]
     (VObj [("code", VNum 0)]) true
   <-> is_Some metadata \/ responseHasSent s = false)
  /\ responsesEmitted (snd result) = [okResponseWith (VObj [("foo", VBool true)])]
  /\ (exists pre, snd result = pre ++ [RetryStreamEnd] /\ ~ In RetryStreamEnd pre)
  /\ responseHasSent (fst result) = true.
Proof.
  apply (response_of_successful_attempt (call [14] None (Some 2))
           (fst (runCall (call [14] None (Some 2)) metadataThenRetry)) 1%nat
           (Some (VObj [("foo", VBool true)])) [VStr "Hello"; VStr "World"]
           (VObj [("code", VNum 0)]) true).
  reflexivity.
Defined.

(** *** ['end'] and ['status'] *)

Lemma onError_attempts c i e now rnd s :
  attempts (fst (onError c i e now rnd s))
  = alter (fun a => {| dataEnd := dataEnd a; statusReceived := statusReceived a;
                       enteredError := true |}) i (attempts s).
Proof.
  unfold onError.
  repeat match goal with
         | |- context [if ?b then _ else _] => destruct b
         | |- context [match ?o with Some _ => _ | None => _ end] => destruct o
         end; reflexivity.
Qed.



Lemma onTimer_attempts c now s :
  attempts (fst (onTimer c now s)) = attempts s
  \/ attempts (fst (onTimer c now s)) = attempts s ++ [freshAttempt].
Proof.
  unfold onTimer, newMakeRequest.
  destruct (timers s); [now left|].
  destruct (isCancelCalled c); [now left|now right].
Qed.






(** [enteredError] of a request stream, once set, stays set. *)
Lemma step_keeps_enteredError c s ev i :
  (exists a, attempts s !! i = Some a /\ enteredError a = true) ->
  exists a, attempts (fst (step c s ev)) !! i = Some a /\ enteredError a = true.
Proof.
  intros (a & Ha & Herr).
  assert (Halter : forall f j,
    (forall x, enteredError x = true -> enteredError (f x) = true) ->
    exists a', alter f j (attempts s) !! i = Some a' /\ enteredError a' = true).
  { intros f j Hf. destruct (decide (j = i)) as [->|Hne].
    - rewrite list_lookup_alter_eq, Ha. cbn. eauto.
    - rewrite list_lookup_alter_ne by exact Hne. eauto. }
  destruct ev as [j sev|now]; cbn [step].
  - destruct (attempts s !! j) as [aj|]; [|eauto].
    destruct sev as [m|r|status|d| |e now rnd].
    + cbn. eauto.
    + cbn. eauto.
    + cbn [onStatus fst set_attempts attempts]. apply Halter. auto.
    + cbn. eauto.
    + unfold onEnd. destruct (enteredError aj); cbn [negb fst]; [eauto|].
      cbn [set_attempts attempts]. apply Halter. auto.
    + rewrite onError_attempts. apply Halter. auto.
  - destruct (onTimer_attempts c now s) as [-> | ->]; [eauto|].
    exists a. split; [|exact Herr]. now apply lookup_app_l_Some.
Qed.

Lemma run_keeps_enteredError c evs i :
  forall s,
    (exists a, attempts s !! i = Some a /\ enteredError a = true) ->
    exists a, attempts (fst (run c s evs)) !! i = Some a /\ enteredError a = true.
Proof.
  induction evs as [|ev evs IH]; intros s H; [exact H|].
  cbn [run]. pose proof (step_keeps_enteredError c s ev i H) as H1.
  destruct (step c s ev) as [s1 out1]. cbn [fst] in H1.
  specialize (IH s1 H1). now destruct (run c s1 evs).
Qed.


End ForwardFacts.

(** ** The iterator of [asyncIterate] *)

Module IteratorFacts.
Import PageDescriptor.

Lemma fetchLoop_cached apiCall options fuel attempts st :
  cache st <> [] ->
  fetchLoop apiCall options (S fuel) attempts st = (LoopLeft, st).
Proof. intros H. cbn [fetchLoop]. now destruct (cache st). Qed.

(** The loop of [next()] never needs more than its twelve iterations. *)
Lemma fetchLoop_enough_fuel apiCall options fuel :
  forall attempts st,
    0 <= attempts <= maxAttemptsEmptyResponse ->
    12 - attempts <= Z.of_nat fuel ->
    fst (fetchLoop apiCall options fuel attempts st) <> LoopOutOfFuel.
Proof.
  unfold maxAttemptsEmptyResponse.
  induction fuel as [|fuel IH]; intros attempts st Hatt Hfuel; [lia|].
  cbn [fetchLoop].
  destruct (cache st) as [|v rest] eqn:Hcache; [|discriminate].
  destruct (nextPageRequest st) as [req|]; [|discriminate].
  destruct (apiCall (calls st) req options) as [result next].
  assert (Hstep : forall cache',
    fst match cache' with
        | [] =>
            if maxAttemptsEmptyResponse <? attempts + 1
            then (LoopLeft, {| nextPageRequest := next; cache := cache';
                               calls := S (calls st) |})
            else fetchLoop apiCall options fuel (attempts + 1)
                   {| nextPageRequest := next; cache := cache';
                      calls := S (calls st) |}
        | _ :: _ =>
            fetchLoop apiCall options fuel attempts
              {| nextPageRequest := next; cache := cache';
                 calls := S (calls st) |}
        end <> LoopOutOfFuel).
  { intros [|v rest].
    - unfold maxAttemptsEmptyResponse.
      destruct (Z.ltb_spec 10 (attempts + 1)); [discriminate|].
      apply IH; lia.
    - destruct fuel as [|fuel']; [lia|].
      now rewrite fetchLoop_cached. }
  destruct result as [resources|entries|]; cbn [app];
    [apply Hstep|apply Hstep|discriminate].
Qed.

(** [next()] always resolves or rejects. *)
Lemma next_returns apiCall options st :
  fst (next apiCall options st) <> OutOfFuel.
Proof.
  unfold next. destruct (cache st); [|discriminate].
  pose proof (fetchLoop_enough_fuel apiCall options nextFuel 0 st) as H.
  destruct (fetchLoop apiCall options nextFuel 0 st) as [[| |] st'];
    cbn [fst] in *.
  - destruct (cache st'); discriminate.
  - discriminate.
  - exfalso.
    apply H;
      [unfold maxAttemptsEmptyResponse; lia|unfold nextFuel; lia|reflexivity].
Qed.

(** Empty pages keep the loop going until their count exceeds
    [maxAttemptsEmptyResponse]. *)
Lemma fetchLoop_empty_pages apiCall options n :
  forall fuel attempts st,
    cache st = [] ->
    is_Some (nextPageRequest st) ->
    attempts + Z.of_nat n = maxAttemptsEmptyResponse + 1 ->
    (1 <= n <= fuel)%nat ->
    (forall k req, (calls st <= k < calls st + n)%nat ->
                   isEmptyPage (apiCall k req options) = true) ->
    exists next',
      fetchLoop apiCall options fuel attempts st
      = (LoopLeft, {| nextPageRequest := next'; cache := [];
                      calls := (calls st + n)%nat |}).
Proof.
  unfold maxAttemptsEmptyResponse.
  induction n as [|n IH]; intros fuel attempts st Hcache [req Hreq] Hatt Hn Hpages;
    [lia|].
  destruct fuel as [|fuel]; [lia|].
  cbn [fetchLoop]. rewrite Hcache, Hreq.
  pose proof (Hpages (calls st) req ltac:(lia)) as Hpage.
  destruct (apiCall (calls st) req options) as [result next].
  assert (Hnext : exists req', next = Some req'
                               /\ (result = ResArray [] \/ result = ResMap [])).
  { destruct result as [[|? ?]|[|? ?]|], next as [req'|]; try discriminate;
      eauto. }
  destruct Hnext as (req' & -> & Hresult).
  assert (Hgoal : exists next',
    (if maxAttemptsEmptyResponse <? attempts + 1
     then (LoopLeft, {| nextPageRequest := Some req'; cache := [];
                        calls := S (calls st) |})
     else fetchLoop apiCall options fuel (attempts + 1)
            {| nextPageRequest := Some req'; cache := [];
               calls := S (calls st) |})
    = (LoopLeft, {| nextPageRequest := next'; cache := [];
                    calls := (calls st + S n)%nat |})).
  { unfold maxAttemptsEmptyResponse.
    destruct (Z.ltb_spec 10 (attempts + 1)) as [Hlt|Hge].
    - assert (n = 0%nat) as -> by lia.
      exists (Some req'). do 2 f_equal. lia.
    - destruct (IH fuel (attempts + 1)
                  {| nextPageRequest := Some req'; cache := [];
                     calls := S (calls st) |}
                  eq_refl ltac:(eexists; reflexivity) ltac:(lia) ltac:(lia))
        as [next' Hloop].
      + intros k r Hk. cbn [calls] in Hk. apply Hpages. lia.
      + exists next'. rewrite Hloop. cbn [calls]. do 2 f_equal. lia. }
  destruct Hresult as [-> | ->]; exact Hgoal.
Qed.

(** Ten empty pages, then a page with a resource: [next()] makes the
    eleventh call and yields the resource. *)
Lemma eleventh_page_is_fetched :
  next (emptyPagesThen 10 (ResArray [VStr "resource"], None)) ∅
    (asyncIterator (VObj []))
  = (Yield (VStr "resource"),
     {| nextPageRequest := None; cache := []; calls := 11 |}).
Proof. reflexivity. Qed.

(** C8, as stated, fails: after ten empty pages the iterator makes an
    eleventh call, and when that page has a resource [next()] yields it. *)
Lemma stops_after_ten_counterexample :
  ~ stops_after_empty_pages 10
      (emptyPagesThen 10 (ResArray [VStr "resource"], None)) ∅
      (asyncIterator (VObj [])).
Proof.
  intros H.
  destruct H as [Hdone _]; [reflexivity|eexists; reflexivity| |discriminate Hdone].
  intros k req Hk. unfold emptyPagesThen.
  destruct (Nat.ltb_spec k 10); [reflexivity|cbn [calls asyncIterator] in Hk; lia].
Qed.

(** C8, amended. When successive page calls answer with a next-page request
    and no resources, [next()] leaves its loop after 11 consecutive empty
    pages, that is once their count exceeds [maxAttemptsEmptyResponse = 10],
    and resolves to [{done: true, value: undefined}]; the loop of one
    [next()] never runs unboundedly. *)
Theorem stops_after_eleven_empty_pages apiCall options st :
  cache st = [] ->
  is_Some (nextPageRequest st) ->
  (forall k req, (calls st <= k < calls st + 11)%nat ->
                 isEmptyPage (apiCall k req options) = true) ->
  fst (next apiCall options st) = Done
  /\ calls (snd (next apiCall options st)) = (calls st + 11)%nat
  /\ (forall apiCall' options' st',
        fst (next apiCall' options' st') <> OutOfFuel).
Proof.
  intros Hcache Hreq Hpages. split; [|split].
  - unfold next. rewrite Hcache.
    destruct (fetchLoop_empty_pages apiCall options 11 nextFuel 0 st Hcache Hreq
                eq_refl ltac:(unfold nextFuel; lia) Hpages) as [next' ->].
    reflexivity.
  - unfold next. rewrite Hcache.
    destruct (fetchLoop_empty_pages apiCall options 11 nextFuel 0 st Hcache Hreq
                eq_refl ltac:(unfold nextFuel; lia) Hpages) as [next' ->].
    reflexivity.
  - intros. apply next_returns.
Qed.

Lemma stops_after_eleven_empty_pages_witness :
  fst (next (emptyPagesThen 11 (ResArray [VStr "resource"], None)) ∅
         (asyncIterator (VObj []))) = Done
  /\ calls (snd (next (emptyPagesThen 11 (ResArray [VStr "resource"], None)) ∅
                   (asyncIterator (VObj [])))) = 11%nat
  /\ (forall apiCall' options' st',
        fst (next apiCall' options' st') <> OutOfFuel).
Proof.
  apply (stops_after_eleven_empty_pages
           (emptyPagesThen 11 (ResArray [VStr "resource"], None)) ∅
           (asyncIterator (VObj []))).
  - reflexivity.
  - eexists; reflexivity.
  - intros k req Hk. unfold emptyPagesThen.
    destruct (Nat.ltb_spec k 11); [reflexivity|simpl in Hk; lia].
Defined.

End IteratorFacts.

(** ** The stream of [createStream] *)

Module StreamFacts.
Import PageDescriptor.

Lemma pageCalls_app out1 out2 :
  pageCalls (out1 ++ out2) = pageCalls out1 ++ pageCalls out2.
Proof. unfold pageCalls. apply omap_app. Qed.

Lemma pageCalls_response apiResp out :
  pageCalls (EmitResponse apiResp :: out) = pageCalls out.
Proof. reflexivity. Qed.

Lemma pageCalls_end : pageCalls [StreamEnd] = [].
Proof. reflexivity. Qed.

(** The loop over the resources touches [pushCount] and [ended] only,
    makes no page call, and has returned from the callback only when the
    stream has ended. *)
Lemma pushResources_frame resources :
  forall s,
    options (fst (fst (pushResources resources s))) = options s
    /\ request (fst (fst (pushResources resources s))) = request s
    /\ started (fst (fst (pushResources resources s))) = started s
    /\ paused (fst (fst (pushResources resources s))) = paused s
    /\ pageCalls (snd (fst (pushResources resources s))) = []
    /\ (snd (pushResources resources s) = true ->
        ended (fst (fst (pushResources resources s))) = true).
Proof.
  induction resources as [|r rest IH]; intros s.
  - cbn. repeat split; discriminate.
  - cbn [pushResources].
    destruct (ended s) eqn:Hended; [cbn; now repeat split|].
    assert (Hpush : forall s1 hit,
      options s1 = options s -> request s1 = request s ->
      started s1 = started s -> paused s1 = paused s ->
      let r1 := pushResources rest s1 in
      let r2 := let '(s2, out, ret) := r1 in
                (s2, [Push r] ++ (if hit : bool then [StreamEnd] else []) ++ out, ret) in
      options (fst (fst r2)) = options s
      /\ request (fst (fst r2)) = request s
      /\ started (fst (fst r2)) = started s
      /\ paused (fst (fst r2)) = paused s
      /\ pageCalls (snd (fst r2)) = []
      /\ (snd r2 = true -> ended (fst (fst r2)) = true)).
    { intros s1 hit Ho Hr Hs Hp r1 r2. subst r1 r2.
      destruct (IH s1) as (Ho' & Hr' & Hs' & Hp' & Hc' & He').
      destruct (pushResources rest s1) as [[s2 out] ret]. cbn [fst snd] in *.
      rewrite Ho', Hr', Hs', Hp', Ho, Hr, Hs, Hp.
      repeat split; [|exact He'].
      destruct hit; exact Hc'. }
    destruct r; try (apply Hpush; reflexivity).
    destruct (IH s) as (Ho' & Hr' & Hs' & Hp' & Hc' & He').
    now repeat split.
Qed.

(** The options after a page that keeps the stream going and names a next
    page: the old ones without [pageToken]. *)
Lemma callback_continues s resources nextRequest apiResp :
  ended (fst (fst (pushResources resources s))) = false ->
  exists out,
    pageCalls out = []
    /\ callback None resources (Some nextRequest) apiResp s
       = (if paused s
          then ({| options := delete "pageToken" (options s);
                   request := nextRequest;
                   maxResults := maxResults (fst (fst (pushResources resources s)));
                   pushCount := pushCount (fst (fst (pushResources resources s)));
                   started := false; ended := false; paused := true |}, out)
          else ({| options := delete "pageToken" (options s);
                   request := request s;
                   maxResults := maxResults (fst (fst (pushResources resources s)));
                   pushCount := pushCount (fst (fst (pushResources resources s)));
                   started := started s; ended := false; paused := false |},
                out ++ [SetImmediateApiCall nextRequest
                          (delete "pageToken" (options s))])).
Proof.
  intros Hended. unfold callback.
  destruct (pushResources_frame resources s) as (Ho & Hr & Hs & Hp & Hc & He).
  destruct (pushResources resources s) as [[s1 out] ret]. cbn [fst snd] in *.
  destruct ret; [now rewrite He in Hended|].
  rewrite Hended, Ho, Hr, Hs, Hp.
  assert (Hdelete :
    (if bool_decide (is_Some (options s !! "pageToken"))
     then delete "pageToken" (options s) else options s)
    = delete "pageToken" (options s)).
  { case_bool_decide as Hsome; [reflexivity|].
    symmetry. apply delete_id. now apply eq_None_not_Some. }
  rewrite Hdelete. exists (EmitResponse apiResp :: out).
  split; [now rewrite pageCalls_response|]. now destruct (paused s).
Qed.

(** One event makes at most one page call, and a page call leaves the
    stream unpinned. *)
Lemma streamStep_calls s ev :
  pageCalls (snd (streamStep s ev)) = []
  \/ exists call,
       pageCalls (snd (streamStep s ev)) = [call]
       /\ unpinned (fst (streamStep s ev)).
Proof.
  destruct ev as [| |err resources next apiResp]; cbn [streamStep].
  - unfold onResume. cbn [started negb].
    destruct (started s); cbn [negb]; [now left|].
    right. eexists. split; [reflexivity|]. now left.
  - now left.
  - destruct err as [e|]; [now left|].
    destruct (ended (fst (fst (pushResources resources s)))) eqn:Hended.
    + left. unfold callback.
      destruct (pushResources_frame resources s) as (_ & _ & _ & _ & Hc & _).
      destruct (pushResources resources s) as [[s1 out] ret]. cbn [fst snd] in *.
      rewrite Hended. destruct ret; cbn [snd]; now rewrite pageCalls_response.
    + destruct next as [nextRequest|].
      * destruct (callback_continues s resources nextRequest apiResp Hended)
          as (out & Hc & ->).
        destruct (paused s); cbn [fst snd].
        -- now left.
        -- right. eexists. rewrite pageCalls_app, Hc.
           split; [reflexivity|]. right. apply lookup_delete_eq.
      * left. unfold callback.
        destruct (pushResources_frame resources s) as (_ & _ & _ & _ & Hc & He).
        destruct (pushResources resources s) as [[s1 out] ret]. cbn [fst snd] in *.
        destruct ret; [now rewrite He in Hended|].
        rewrite Hended. cbn [snd].
        now rewrite pageCalls_app, pageCalls_response, pageCalls_end, Hc.
Qed.

(** An unpinned stream stays unpinned and calls without [pageToken]. *)
Lemma streamStep_unpinned s ev :
  unpinned s ->
  unpinned (fst (streamStep s ev))
  /\ Forall (fun call => snd call !! "pageToken" = None)
       (pageCalls (snd (streamStep s ev))).
Proof.
  intros Hinv.
  destruct ev as [| |err resources next apiResp]; cbn [streamStep].
  - unfold onResume. cbn [started negb].
    destruct (started s) eqn:Hstarted; cbn [negb fst snd].
    + split; [now left|constructor].
    + destruct Hinv as [Hinv|Hinv]; [congruence|].
      split; [now left|]. cbn. constructor; [exact Hinv|constructor].
  - split; [exact Hinv|constructor].
  - destruct err as [e|]; [split; [exact Hinv|constructor]|].
    destruct (ended (fst (fst (pushResources resources s)))) eqn:Hended.
    + unfold callback.
      destruct (pushResources_frame resources s) as (Ho & _ & Hs & _ & Hc & _).
      destruct (pushResources resources s) as [[s1 out] ret]. cbn [fst snd] in *.
      rewrite Hended.
      assert (Hinv1 : unpinned s1) by (unfold unpinned; now rewrite Ho, Hs).
      destruct ret; cbn [fst snd]; (split; [exact Hinv1|]);
        rewrite pageCalls_response, Hc; constructor.
    + destruct next as [nextRequest|].
      * destruct (callback_continues s resources nextRequest apiResp Hended)
          as (out & Hc & ->).
        destruct (paused s); cbn [fst snd].
        -- split; [right; apply lookup_delete_eq|]. rewrite Hc. constructor.
        -- split; [right; apply lookup_delete_eq|].
           rewrite pageCalls_app, Hc. cbn.
           constructor; [apply lookup_delete_eq|constructor].
      * unfold callback.
        destruct (pushResources_frame resources s) as (Ho & _ & Hs & _ & Hc & He).
        destruct (pushResources resources s) as [[s1 out] ret]. cbn [fst snd] in *.
        destruct ret; [now rewrite He in Hended|].
        rewrite Hended. cbn [fst snd]. split.
        -- unfold unpinned. cbn [started options]. now rewrite Ho, Hs.
        -- rewrite pageCalls_app, pageCalls_response, pageCalls_end, Hc.
           constructor.
Qed.

Lemma streamRun_unpinned evs :
  forall s,
    unpinned s ->
    Forall (fun call => snd call !! "pageToken" = None)
      (pageCalls (snd (streamRun s evs))).
Proof.
  induction evs as [|ev evs IH]; intros s Hinv; [constructor|].
  cbn [streamRun].
  destruct (streamStep_unpinned s ev Hinv) as [Hinv1 Hcalls].
  specialize (IH (fst (streamStep s ev)) Hinv1).
  destruct (streamStep s ev) as [s1 out1]. cbn [fst snd] in *.
  destruct (streamRun s1 evs) as [s2 out2]. cbn [fst snd] in *.
  rewrite pageCalls_app. apply Forall_app. now split.
Qed.

(** Every page call but the first is made without [pageToken]. *)
Lemma streamRun_later_calls evs :
  forall s,
    Forall (fun call => snd call !! "pageToken" = None)
      (tail (pageCalls (snd (streamRun s evs)))).
Proof.
  induction evs as [|ev evs IH]; intros s; [constructor|].
  cbn [streamRun].
  pose proof (streamStep_calls s ev) as Hstep.
  pose proof (streamRun_unpinned evs (fst (streamStep s ev))) as Hlater.
  specialize (IH (fst (streamStep s ev))).
  destruct (streamStep s ev) as [s1 out1]. cbn [fst snd] in *.
  destruct (streamRun s1 evs) as [s2 out2]. cbn [fst snd] in *.
  rewrite pageCalls_app.
  destruct Hstep as [-> |(call & -> & Hinv)]; cbn [app tail]; auto.
Qed.

(** With [maxResults = 1], the page's one resource ends the stream and the
    callback returns there. *)
Lemma maxResults_page_ends_stream :
  snd (callback None [VStr "resource"] (Some (VObj [("pageToken", VStr "y")]))
         (VObj []) pinnedStream)
  = [EmitResponse (VObj []); Push (VStr "resource"); StreamEnd]
  /\ options (fst (callback None [VStr "resource"]
                     (Some (VObj [("pageToken", VStr "y")])) (VObj [])
                     pinnedStream)) !! "pageToken"
     = Some (VStr "x").
Proof. split; vm_compute; reflexivity. Qed.

(** C9, as stated, fails: with [maxResults = 1] a page that brings one
    resource and a next-page request ends the stream and leaves
    [pageToken] in the options. *)
Lemma pageToken_kept_counterexample :
  ~ pageToken_deleted_after_page pinnedStream [VStr "resource"]
      (VObj [("pageToken", VStr "y")]) (VObj []).
Proof. unfold pageToken_deleted_after_page. vm_compute. discriminate. Qed.

(** C9, amended. After a page that names a next-page request and does not
    end the stream (no error, [maxResults] not reached), the options are the
    old ones without [pageToken], every other field unchanged, and the page
    call that follows (at once, or on the next ['resume'] when the stream is
    paused) asks for the next-page request with these options. Over a whole
    stream, every page call after the first is made without [pageToken],
    and [createStream] itself changes the options in [autoPaginate] only. *)
Theorem pageToken_deleted_when_paging_continues s resources nextRequest apiResp :
  ended (fst (fst (pushResources resources s))) = false ->
  options (fst (callback None resources (Some nextRequest) apiResp s))
  = delete "pageToken" (options s)
  /\ options (fst (callback None resources (Some nextRequest) apiResp s))
       !! "pageToken" = None
  /\ (forall k, k <> "pageToken" ->
        options (fst (callback None resources (Some nextRequest) apiResp s)) !! k
        = options s !! k)
  /\ pageCalls
       (snd (callback None resources (Some nextRequest) apiResp s)
        ++ (if paused s
            then snd (streamStep
                        (fst (callback None resources (Some nextRequest) apiResp s))
                        Resume)
            else []))
     = [(nextRequest, delete "pageToken" (options s))]
  /\ (forall request options0 evs,
        Forall (fun call => snd call !! "pageToken" = None)
          (tail (pageCalls
                   (snd (streamRun (fst (createStream request options0)) evs)))))
  /\ (forall request options0 k,
        k <> "autoPaginate" ->
        options (fst (createStream request (Some options0))) !! k = options0 !! k)
  /\ (forall request options0,
        options (fst (createStream request options0)) !! "autoPaginate"
        = Some (VBool false)).
Proof.
  intros Hended.
  destruct (callback_continues s resources nextRequest apiResp Hended)
    as (out & Hc & ->).
  repeat split.
  - now destruct (paused s).
  - destruct (paused s); apply lookup_delete_eq.
  - intros k Hk. destruct (paused s); cbn [fst options];
      now apply lookup_delete_ne.
  - destruct (paused s); cbn [fst snd streamStep onResume started negb
                              request options];
      rewrite !pageCalls_app, Hc; reflexivity.
  - intros. apply streamRun_later_calls.
  - intros request options0 k Hk. cbn. now apply lookup_insert_ne.
  - intros request options0. cbn. apply lookup_insert_eq.
Qed.

Lemma pageToken_deleted_when_paging_continues_witness :
  options (fst (callback None [VStr "a"; VNull; VStr "b"]
                  (Some (VObj [("pageToken", VStr "y")])) (VObj []) tokenStream))
  = delete "pageToken" (options tokenStream)
  /\ options (fst (callback None [VStr "a"; VNull; VStr "b"]
                     (Some (VObj [("pageToken", VStr "y")])) (VObj []) tokenStream))
       !! "pageToken" = None
  /\ (forall k, k <> "pageToken" ->
        options (fst (callback None [VStr "a"; VNull; VStr "b"]
                        (Some (VObj [("pageToken", VStr "y")])) (VObj [])
                        tokenStream)) !! k
        = options tokenStream !! k)
  /\ pageCalls
       (snd (callback None [VStr "a"; VNull; VStr "b"]
               (Some (VObj [("pageToken", VStr "y")])) (VObj []) tokenStream)
        ++ (if paused tokenStream
            then snd (streamStep
                        (fst (callback None [VStr "a"; VNull; VStr "b"]
                                (Some (VObj [("pageToken", VStr "y")])) (VObj [])
                                tokenStream))
                        Resume)
            else []))
     = [(VObj [("pageToken", VStr "y")], delete "pageToken" (options tokenStream))]
  /\ (forall request options0 evs,
        Forall (fun call => snd call !! "pageToken" = None)
          (tail (pageCalls
                   (snd (streamRun (fst (createStream request options0)) evs)))))
  /\ (forall request options0 k,
        k <> "autoPaginate" ->
        options (fst (createStream request (Some options0))) !! k = options0 !! k)
  /\ (forall request options0,
        options (fst (createStream request options0)) !! "autoPaginate"
        = Some (VBool false)).
Proof.
  apply (pageToken_deleted_when_paging_continues tokenStream
           [VStr "a"; VNull; VStr "b"] (VObj [("pageToken", VStr "y")]) (VObj [])).
  reflexivity.
Defined.

End StreamFacts.

(** ** The legacy wrapper *)

Module LegacyFacts.
Import StreamingRetryRequest.

Lemma errorsOf_app i evs1 evs2 :
  errorsOf i (evs1 ++ evs2) = (errorsOf i evs1 + errorsOf i evs2)%nat.
Proof. unfold errorsOf. now rewrite List.filter_app, length_app. Qed.

Lemma errorsOf_error i err : errorsOf i [(i, EvError err)] = 1%nat.
Proof. unfold errorsOf. cbn. now rewrite bool_decide_eq_true_2. Qed.

Lemma errors_once_prefix evs1 evs2 : errors_once (evs1 ++ evs2) -> errors_once evs1.
Proof. intros H i. specialize (H i). rewrite errorsOf_app in H. lia. Qed.

(** Once a response or a final error is handled nothing changes any more:
    the only listeners that still act destroy the consumer stream. *)
Lemma step_handled opts s ev :
  streamResponseHandled s = true ->
  fst (step opts s ev) = s
  /\ Forall (fun a => a = RetryStreamDestroy) (snd (step opts s ev)).
Proof.
  intros Hflag. destruct ev as [i [err|resp]]; cbn [step];
    case_bool_decide; rewrite ?Hflag; cbn [fst snd]; split; auto.
  induction (List.filter (Nat.eqb i) (destroyOnError s)); constructor; auto.
Qed.

Lemma run_handled opts evs :
  forall s,
    streamResponseHandled s = true ->
    fst (run opts s evs) = s
    /\ Forall (fun a => a = RetryStreamDestroy) (snd (run opts s evs)).
Proof.
  induction evs as [|ev evs IH]; intros s Hflag; [now split|].
  cbn [run]. destruct (step_handled opts s ev Hflag) as [Hs Hout].
  destruct (step opts s ev) as [s1 out1]. cbn [fst snd] in *. subst s1.
  destruct (IH s Hflag) as [Hs' Hout'].
  destruct (run opts s evs) as [s2 out2]. cbn [fst snd] in *.
  split; [exact Hs'|]. apply Forall_app. now split.
Qed.

Lemma only_destroys out :
  Forall (fun a => a = RetryStreamDestroy) out ->
  List.filter isEmitError out = [] /\ List.filter isRequest out = [].
Proof.
  induction 1 as [|a out -> _ [IH1 IH2]]; [now split|].
  cbn. now split.
Qed.

Lemma step_reached opts s ev seen :
  reached s seen ->
  errors_once (seen ++ [ev]) ->
  reached (fst (step opts s ev)) (seen ++ [ev]).
Proof.
  intros (Hnone & Hstale & Hsome) Honce.
  assert (Hmono : forall j, (S j < requestStreams s)%nat ->
                            (1 <= errorsOf j (seen ++ [ev]))%nat).
  { intros j Hj. rewrite errorsOf_app. specialize (Hstale j Hj). lia. }
  assert (Hsame : reached s (seen ++ [ev])) by now repeat split.
  destruct ev as [i [err|resp]]; cbn [step];
    case_bool_decide as Hi; try exact Hsame;
    destruct (streamResponseHandled s) eqn:Hflag; try exact Hsame.
  - (* an error that is handled *)
    unfold onResponse_err, makeRequest.
    cbn [numNoResponseAttempts set_handled].
    destruct (numNoResponseAttempts s + 1 <=? maxRetries opts); cbn [fst].
    + repeat split; cbn [streamResponseHandled destroyOnError requestStreams
                         set_handled].
      * intros _. now apply Hnone.
      * intros j Hj.
        destruct (decide (S j < requestStreams s)%nat) as [Hlt|Hge];
          [now apply Hmono|].
        destruct (decide (i = j)) as [->|Hne].
        -- rewrite errorsOf_app, errorsOf_error. lia.
        -- assert (Hstale_i : (S i < requestStreams s)%nat) by lia.
           specialize (Hstale i Hstale_i). specialize (Honce i).
           rewrite errorsOf_app, errorsOf_error in Honce. lia.
      * lia.
    + repeat split; cbn [streamResponseHandled destroyOnError requestStreams
                         set_handled]; [discriminate|exact Hmono|exact Hsome].
  - (* a response that is handled *)
    unfold onResponse_ok. cbn [fst].
    repeat split; cbn [streamResponseHandled destroyOnError requestStreams
                       set_handled]; [discriminate|exact Hmono|exact Hsome].
Qed.

Lemma run_reached opts evs :
  forall s seen,
    reached s seen ->
    errors_once (seen ++ evs) ->
    reached (fst (run opts s evs)) (seen ++ evs).
Proof.
  induction evs as [|ev evs IH]; intros s seen Hinv Honce.
  - now rewrite app_nil_r.
  - cbn [run].
    assert (Honce1 : errors_once (seen ++ [ev])).
    { apply (errors_once_prefix _ evs). now rewrite <- app_assoc. }
    pose proof (step_reached opts s ev seen Hinv Honce1) as Hstep.
    destruct (step opts s ev) as [s1 out1]. cbn [fst] in Hstep.
    specialize (IH s1 (seen ++ [ev]) Hstep).
    rewrite <- app_assoc in IH. specialize (IH Honce).
    now destruct (run opts s1 evs).
Qed.

Lemma streamingRetryRequest_reached : reached (fst streamingRetryRequest) [].
Proof. repeat split; cbn; intros; lia. Qed.

(** No second ['error'] listener is registered while no response is
    handled, whatever the request streams emit. *)
Lemma step_no_listener opts s ev :
  (streamResponseHandled s = false -> destroyOnError s = []) ->
  streamResponseHandled (fst (step opts s ev)) = false ->
  destroyOnError (fst (step opts s ev)) = [].
Proof.
  intros Hnone.
  destruct ev as [i [err|resp]]; cbn [step];
    case_bool_decide as Hi; try exact Hnone;
    destruct (streamResponseHandled s) eqn:Hflag;
    try (cbn [fst]; intros H; congruence).
  - unfold onResponse_err, makeRequest.
    cbn [numNoResponseAttempts set_handled].
    destruct (numNoResponseAttempts s + 1 <=? maxRetries opts); cbn [fst];
      cbn [streamResponseHandled destroyOnError set_handled];
      [intros _; now apply Hnone|discriminate].
  - unfold onResponse_ok. cbn [fst streamResponseHandled set_handled].
    discriminate.
Qed.

Lemma run_no_listener opts evs :
  forall s,
    (streamResponseHandled s = false -> destroyOnError s = []) ->
    streamResponseHandled (fst (run opts s evs)) = false ->
    destroyOnError (fst (run opts s evs)) = [].
Proof.
  induction evs as [|ev evs IH]; intros s Hnone; [exact Hnone|].
  cbn [run]. pose proof (step_no_listener opts s ev Hnone) as Hstep.
  destruct (step opts s ev) as [s1 out1]. cbn [fst] in Hstep.
  specialize (IH s1 Hstep). now destruct (run opts s1 evs).
Qed.

(** The original run of C10 that fails: the first request stream fails,
    which starts the second; the first then answers, so that the listener
    that destroys the consumer stream is put on the second; the later
    ['error'] of the first finds no listener that acts. *)
Lemma stale_response_counterexample :
  ~ error_after_response_destroys {| opt_maxRetries := None |}
      (failsOnce (newGoogleError "UNAVAILABLE")) 0 VNull []
      (newGoogleError "UNAVAILABLE").
Proof.
  intros H. destruct H as [_ Hin]; [vm_compute; lia|reflexivity|].
  vm_compute in Hin. exact Hin.
Qed.

(** C10, amended. Once the ['response'] of a request stream has been
    handled, a later ['error'] of that stream is not emitted on the consumer
    stream, and from the response on no error is emitted and no request is
    made again, whatever the request streams do. The later error destroys
    the consumer stream, with no error, exactly when the answering stream is
    the newest one, which carries the listener added by [onResponse]; it is
    the newest one whenever no request stream emits ['error'] twice. When an
    earlier stream answers, its later error does nothing. *)
Theorem error_after_response_is_not_emitted opts evs1 i resp evs2 err :
  (i < requestStreams (fst (run opts (fst streamingRetryRequest) evs1)))%nat ->
  streamResponseHandled (fst (run opts (fst streamingRetryRequest) evs1)) = false ->
  let s1 := fst (run opts (fst streamingRetryRequest) evs1) in
  let s2 := fst (step opts s1 (i, EvResponse resp)) in
  let s3 := fst (run opts s2 evs2) in
  snd (step opts s1 (i, EvResponse resp))
  = [RetryStreamEmitResponse resp; DelayStreamPipe]
  /\ streamResponseHandled s2 = true
  /\ snd (step opts s3 (i, EvError err))
     = (if bool_decide (S i = requestStreams s1) then [RetryStreamDestroy] else [])
  /\ (errors_once (evs1 ++ [(i, EvResponse resp)] ++ evs2 ++ [(i, EvError err)]) ->
      S i = requestStreams s1)
  /\ List.filter isEmitError
       (snd (run opts s2 evs2) ++ snd (step opts s3 (i, EvError err))) = []
  /\ List.filter isRequest
       (snd (run opts s2 evs2) ++ snd (step opts s3 (i, EvError err))) = [].
Proof.
  intros Hi Hflag s1 s2 s3.
  assert (Hnone : destroyOnError s1 = []).
  { apply run_no_listener; [reflexivity|exact Hflag]. }
  assert (Hstep : step opts s1 (i, EvResponse resp)
                  = ({| numNoResponseAttempts := numNoResponseAttempts s1;
                        streamResponseHandled := true;
                        requestStreams := requestStreams s1;
                        destroyOnError := [Nat.pred (requestStreams s1)] |},
                     [RetryStreamEmitResponse resp; DelayStreamPipe])).
  { cbn [step]. rewrite bool_decide_eq_true_2 by exact Hi.
    fold s1 in Hflag. rewrite Hflag. unfold onResponse_ok.
    cbn [set_handled numNoResponseAttempts streamResponseHandled requestStreams
         destroyOnError].
    now rewrite Hnone. }
  assert (Honce :
    errors_once (evs1 ++ [(i, EvResponse resp)] ++ evs2 ++ [(i, EvError err)]) ->
    S i = requestStreams s1).
  { intros Honce.
    assert (Hinv : reached s1 evs1).
    { apply (run_reached opts evs1 _ [] streamingRetryRequest_reached).
      cbn [app]. exact (errors_once_prefix _ _ Honce). }
    destruct Hinv as (_ & Hstale & _).
    destruct (decide (S i < requestStreams s1)%nat) as [Hlt|Hge];
      [|fold s1 in Hi; lia].
    specialize (Hstale i Hlt). specialize (Honce i).
    rewrite !errorsOf_app, errorsOf_error in Honce. lia. }
  subst s3 s2. rewrite !Hstep. cbn [fst snd].
  match goal with |- context [run opts ?s evs2] => set (s2 := s) in * end.
  destruct (run_handled opts evs2 s2 eq_refl) as [Hs3 Hout3].
  rewrite !Hs3.
  assert (Hfinal : step opts s2 (i, EvError err)
                   = (s2, if bool_decide (S i = requestStreams s1)
                          then [RetryStreamDestroy] else [])).
  { cbn [step]. subst s2. cbn [requestStreams streamResponseHandled destroyOnError].
    rewrite bool_decide_eq_true_2 by exact Hi.
    cbn [List.filter]. fold s1 in Hi.
    case_bool_decide as Hnew.
    - replace (Nat.pred (requestStreams s1)) with i by lia.
      now rewrite Nat.eqb_refl.
    - destruct (Nat.eqb_spec i (Nat.pred (requestStreams s1))) as [Heq|_];
        [lia|reflexivity]. }
  rewrite Hfinal. cbn [snd].
  destruct (only_destroys _ Hout3) as [Hno_error Hno_request].
  repeat split.
  - exact Honce.
  - rewrite List.filter_app, Hno_error. now case_bool_decide.
  - rewrite List.filter_app, Hno_request. now case_bool_decide.
Qed.

Lemma error_after_response_is_not_emitted_witness :
  let opts := {| opt_maxRetries := None |} in
  let err := newGoogleError "UNAVAILABLE" in
  let s1 := fst (run opts (fst streamingRetryRequest) (failsOnce err)) in
  let s2 := fst (step opts s1 (1%nat, EvResponse VNull)) in
  let s3 := fst (run opts s2 [(0%nat, EvError err)]) in
  snd (step opts s1 (1%nat, EvResponse VNull))
  = [RetryStreamEmitResponse VNull; DelayStreamPipe]
  /\ streamResponseHandled s2 = true
  /\ snd (step opts s3 (1%nat, EvError err)) = [RetryStreamDestroy]
  /\ (errors_once (failsOnce err ++ [(1%nat, EvResponse VNull)]
                   ++ [(0%nat, EvError err)] ++ [(1%nat, EvError err)]) ->
      2%nat = requestStreams s1)
  /\ List.filter isEmitError
       (snd (run opts s2 [(0%nat, EvError err)])
        ++ snd (step opts s3 (1%nat, EvError err))) = []
  /\ List.filter isRequest
       (snd (run opts s2 [(0%nat, EvError err)])
        ++ snd (step opts s3 (1%nat, EvError err))) = [].
Proof.
  apply (error_after_response_is_not_emitted {| opt_maxRetries := None |}
           (failsOnce (newGoogleError "UNAVAILABLE")) 1%nat VNull
           [(0%nat, EvError (newGoogleError "UNAVAILABLE"))]
           (newGoogleError "UNAVAILABLE")).
  - vm_compute. lia.
  - reflexivity.
Defined.

End LegacyFacts.

(** ** More on the ['error'] handler and on whole runs *)

Module RetryMoreFacts.
Import StreamProxy Scenarios RetryFacts.

Lemma parseGRPCStatusDetails_idempotent e :
  parseGRPCStatusDetails (parseGRPCStatusDetails e) = parseGRPCStatusDetails e.
Proof.
  unfold parseGRPCStatusDetails.
  destruct (statusDetailsBin e) as [info|] eqn:H; cbn; [reflexivity|now rewrite H].
Qed.

Lemma parseGRPCStatusDetails_set_note n e :
  parseGRPCStatusDetails (set_note n e) = set_note n (parseGRPCStatusDetails e).
Proof. unfold parseGRPCStatusDetails. cbn. now destruct (statusDetailsBin e). Qed.

(** X1. An error that the retry policy refuses is surfaced whatever the budgets
    are: the request stream is destroyed, the consumer stream is destroyed
    with the same error, which keeps its code and message, carries the
    decoded status details and the not-transient note; no retry is
    scheduled. *)
Theorem refused_error_is_surfaced c s i a e now rnd :
  attempts s !! i = Some a ->
  shouldRetryRequest e (retry c) = false ->
  exists err,
    snd (step c s (OnRequestStream i (EvError e now rnd)))
    = [RequestStreamDestroy i; RetryStreamDestroy err]
    /\ note err = Some notTransientNote
    /\ code err = code e
    /\ message err = message e
    /\ (forall info,
          statusDetailsBin e = Some info ->
          reason err = Some (ei_reason info)
          /\ domain err = Some (ei_domain info)
          /\ errorInfoMetadata err = Some (ei_metadata info))
    /\ timers (fst (step c s (OnRequestStream i (EvError e now rnd)))) = timers s.
Proof.
  intros Hi Hretry. rewrite (step_error _ _ _ _ _ _ _ Hi).
  destruct (onError_not_retryable c i e now rnd s Hretry) as [-> ->].
  unfold transientErrorHelper. eexists. split; [reflexivity|].
  unfold parseGRPCStatusDetails.
  destruct (statusDetailsBin e) as [info|]; cbn.
  - split; [reflexivity|]. split; [reflexivity|]. split; [reflexivity|].
    split; [|reflexivity]. intros info' [= <-]. now repeat split.
  - split; [reflexivity|]. split; [reflexivity|]. split; [reflexivity|].
    split; [|reflexivity]. intros info' [=].
Qed.

Lemma refused_error_is_surfaced_witness :
  exists err,
    snd (step (call [5] None (Some 1)) (started (call [5] None (Some 1)))
           (OnRequestStream 0 (EvError serviceDisabled 0 0)))
    = [RequestStreamDestroy 0; RetryStreamDestroy err]
    /\ note err = Some notTransientNote
    /\ code err = code serviceDisabled
    /\ message err = message serviceDisabled
    /\ (forall info,
          statusDetailsBin serviceDisabled = Some info ->
          reason err = Some (ei_reason info)
          /\ domain err = Some (ei_domain info)
          /\ errorInfoMetadata err = Some (ei_metadata info))
    /\ timers (fst (step (call [5] None (Some 1)) (started (call [5] None (Some 1)))
                      (OnRequestStream 0 (EvError serviceDisabled 0 0))))
       = timers (started (call [5] None (Some 1))).
Proof.
  apply (refused_error_is_surfaced (call [5] None (Some 1))
           (started (call [5] None (Some 1))) 0%nat freshAttempt
           serviceDisabled 0 0); reflexivity.
Defined.

(** X2. With [maxRetries] set to 0 (and no total timeout) a retryable error is
    not retried: the consumer stream is destroyed with the original error,
    parsed, under the note "Max retries is set to zero.". *)
Theorem max_retries_zero_surfaces_error c s i a e now rnd :
  attempts s !! i = Some a ->
  maxRetries (backoffSettings (retry c)) = Some 0 ->
  truthyZ (totalTimeout c) = false ->
  shouldRetryRequest e (retry c) = true ->
  snd (step c s (OnRequestStream i (EvError e now rnd)))
  = [RequestStreamDestroy i;
     RetryStreamDestroy (set_note maxRetriesZeroNote (parseGRPCStatusDetails e))]
  /\ timers (fst (step c s (OnRequestStream i (EvError e now rnd)))) = timers s.
Proof.
  intros Hi Hmax Htot Hretry. rewrite (step_error _ _ _ _ _ _ _ Hi).
  unfold onError. rewrite guard_always, Hretry, Hmax, Htot.
  cbn [truthyZ Z.eqb negb andb].
  unfold throwIfMaxRetriesOrTotalTimeoutExceeded. rewrite Htot.
  cbn [andb Z.eqb fst snd timers set_attempts].
  now rewrite parseGRPCStatusDetails_set_note, parseGRPCStatusDetails_idempotent.
Qed.

Lemma max_retries_zero_surfaces_error_witness :
  snd (step (call [14] None (Some 0)) (started (call [14] None (Some 0)))
         (OnRequestStream 0 (EvError unavailable 0 0)))
  = [RequestStreamDestroy 0;
     RetryStreamDestroy (set_note maxRetriesZeroNote unavailable)]
  /\ timers (fst (step (call [14] None (Some 0)) (started (call [14] None (Some 0)))
                    (OnRequestStream 0 (EvError unavailable 0 0)))) = 0%nat.
Proof.
  apply (max_retries_zero_surfaces_error (call [14] None (Some 0))
           (started (call [14] None (Some 0))) 0%nat freshAttempt unavailable 0 0);
    reflexivity.
Defined.

(** X3. With [totalTimeoutMillis] as the only budget, a retryable error handled
    at or after the deadline (the start of the call plus the total timeout)
    is not retried: the consumer stream is destroyed with a
    [DEADLINE_EXCEEDED] (4) error whose message names the total timeout and
    quotes the original error. *)
Theorem total_timeout_exceeded c s i a e now rnd t :
  attempts s !! i = Some a ->
  totalTimeout c = Some t -> t <> 0 ->
  truthyZ (maxRetries (backoffSettings (retry c))) = false ->
  shouldRetryRequest e (retry c) = true ->
  startTime c + t <> 0 ->
  startTime c + t <= now ->
  snd (step c s (OnRequestStream i (EvError e now rnd)))
  = [RequestStreamDestroy i;
     RetryStreamDestroy (totalTimeoutExceededError t (parseGRPCStatusDetails e))]
  /\ code (totalTimeoutExceededError t (parseGRPCStatusDetails e)) = Some 4
  /\ message (totalTimeoutExceededError t (parseGRPCStatusDetails e))
     = "Total timeout of API exceeded " +:+ numberToString t
       +:+ " milliseconds retrying error " +:+ errorToString e
       +:+ "  before any response was received."
  /\ timers (fst (step c s (OnRequestStream i (EvError e now rnd)))) = timers s.
Proof.
  intros Hi Htot Ht Hmax Hretry Hdl Hnow. rewrite (step_error _ _ _ _ _ _ _ Hi).
  unfold onError. rewrite guard_always, Hretry, Hmax. cbn [andb].
  unfold throwIfMaxRetriesOrTotalTimeoutExceeded, deadline. rewrite Htot.
  cbn [truthyZ].
  destruct (Z.eqb_spec t 0) as [|_]; [contradiction|]. cbn [negb andb].
  destruct (Z.eqb_spec (startTime c + t) 0) as [|_]; [contradiction|].
  destruct (Z.leb_spec (startTime c + t) now) as [_|]; [|lia].
  cbn [negb andb]. rewrite orb_true_r.
  cbn [from_option fst snd timers set_attempts].
  repeat split; try reflexivity.
  cbn [totalTimeoutExceededError message set_code newGoogleError].
  rewrite errorToString_parsed, !append_assoc. reflexivity.
Qed.

Lemma total_timeout_exceeded_witness :
  snd (step (call [14] (Some 10) None) (started (call [14] (Some 10) None))
         (OnRequestStream 0 (EvError unavailable 25 0)))
  = [RequestStreamDestroy 0;
     RetryStreamDestroy (totalTimeoutExceededError 10 unavailable)]
  /\ code (totalTimeoutExceededError 10 unavailable) = Some 4
  /\ message (totalTimeoutExceededError 10 unavailable)
     = "Total timeout of API exceeded 10 milliseconds retrying error Error: UNAVAILABLE  before any response was received."
  /\ timers (fst (step (call [14] (Some 10) None) (started (call [14] (Some 10) None))
                    (OnRequestStream 0 (EvError unavailable 25 0)))) = 0%nat.
Proof.
  apply (total_timeout_exceeded (call [14] (Some 10) None)
           (started (call [14] (Some 10) None)) 0%nat freshAttempt unavailable
           25 0 10);
    [reflexivity|reflexivity|lia|reflexivity|reflexivity|simpl; lia|simpl; lia].
Defined.

(** X4. Whatever the settings, the ['error'] handler does one of two things:
    it schedules one retry and destroys nothing, or it destroys the request
    stream and the consumer stream (with an error) and schedules nothing.
    It never ends the consumer stream and never calls the API itself. *)
Theorem error_handler_retries_or_destroys c s i a e now rnd :
  attempts s !! i = Some a ->
  (exists toSleep,
     snd (step c s (OnRequestStream i (EvError e now rnd))) = [SetTimeout toSleep]
     /\ timers (fst (step c s (OnRequestStream i (EvError e now rnd))))
        = S (timers s))
  \/ (exists err,
        snd (step c s (OnRequestStream i (EvError e now rnd)))
        = [RequestStreamDestroy i; RetryStreamDestroy err]
        /\ timers (fst (step c s (OnRequestStream i (EvError e now rnd))))
           = timers s).
Proof.
  intros Hi. rewrite (step_error _ _ _ _ _ _ _ Hi).
  unfold onError, transientErrorHelper.
  repeat match goal with
         | |- context [if ?b then _ else _] => destruct b
         | |- context [match ?o with Some _ => _ | None => _ end] => destruct o
         end;
    cbn [fst snd timers set_attempts];
    first [left; eexists; split; reflexivity
          |right; eexists; split; reflexivity].
Qed.

Lemma error_handler_retries_or_destroys_witness :
  (exists toSleep,
     snd (step (call [14] None (Some 1)) (started (call [14] None (Some 1)))
            (OnRequestStream 0 (EvError unavailable 0 0))) = [SetTimeout toSleep]
     /\ timers (fst (step (call [14] None (Some 1))
                       (started (call [14] None (Some 1)))
                       (OnRequestStream 0 (EvError unavailable 0 0))))
        = S (timers (started (call [14] None (Some 1)))))
  \/ (exists err,
        snd (step (call [14] None (Some 1)) (started (call [14] None (Some 1)))
               (OnRequestStream 0 (EvError unavailable 0 0)))
        = [RequestStreamDestroy 0; RetryStreamDestroy err]
        /\ timers (fst (step (call [14] None (Some 1))
                          (started (call [14] None (Some 1)))
                          (OnRequestStream 0 (EvError unavailable 0 0))))
           = timers (started (call [14] None (Some 1)))).
Proof.
  apply (error_handler_retries_or_destroys (call [14] None (Some 1))
           (started (call [14] None (Some 1))) 0%nat freshAttempt unavailable 0 0).
  reflexivity.
Defined.

(** *** Counting over a run *)

Lemma apiCalls_app out1 out2 :
  apiCalls (out1 ++ out2) = (apiCalls out1 + apiCalls out2)%nat.
Proof. unfold apiCalls. now rewrite List.filter_app, length_app. Qed.

Lemma timeoutsSet_app out1 out2 :
  timeoutsSet (out1 ++ out2) = (timeoutsSet out1 + timeoutsSet out2)%nat.
Proof. unfold timeoutsSet. now rewrite List.filter_app, length_app. Qed.

(** What one event does to the balance of timers, API calls and request
    streams. *)
Lemma step_balance c s ev :
  (apiCalls (snd (step c s ev)) + timers (fst (step c s ev))
   <= timers s + timeoutsSet (snd (step c s ev)))%nat
  /\ (isCancelCalled c = false ->
      (apiCalls (snd (step c s ev)) + timers (fst (step c s ev))
       = timers s + timeoutsSet (snd (step c s ev)))%nat)
  /\ length (attempts (fst (step c s ev)))
     = (length (attempts s) + apiCalls (snd (step c s ev)))%nat.
Proof.
  destruct ev as [i sev|now]; cbn [step].
  - destruct (attempts s !! i) as [a|]; [|cbn; lia].
    destruct sev as [m|r|status|d| |e now rnd].
    + cbn. lia.
    + cbn. lia.
    + unfold onStatus. cbn [fst snd set_attempts attempts timers].
      rewrite length_alter.
      destruct (responseHasSent s), (dataEnd a); cbn; lia.
    + cbn. lia.
    + unfold onEnd.
      destruct (enteredError a); cbn [negb fst snd set_attempts attempts timers];
        rewrite ?length_alter; destruct (statusReceived a); cbn; lia.
    + rewrite onError_attempts_length.
      unfold onError, transientErrorHelper.
      repeat match goal with
             | |- context [if ?b then _ else _] => destruct b
             | |- context [match ?o with Some _ => _ | None => _ end] => destruct o
             end;
        cbn [fst snd timers set_attempts]; cbn; lia.
  - unfold onTimer, newMakeRequest.
    destruct (timers s) as [|k] eqn:Htimers; [cbn; lia|].
    destruct (isCancelCalled c); cbn [fst snd timers attempts set_attempts].
    + cbn. split; [lia|]. split; [discriminate|lia].
    + rewrite length_app. cbn. lia.
Qed.

Lemma run_balance c evs :
  forall s,
    (apiCalls (snd (run c s evs)) + timers (fst (run c s evs))
     <= timers s + timeoutsSet (snd (run c s evs)))%nat
    /\ (isCancelCalled c = false ->
        (apiCalls (snd (run c s evs)) + timers (fst (run c s evs))
         = timers s + timeoutsSet (snd (run c s evs)))%nat)
    /\ length (attempts (fst (run c s evs)))
       = (length (attempts s) + apiCalls (snd (run c s evs)))%nat.
Proof.
  induction evs as [|ev evs IH]; intros s; [cbn; lia|].
  cbn [run]. pose proof (step_balance c s ev) as (H1 & H2 & H3).
  destruct (step c s ev) as [s1 out1]. cbn [fst snd] in *.
  pose proof (IH s1) as (K1 & K2 & K3).
  destruct (run c s1 evs) as [s2 out2]. cbn [fst snd] in *.
  rewrite apiCalls_app, timeoutsSet_app.
  split; [lia|]. split; [|lia].
  intros Hc. specialize (H2 Hc). specialize (K2 Hc). lia.
Qed.

(** X5. Over any run of a call, attempts are only started by the call itself
    and by the timers that error handlers set: the API calls made plus the
    timers still pending never exceed one plus the timers set, with equality
    unless cancel was requested before [setStream]; and there is one request
    stream per API call. *)
Theorem attempts_come_from_timers c evs :
  (apiCalls (snd (runCall c evs)) + timers (fst (runCall c evs))
   <= 1 + timeoutsSet (snd (runCall c evs)))%nat
  /\ (isCancelCalled c = false ->
      (apiCalls (snd (runCall c evs)) + timers (fst (runCall c evs))
       = 1 + timeoutsSet (snd (runCall c evs)))%nat)
  /\ length (attempts (fst (runCall c evs))) = apiCalls (snd (runCall c evs)).
Proof.
  unfold runCall, newStreamingRetryRequest, newMakeRequest.
  destruct (isCancelCalled c) eqn:Hc.
  - match goal with |- context [run c ?s0 evs] =>
      pose proof (run_balance c evs s0) as (H1 & _ & H3);
      destruct (run c s0 evs) as [s1 out1] end.
    cbn [fst snd timers attempts app] in *.
    unfold apiCalls, timeoutsSet in *. cbn in *.
    split; [lia|]. split; [discriminate|lia].
  - match goal with |- context [run c ?s0 evs] =>
      pose proof (run_balance c evs s0) as (H1 & H2 & H3);
      destruct (run c s0 evs) as [s1 out1] end.
    cbn [fst snd timers attempts set_attempts app] in *.
    specialize (H2 Hc).
    unfold apiCalls, timeoutsSet in *. cbn in *. lia.
Qed.

(** *** The argument of the attempts *)

Lemma apiArguments_app out1 out2 :
  apiArguments (out1 ++ out2) = apiArguments out1 ++ apiArguments out2.
Proof. unfold apiArguments. apply omap_app. Qed.

Lemma step_apiArguments c s ev :
  Forall (fun arg => arg = retryArgument c) (apiArguments (snd (step c s ev))).
Proof.
  destruct ev as [i sev|now]; cbn [step].
  - destruct (attempts s !! i) as [a|]; [|constructor].
    destruct sev as [m|r|status|d| |e now rnd]; try (cbn; constructor).
    + unfold onStatus. cbn [snd].
      destruct (responseHasSent s), (dataEnd a); cbn; constructor.
    + unfold onEnd. destruct (enteredError a); cbn [negb snd]; [constructor|].
      destruct (statusReceived a); cbn; constructor.
    + unfold onError, transientErrorHelper.
      repeat match goal with
             | |- context [if ?b then _ else _] => destruct b
             | |- context [match ?o with Some _ => _ | None => _ end] => destruct o
             end; cbn; constructor.
  - unfold onTimer, newMakeRequest, retryArgument.
    destruct (timers s); [constructor|].
    destruct (isCancelCalled c); cbn [snd]; [cbn; constructor|].
    cbn. constructor; [reflexivity|constructor].
Qed.

Lemma run_apiArguments c evs :
  forall s,
    Forall (fun arg => arg = retryArgument c) (apiArguments (snd (run c s evs))).
Proof.
  induction evs as [|ev evs IH]; intros s; [constructor|].
  cbn [run]. pose proof (step_apiArguments c s ev) as H.
  destruct (step c s ev) as [s1 out1]. specialize (IH s1).
  destruct (run c s1 evs) as [s2 out2]. cbn [snd] in *.
  rewrite apiArguments_app. apply Forall_app. now split.
Qed.

(** X6. The first attempt of a call is made with the call's argument, and
    every later attempt with the resumption function applied to that same
    original argument (or with the argument itself when there is no
    resumption function): resumption never builds on the request of the
    previous retry. *)
Theorem retries_resume_from_original_argument c evs :
  isCancelCalled c = false ->
  exists n,
    apiArguments (snd (runCall c evs))
    = argument c :: repeat (retryArgument c) n.
Proof.
  intros Hc. unfold runCall, newStreamingRetryRequest, newMakeRequest.
  rewrite Hc.
  match goal with |- context [run c ?s0 evs] =>
    pose proof (run_apiArguments c evs s0) as H;
    destruct (run c s0 evs) as [s1 out1] end.
  cbn [fst snd] in *. rewrite apiArguments_app.
  exists (length (apiArguments out1)). cbn [apiArguments omap app].
  change (omap _ out1) with (apiArguments out1).
  f_equal. induction H as [|x l -> _ IH]; [reflexivity|].
  cbn. now f_equal.
Qed.

Lemma retries_resume_from_original_argument_witness :
  exists n,
    apiArguments
      (snd (runCall
              {| retry := {| retryCodes := [14];
                             backoffSettings := backoff None (Some 2);
                             shouldRetryFn := None;
                             getResumptionRequestFn :=
                               Some (fun _ => VObj [("arg", VNum 2)]) |};
                 argument := VObj [("arg", VNum 0)];
                 isCancelCalled := false; startTime := 0 |}
              (failedAttempts unavailable 0 0 0 2)))
    = VObj [("arg", VNum 0)] :: repeat (VObj [("arg", VNum 2)]) n.
Proof.
  apply (retries_resume_from_original_argument
           {| retry := {| retryCodes := [14];
                          backoffSettings := backoff None (Some 2);
                          shouldRetryFn := None;
                          getResumptionRequestFn :=
                            Some (fun _ => VObj [("arg", VNum 2)]) |};
              argument := VObj [("arg", VNum 0)];
              isCancelCalled := false; startTime := 0 |}
           (failedAttempts unavailable 0 0 0 2)).
  reflexivity.
Defined.

(** *** Using up [maxRetries] *)

(** While the counter is below [maxRetries] a retryable error is answered
    with a retry. *)
Lemma onError_within_budget c i e now rnd s m :
  maxRetries (backoffSettings (retry c)) = Some m ->
  truthyZ (totalTimeout c) = false ->
  shouldRetryRequest e (retry c) = true ->
  0 <= retries s < m ->
  exists s',
    onError c i e now rnd s
    = (s', [SetTimeout (rnd * inject_Z (initialRetryDelayMillis
                                          (backoffSettings (retry c))))%Q])
    /\ length (attempts s') = length (attempts s)
    /\ timers s' = S (timers s)
    /\ retries s' = retries s.
Proof.
  intros Hmax Htot Hretry Hlt.
  unfold onError. rewrite guard_always, Hretry, Hmax, Htot, andb_false_r.
  unfold throwIfMaxRetriesOrTotalTimeoutExceeded.
  rewrite Htot. cbn [andb retries set_attempts].
  destruct (Z.eqb_spec m 0) as [|_]; [lia|].
  destruct (Z.leb_spec m (retries s)) as [|_]; [lia|].
  rewrite andb_false_r.
  eexists. split; [reflexivity|].
  cbn [attempts timers retries set_attempts]. rewrite length_alter.
  now repeat split.
Qed.

Lemma onTimer_retries c now s k :
  isCancelCalled c = false ->
  timers s = S k ->
  exists s',
    onTimer c now s = (s', [ApiCall (retryArgument c)])
    /\ attempts s' = attempts s ++ [freshAttempt]
    /\ timers s' = k
    /\ retries s' = retries s + 1.
Proof.
  intros Hcancel Htimers. unfold onTimer. rewrite Htimers.
  unfold newMakeRequest. rewrite Hcancel.
  eexists. split; [reflexivity|]. now repeat split.
Qed.

Lemma run_failingRounds c m rounds :
  maxRetries (backoffSettings (retry c)) = Some m ->
  truthyZ (totalTimeout c) = false ->
  isCancelCalled c = false ->
  Forall (fun round => shouldRetryRequest (roundError round) (retry c) = true)
    rounds ->
  forall k s,
    length (attempts s) = S k -> timers s = 0%nat ->
    0 <= retries s -> retries s + Z.of_nat (length rounds) <= m ->
    exists s',
      run c s (failingRounds k rounds) = (s', retriesMade c rounds)
      /\ length (attempts s') = S (k + length rounds)
      /\ timers s' = 0%nat
      /\ retries s' = retries s + Z.of_nat (length rounds).
Proof.
  intros Hmax Htot Hcancel Hretry.
  induction Hretry as [|[[[e now] rnd] now'] rounds He _ IH];
    intros k s Hlen Htimers Hpos Hbudget.
  - exists s. cbn [failingRounds run retriesMade length].
    repeat split; [lia|exact Htimers|lia].
  - cbn [length] in Hbudget. cbn [roundError fst] in He.
    destruct (lookup_lt_is_Some_2 (attempts s) k ltac:(lia)) as [a Ha].
    cbn [failingRounds retriesMade]. rewrite run_app.
    assert (Hround : exists s1,
      run c s [OnRequestStream k (EvError e now rnd); TimerFired now']
      = (s1, [SetTimeout (rnd * inject_Z (initialRetryDelayMillis
                                            (backoffSettings (retry c))))%Q;
              ApiCall (retryArgument c)])
      /\ length (attempts s1) = S (S k) /\ timers s1 = 0%nat
      /\ retries s1 = retries s + 1).
    { cbn [run]. rewrite (step_error c s k a e now rnd Ha).
      destruct (onError_within_budget c k e now rnd s m Hmax Htot He
                  ltac:(lia)) as (s1 & -> & Hlen1 & Htimers1 & Hret1).
      cbn [step].
      destruct (onTimer_retries c now' s1 0 Hcancel ltac:(lia))
        as (s2 & -> & Hatt2 & Htimers2 & Hret2).
      exists s2. split; [reflexivity|].
      rewrite Hatt2, length_app, Hlen1, Hlen. cbn [length].
      repeat split; lia. }
    destruct Hround as (s1 & -> & Hlen1 & Htimers1 & Hret1). cbn [fst snd].
    destruct (IH (S k) s1 Hlen1 Htimers1 ltac:(lia) ltac:(lia))
      as (s2 & -> & Hlen2 & Htimers2 & Hret2).
    exists s2. cbn [fst snd length]. repeat split; [lia|exact Htimers2|lia].
Qed.

(** X7. With [maxRetries = m], at least 1, as the only budget and no message
    in between, exactly [m] retries are made: the first [m] errors, each
    retryable and each read at its own clock and random number, are answered
    with a retry, and the error of attempt [m + 1], whichever retryable
    error that is, destroys the consumer stream with the
    [DEADLINE_EXCEEDED] error that quotes it (and none of the earlier
    ones). *)
Theorem retries_stop_at_max_retries c rounds e now rnd :
  maxRetries (backoffSettings (retry c)) = Some (Z.of_nat (length rounds)) ->
  (1 <= length rounds)%nat ->
  truthyZ (totalTimeout c) = false ->
  isCancelCalled c = false ->
  Forall (fun round => shouldRetryRequest (roundError round) (retry c) = true)
    rounds ->
  shouldRetryRequest e (retry c) = true ->
  snd (runCall c (failingRounds 0 rounds
                  ++ [OnRequestStream (length rounds) (EvError e now rnd)]))
  = [ApiCall (argument c)]
    ++ retriesMade c rounds
    ++ [RequestStreamDestroy (length rounds);
        RetryStreamDestroy (maxRetriesExceededError (parseGRPCStatusDetails e))].
Proof.
  intros Hmax Hm Htot Hcancel Hrounds Hretry.
  unfold runCall, newStreamingRetryRequest, newMakeRequest. rewrite Hcancel.
  match goal with |- context [run c ?s0 _] => set (s0' := s0) end.
  rewrite run_app.
  destruct (run_failingRounds c (Z.of_nat (length rounds)) rounds Hmax Htot
              Hcancel Hrounds 0%nat s0' eq_refl eq_refl ltac:(cbn; lia)
              ltac:(cbn; lia))
    as (s1 & -> & Hlen1 & Htimers1 & Hret1).
  cbn [fst snd].
  destruct (lookup_lt_is_Some_2 (attempts s1) (length rounds) ltac:(lia))
    as [a Ha].
  cbn [run]. rewrite (step_error c s1 _ a e now rnd Ha).
  unfold onError. rewrite guard_always, Hretry, Hmax, Htot, andb_false_r.
  unfold throwIfMaxRetriesOrTotalTimeoutExceeded.
  rewrite Htot. cbn [andb retries set_attempts]. rewrite Hret1.
  destruct (Z.eqb_spec (Z.of_nat (length rounds)) 0) as [|_]; [lia|].
  match goal with
  | |- context [negb (?x =? 0) && (?y <=? ?x)] =>
      replace (negb (x =? 0) && (y <=? x)) with true
        by (symmetry; apply andb_true_iff; split;
            [apply negb_true_iff, Z.eqb_neq|apply Z.leb_le];
            subst s0'; cbn; lia)
  end.
  cbn [snd app]. rewrite ?app_nil_r. reflexivity.
Qed.

Lemma retries_stop_at_max_retries_witness :
  snd (runCall (call [14; 4] None (Some 2))
         (failingRounds 0 twoFailures
          ++ [OnRequestStream 2 (EvError downAgain 110 0)]))
  = [ApiCall (VObj [])]
    ++ retriesMade (call [14; 4] None (Some 2)) twoFailures
    ++ [RequestStreamDestroy 2;
        RetryStreamDestroy (maxRetriesExceededError downAgain)].
Proof.
  apply (retries_stop_at_max_retries (call [14; 4] None (Some 2)) twoFailures
           downAgain 110 0);
    [reflexivity|cbn; lia|reflexivity|reflexivity| |reflexivity].
  constructor; [reflexivity|constructor; [reflexivity|constructor]].
Defined.

(** *** After an error *)

(** X8. Once a request stream has emitted ['error'], its ['end'] is ignored
    for the rest of the call, whatever happens in between: no later ['end']
    of that stream ends the consumer stream or changes anything. *)
Theorem end_after_error_is_ignored c evs1 i a e now rnd evs2 :
  attempts (fst (runCall c evs1)) !! i = Some a ->
  step c (fst (runCall c (evs1 ++ [OnRequestStream i (EvError e now rnd)] ++ evs2)))
    (OnRequestStream i EvEnd)
  = (fst (runCall c (evs1 ++ [OnRequestStream i (EvError e now rnd)] ++ evs2)), []).
Proof.
  intros Ha.
  assert (Hrun : exists a',
    attempts (fst (runCall c (evs1 ++ [OnRequestStream i (EvError e now rnd)] ++ evs2)))
      !! i = Some a' /\ enteredError a' = true).
  { unfold runCall in *.
    destruct (newStreamingRetryRequest c) as [s0 out0].
    rewrite app_assoc, !run_app. cbn [fst snd].
    destruct (run c s0 evs1) as [s1 out1]. cbn [fst snd] in *.
    destruct (run c (fst (run c s1 [OnRequestStream i (EvError e now rnd)])) evs2)
      as [s3 out3] eqn:Hrest.
    cbn [fst].
    replace s3 with (fst (run c (fst (run c s1 [OnRequestStream i (EvError e now rnd)])) evs2))
      by now rewrite Hrest.
    apply ForwardFacts.run_keeps_enteredError.
    cbn [run]. rewrite (step_error c s1 i a e now rnd Ha).
    destruct (onError c i e now rnd s1) as [s2 out2] eqn:Herr. cbn [fst].
    replace s2 with (fst (onError c i e now rnd s1)) by now rewrite Herr.
    rewrite ForwardFacts.onError_attempts, list_lookup_alter_eq, Ha. cbn. eauto. }
  destruct Hrun as (a' & Ha' & Herr).
  cbn [step]. rewrite Ha'. unfold onEnd. now rewrite Herr.
Qed.

Lemma end_after_error_is_ignored_witness :
  step (call [14] None (Some 2))
    (fst (runCall (call [14] None (Some 2))
            ([] ++ [OnRequestStream 0 (EvError unavailable 0 0)]
             ++ [TimerFired 0; OnRequestStream 0 (EvStatus VNull)])))
    (OnRequestStream 0 EvEnd)
  = (fst (runCall (call [14] None (Some 2))
            ([] ++ [OnRequestStream 0 (EvError unavailable 0 0)]
             ++ [TimerFired 0; OnRequestStream 0 (EvStatus VNull)])), []).
Proof.
  apply (end_after_error_is_ignored (call [14] None (Some 2)) [] 0%nat
           freshAttempt unavailable 0 0
           [TimerFired 0; OnRequestStream 0 (EvStatus VNull)]).
  reflexivity.
Defined.

(** *** The timer and the per-attempt timeout *)

(** X9. When the timer of a retry finds a non-zero per-attempt timeout, the
    timeout it computes exceeds neither [maxRpcTimeoutMillis] (0 when that
    is unset) nor the time left to the deadline (0 when there is no total
    timeout). *)
Theorem timer_caps_timeout c now s k t :
  timers s = S k ->
  timeout s = Some t ->
  ~ (t == 0)%Q ->
  exists t',
    timeout (fst (step c s (TimerFired now))) = Some t'
    /\ (t' <= rpcTimeoutBound c)%Q
    /\ (t' <= deadlineBound c now)%Q.
Proof.
  intros Htimers Ht Hnz. cbn [step]. unfold onTimer. rewrite Htimers, Ht.
  assert (Htruthy : truthyQ (Some t) = true).
  { cbn. destruct (Qeq_bool t 0) eqn:Heq; [|reflexivity].
    apply Qeq_bool_iff in Heq. contradiction. }
  rewrite Htruthy. unfold newMakeRequest.
  eexists. split.
  - destruct (isCancelCalled c); cbn [fst timeout set_attempts]; reflexivity.
  - fold (rpcTimeoutBound c). fold (deadlineBound c now). split.
    + eapply Qle_trans; [apply Q.le_min_l|apply Q.le_min_r].
    + apply Q.le_min_r.
Qed.

Lemma timer_caps_timeout_witness :
  exists t',
    timeout (fst (step timedCall retryPending (TimerFired 1000))) = Some t'
    /\ (t' <= rpcTimeoutBound timedCall)%Q
    /\ (t' <= deadlineBound timedCall 1000)%Q.
Proof.
  apply (timer_caps_timeout timedCall 1000 retryPending 0 (inject_Z 2000));
    [reflexivity|reflexivity|].
  intros H. vm_compute in H. discriminate.
Defined.

(** *** Cancel before [setStream] *)

(** X10. When [cancel()] was called before [setStream], the retry machinery
    never reaches the API: the request function returns nothing, reading
    [cancel] of it throws, and no later event finds a handler. *)
Theorem cancelled_call_makes_no_request c evs :
  isCancelCalled c = true ->
  snd (runCall c evs) = [ThrowTypeError]
  /\ attempts (fst (runCall c evs)) = [].
Proof.
  intros Hc. unfold runCall, newStreamingRetryRequest, newMakeRequest.
  rewrite Hc.
  match goal with |- context [run c ?s0 evs] => set (s0' := s0) end.
  assert (H : run c s0' evs = (s0', [])).
  { induction evs as [|ev evs IH]; [reflexivity|].
    cbn [run]. assert (Hstep : step c s0' ev = (s0', [])).
    { destruct ev as [i sev|now]; [|reflexivity].
      unfold step, s0'. cbn [attempts]. now rewrite lookup_nil. }
    now rewrite Hstep, IH. }
  rewrite H. now split.
Qed.

Lemma cancelled_call_makes_no_request_witness :
  snd (runCall {| retry := retry (call [14] None (Some 2));
                  argument := VObj []; isCancelCalled := true; startTime := 0 |}
         [OnRequestStream 0 (EvData (VStr "Hello")); TimerFired 0])
  = [ThrowTypeError]
  /\ attempts (fst (runCall {| retry := retry (call [14] None (Some 2));
                               argument := VObj []; isCancelCalled := true;
                               startTime := 0 |}
                      [OnRequestStream 0 (EvData (VStr "Hello")); TimerFired 0]))
     = [].
Proof.
  apply (cancelled_call_makes_no_request
           {| retry := retry (call [14] None (Some 2));
              argument := VObj []; isCancelCalled := true; startTime := 0 |}
           [OnRequestStream 0 (EvData (VStr "Hello")); TimerFired 0]).
  reflexivity.
Defined.

End RetryMoreFacts.

(** ** More on the legacy wrapper *)

Module LegacyMoreFacts.
Import StreamingRetryRequest LegacyFacts.

Lemma requestsMade_app out1 out2 :
  requestsMade (out1 ++ out2) = (requestsMade out1 + requestsMade out2)%nat.
Proof. unfold requestsMade. now rewrite List.filter_app, length_app. Qed.

Lemma emissions_app out1 out2 :
  emissions (out1 ++ out2) = (emissions out1 + emissions out2)%nat.
Proof. unfold emissions. now rewrite List.filter_app, length_app. Qed.

Lemma destroys_count later :
  Forall (fun a => a = RetryStreamDestroy) later ->
  requestsMade later = 0%nat /\ emissions later = 0%nat.
Proof.
  induction 1 as [|a later -> _ [IH1 IH2]]; [now split|].
  unfold requestsMade, emissions in *. cbn. now split.
Qed.

Lemma later_destroys i l :
  Forall (fun a => a = RetryStreamDestroy)
    (map (fun _ : nat => RetryStreamDestroy) (List.filter (Nat.eqb i) l)).
Proof. induction (List.filter (Nat.eqb i) l); constructor; auto. Qed.

Lemma step_within_budget opts s ev :
  within_budget opts s ->
  within_budget opts (fst (step opts s ev))
  /\ requestStreams (fst (step opts s ev))
     = (requestStreams s + requestsMade (snd (step opts s ev)))%nat.
Proof.
  intros (Hpos & Hnum & Hmax).
  destruct ev as [i [err|resp]]; cbn [step]; case_bool_decide as Hi;
    try (split; [now repeat split|cbn; lia]);
    destruct (streamResponseHandled s) eqn:Hflag.
  - cbn [fst snd]. split; [now repeat split|].
    destruct (destroys_count _ (later_destroys i (destroyOnError s))) as [-> _].
    lia.
  - unfold onResponse_err, makeRequest. cbn [numNoResponseAttempts set_handled].
    destruct (destroys_count _ (later_destroys i (destroyOnError s))) as [Hreq _].
    destruct (Z.leb_spec (numNoResponseAttempts s + 1) (maxRetries opts));
      cbn [fst snd]; rewrite requestsMade_app, Hreq;
      (split; [unfold within_budget;
               cbn [numNoResponseAttempts requestStreams set_handled]; lia
              |cbn; lia]).
  - split; [now repeat split|cbn; lia].
  - unfold onResponse_ok. cbn [fst snd].
    split; [unfold within_budget;
            cbn [numNoResponseAttempts requestStreams set_handled]; lia
           |cbn; lia].
Qed.

Lemma run_within_budget opts evs :
  forall s,
    within_budget opts s ->
    within_budget opts (fst (run opts s evs))
    /\ requestStreams (fst (run opts s evs))
       = (requestStreams s + requestsMade (snd (run opts s evs)))%nat.
Proof.
  induction evs as [|ev evs IH]; intros s Hinv; [split; [exact Hinv|cbn; lia]|].
  cbn [run]. destruct (step_within_budget opts s ev Hinv) as [Hinv1 Hreq1].
  destruct (step opts s ev) as [s1 out1]. cbn [fst snd] in *.
  destruct (IH s1 Hinv1) as [Hinv2 Hreq2].
  destruct (run opts s1 evs) as [s2 out2]. cbn [fst snd] in *.
  split; [exact Hinv2|]. rewrite requestsMade_app. lia.
Qed.

(** X11. Whatever the request streams emit, the wrapper makes at most
    [maxRetries + 1] requests (one when [maxRetries] is negative), the first
    one included. *)
Theorem requests_bounded_by_maxRetries opts evs :
  Z.of_nat (requestsMade (snd (runWrapper opts evs)))
  <= 1 + Z.max 0 (maxRetries opts).
Proof.
  unfold runWrapper, streamingRetryRequest, makeRequest.
  match goal with |- context [run opts ?s0 evs] =>
    destruct (run_within_budget opts evs s0) as [(_ & _ & Hmax) Hreq] end.
  { unfold within_budget. cbn. lia. }
  destruct (run opts _ evs) as [s1 out1]. cbn [fst snd requestStreams] in *.
  rewrite requestsMade_app. change (requestsMade [Request]) with 1%nat. lia.
Qed.

(** X12. The consumer is given at most one ['response'] or ['error'] by the
    wrapper, never both and never two of a kind, whatever the request
    streams emit. *)
Theorem at_most_one_emission opts evs :
  (emissions (snd (runWrapper opts evs)) <= 1)%nat.
Proof.
  assert (Hstep : forall s ev,
    (emissions (snd (step opts s ev)) <= 1)%nat
    /\ (emissions (snd (step opts s ev)) = 1%nat ->
        streamResponseHandled (fst (step opts s ev)) = true)).
  { intros s [i [err|resp]]; cbn [step]; case_bool_decide as Hi;
      try (cbn; split; [lia|discriminate]);
      destruct (streamResponseHandled s) eqn:Hflag.
    - cbn [fst snd].
      destruct (destroys_count _ (later_destroys i (destroyOnError s))) as [_ ->].
      split; [lia|discriminate].
    - unfold onResponse_err, makeRequest.
      destruct (destroys_count _ (later_destroys i (destroyOnError s))) as [_ Hem].
      destruct (_ <=? _); cbn [fst snd]; rewrite emissions_app, Hem; cbn.
      + split; [lia|discriminate].
      + split; [lia|reflexivity].
    - cbn. split; [lia|discriminate].
    - cbn. split; [lia|reflexivity]. }
  assert (Hrun : forall evs' s, (emissions (snd (run opts s evs')) <= 1)%nat).
  { induction evs' as [|ev evs' IH]; intros s; [cbn; lia|].
    cbn [run]. destruct (Hstep s ev) as [Hle Hone].
    destruct (step opts s ev) as [s1 out1]. cbn [fst snd] in *.
    destruct (Nat.eq_dec (emissions out1) 1%nat) as [H1|H0].
    - destruct (run_handled opts evs' s1 (Hone H1)) as [_ Hrest].
      destruct (destroys_count _ Hrest) as [_ Hem].
      destruct (run opts s1 evs') as [s2 out2]. cbn [snd] in *.
      rewrite emissions_app, Hem. lia.
    - specialize (IH s1). destruct (run opts s1 evs') as [s2 out2].
      cbn [snd] in *. rewrite emissions_app. lia. }
  unfold runWrapper, streamingRetryRequest, makeRequest.
  match goal with |- context [run opts ?s0 evs] =>
    specialize (Hrun evs s0); destruct (run opts s0 evs) as [s1 out1] end.
  cbn [snd] in *. rewrite emissions_app. cbn. exact Hrun.
Qed.

Lemma run_failures opts m errs :
  maxRetries opts = Z.of_nat m ->
  forall k s,
    requestStreams s = S k ->
    streamResponseHandled s = false ->
    destroyOnError s = [] ->
    numNoResponseAttempts s = Z.of_nat k ->
    (k + length errs <= m)%nat ->
    exists s',
      run opts s (failures k errs) = (s', repeat Request (length errs))
      /\ requestStreams s' = S (k + length errs)
      /\ streamResponseHandled s' = false
      /\ destroyOnError s' = []
      /\ numNoResponseAttempts s' = Z.of_nat (k + length errs).
Proof.
  intros Hmax. induction errs as [|err errs IH];
    intros k s Hstreams Hflag Hnone Hnum Hle; cbn [length] in *.
  - exists s. cbn. repeat split; try assumption; [lia|]. rewrite Hnum. lia.
  - cbn [failures run step].
    rewrite bool_decide_eq_true_2 by lia. rewrite Hflag, Hnone.
    unfold onResponse_err, makeRequest. cbn [numNoResponseAttempts set_handled].
    destruct (Z.leb_spec (numNoResponseAttempts s + 1) (maxRetries opts)); [|lia].
    cbn [List.filter map app].
    match goal with |- context [run opts ?s1 _] =>
      assert (Hnext : exists s',
        run opts s1 (failures (S k) errs) = (s', repeat Request (length errs))
        /\ requestStreams s' = S (S k + length errs)
        /\ streamResponseHandled s' = false
        /\ destroyOnError s' = []
        /\ numNoResponseAttempts s' = Z.of_nat (S k + length errs))
    end.
    { apply IH;
        cbn [requestStreams streamResponseHandled destroyOnError
             numNoResponseAttempts set_handled];
        [now rewrite Hstreams|reflexivity|exact Hnone|lia|lia]. }
    destruct Hnext as (s' & -> & H1 & H2 & H3 & H4).
    exists s'. cbn [repeat app]. repeat split; try assumption; [lia|].
    rewrite H4. lia.
Qed.

Lemma wrapper_run_app opts s evs1 evs2 :
  run opts s (evs1 ++ evs2)
  = (fst (run opts (fst (run opts s evs1)) evs2),
     snd (run opts s evs1) ++ snd (run opts (fst (run opts s evs1)) evs2)).
Proof.
  revert s; induction evs1 as [|ev evs1 IH]; intros s; cbn [app run fst snd].
  - now destruct (run opts s evs2).
  - destruct (step opts s ev) as [s1 out1]. rewrite IH.
    destruct (run opts s1 evs1) as [s2 out2]; cbn [fst snd].
    now rewrite app_assoc.
Qed.

Lemma failures_app k errs1 errs2 :
  failures k (errs1 ++ errs2)
  = failures k errs1 ++ failures (k + length errs1) errs2.
Proof.
  revert k; induction errs1 as [|err errs1 IH]; intros k; cbn [app failures length].
  - now rewrite Nat.add_0_r.
  - rewrite IH.
    now replace (k + S (length errs1))%nat with (S k + length errs1)%nat by lia.
Qed.

(** X13. When every request stream fails, each with an error of its own,
    the wrapper retries exactly [maxRetries] times and then gives the
    consumer the error of the last attempt, unchanged, and none of the
    earlier ones. *)
Theorem failures_exhaust_maxRetries opts errs last :
  maxRetries opts = Z.of_nat (length errs) ->
  snd (runWrapper opts (failures 0 (errs ++ [last])))
  = repeat Request (S (length errs)) ++ [RetryStreamEmitError last].
Proof.
  intros Hmax. unfold runWrapper, streamingRetryRequest, makeRequest.
  rewrite failures_app, wrapper_run_app. cbn [failures Nat.add].
  match goal with |- context [run opts ?s0 (failures 0 errs)] =>
    destruct (run_failures opts (length errs) errs Hmax 0%nat s0 eq_refl eq_refl
                eq_refl eq_refl ltac:(lia)) as (s1 & -> & H1 & H2 & H3 & H4)
  end.
  cbn [fst snd run step]. rewrite bool_decide_eq_true_2 by lia.
  rewrite H2, H3. unfold onResponse_err. cbn [numNoResponseAttempts set_handled].
  destruct (Z.leb_spec (numNoResponseAttempts s1 + 1) (maxRetries opts)); [lia|].
  cbn [fst snd List.filter map app repeat]. now rewrite ?app_nil_r.
Qed.

Lemma failures_exhaust_maxRetries_witness :
  snd (runWrapper {| opt_maxRetries := None |}
         (failures 0 ([newGoogleError "first"; newGoogleError "second"]
                      ++ [newGoogleError "third"])))
  = repeat Request 3 ++ [RetryStreamEmitError (newGoogleError "third")].
Proof.
  apply (failures_exhaust_maxRetries {| opt_maxRetries := None |}
           [newGoogleError "first"; newGoogleError "second"]
           (newGoogleError "third")).
  reflexivity.
Defined.

End LegacyMoreFacts.

(** ** More on the iterator of [asyncIterate] *)

Module IteratorMoreFacts.
Import PageDescriptor.

Lemma fetchLoop_nonempty_cache apiCall options fuel attempts st :
  cache st <> [] ->
  snd (fetchLoop apiCall options fuel attempts st) = st.
Proof.
  intros H. destruct fuel; cbn [fetchLoop]; [reflexivity|].
  now destruct (cache st).
Qed.

Lemma fetchLoop_calls apiCall options fuel :
  forall attempts st,
    cache st = [] ->
    0 <= attempts <= maxAttemptsEmptyResponse ->
    (calls st <= calls (snd (fetchLoop apiCall options fuel attempts st))
     <= calls st + Z.to_nat (11 - attempts))%nat.
Proof.
  unfold maxAttemptsEmptyResponse.
  induction fuel as [|fuel IH]; intros attempts st Hcache Hatt; [cbn; lia|].
  cbn [fetchLoop]. rewrite Hcache.
  destruct (nextPageRequest st) as [req|]; [|cbn; lia].
  destruct (apiCall (calls st) req options) as [result next].
  assert (Hstep : forall cache',
    let r := match cache' with
             | [] =>
                 if maxAttemptsEmptyResponse <? attempts + 1
                 then (LoopLeft, {| nextPageRequest := next; cache := cache';
                                    calls := S (calls st) |})
                 else fetchLoop apiCall options fuel (attempts + 1)
                        {| nextPageRequest := next; cache := cache';
                           calls := S (calls st) |}
             | _ :: _ =>
                 fetchLoop apiCall options fuel attempts
                   {| nextPageRequest := next; cache := cache';
                      calls := S (calls st) |}
             end in
    (calls st <= calls (snd r) <= calls st + Z.to_nat (11 - attempts))%nat).
  { intros [|v rest]; cbn zeta.
    - unfold maxAttemptsEmptyResponse.
      destruct (Z.ltb_spec 10 (attempts + 1)); [cbn; lia|].
      specialize (IH (attempts + 1)
                    {| nextPageRequest := next; cache := [];
                       calls := S (calls st) |} eq_refl ltac:(lia)).
      cbn [calls] in IH. lia.
    - rewrite fetchLoop_nonempty_cache by discriminate. cbn. lia. }
  destruct result as [resources|entries|]; cbn [app];
    [apply Hstep|apply Hstep|cbn; lia].
Qed.

(** X14. One [next()] makes at most eleven API calls, whatever the service
    answers, and none at all while resources are cached. *)
Theorem next_makes_at_most_eleven_calls apiCall options st :
  (calls st <= calls (snd (next apiCall options st)) <= calls st + 11)%nat
  /\ (cache st <> [] -> calls (snd (next apiCall options st)) = calls st).
Proof.
  unfold next. destruct (cache st) as [|v rest] eqn:Hcache.
  - pose proof (fetchLoop_calls apiCall options nextFuel 0 st Hcache
                  ltac:(unfold maxAttemptsEmptyResponse; lia)) as H.
    split; [|congruence].
    destruct (fetchLoop apiCall options nextFuel 0 st) as [[| |] st']; cbn [snd] in *.
    + destruct (cache st'); cbn; lia.
    + cbn. lia.
    + cbn. lia.
  - cbn. split; [lia|reflexivity].
Qed.

Lemma drain_cached apiCall options items :
  forall st,
    cache st = items ->
    drain apiCall options (length items) st
    = (map Yield items,
       {| nextPageRequest := nextPageRequest st; cache := [];
          calls := calls st |}).
Proof.
  induction items as [|v items IH]; intros st Hcache.
  - cbn. destruct st as [n c k]. cbn in *. now subst.
  - cbn [length drain]. unfold next. rewrite Hcache.
    rewrite (IH {| nextPageRequest := nextPageRequest st; cache := items;
                   calls := calls st |} eq_refl).
    reflexivity.
Qed.

(** The first iteration of the loop when the cache is empty and the page
    has resources. *)
Lemma fetchLoop_page apiCall options fuel attempts st req result nxt v rest :
  cache st = [] ->
  nextPageRequest st = Some req ->
  apiCall (calls st) req options = (result, nxt) ->
  match result with
  | ResMap entries => Some (entryTuples entries)
  | ResArray resources => Some resources
  | ResNull => None
  end = Some (v :: rest) ->
  fetchLoop apiCall options (S (S fuel)) attempts st
  = (LoopLeft,
     {| nextPageRequest := nxt; cache := v :: rest; calls := S (calls st) |}).
Proof.
  intros Hcache Hreq Hcall Hitems.
  change (fetchLoop apiCall options (S (S fuel)) attempts st)
    with (match cache st, nextPageRequest st with
          | [], Some req =>
              let '(result, next) := apiCall (calls st) req options in
              let called := {| nextPageRequest := next; cache := cache st;
                               calls := S (calls st) |} in
              match
                match result with
                | ResMap entries =>
                    Some (cache st
                          ++ map (fun kv => VArr [VStr (fst kv); snd kv]) entries)
                | ResArray resources => Some (cache st ++ resources)
                | ResNull => None
                end
              with
              | None => (LoopThrew, called)
              | Some cache' =>
                  let st' := {| nextPageRequest := next; cache := cache';
                                calls := S (calls st) |} in
                  match cache' with
                  | [] =>
                      let attempts' := attempts + 1 in
                      if maxAttemptsEmptyResponse <? attempts'
                      then (LoopLeft, st')
                      else fetchLoop apiCall options (S fuel) attempts' st'
                  | _ :: _ => fetchLoop apiCall options (S fuel) attempts st'
                  end
              end
          | _, _ => (LoopLeft, st)
          end).
  rewrite Hcache, Hreq, Hcall. cbn [app].
  destruct result as [resources|entries|]; [| |discriminate].
  - injection Hitems as ->.
    now rewrite IteratorFacts.fetchLoop_cached by discriminate.
  - injection Hitems as Hitems. unfold entryTuples in Hitems. rewrite Hitems.
    now rewrite IteratorFacts.fetchLoop_cached by discriminate.
Qed.

Lemma next_fetches_page apiCall options st req items nxt :
  cache st = [] ->
  nextPageRequest st = Some req ->
  items <> [] ->
  (apiCall (calls st) req options = (ResArray items, nxt)
   \/ exists entries,
        apiCall (calls st) req options = (ResMap entries, nxt)
        /\ items = entryTuples entries) ->
  snd (fetchLoop apiCall options nextFuel 0 st)
  = {| nextPageRequest := nxt; cache := items; calls := S (calls st) |}
  /\ fst (fetchLoop apiCall options nextFuel 0 st) = LoopLeft.
Proof.
  intros Hcache Hreq Hne Hpage.
  destruct items as [|v rest]; [contradiction|].
  change nextFuel with (S (S 10)).
  destruct Hpage as [Hcall|(entries & Hcall & Hitems)].
  - now rewrite (fetchLoop_page apiCall options 10 0 st req _ nxt v rest
                   Hcache Hreq Hcall eq_refl).
  - now rewrite (fetchLoop_page apiCall options 10 0 st req _ nxt v rest
                   Hcache Hreq Hcall (f_equal Some (eq_sym Hitems))).
Qed.

(** X15. A page with resources is handed out whole and in order: when the cache
    is empty and the next call answers with the resources [items] (an array,
    or a map, whose entries become [key, value] tuples), the next
    [length items] calls of [next()] yield exactly [items], make that one
    API call, and leave the cache empty with the page's next-page request. *)
Theorem page_is_yielded_in_order apiCall options st req items nxt :
  cache st = [] ->
  nextPageRequest st = Some req ->
  items <> [] ->
  (apiCall (calls st) req options = (ResArray items, nxt)
   \/ exists entries,
        apiCall (calls st) req options = (ResMap entries, nxt)
        /\ items = entryTuples entries) ->
  drain apiCall options (length items) st
  = (map Yield items,
     {| nextPageRequest := nxt; cache := []; calls := S (calls st) |}).
Proof.
  intros Hcache Hreq Hne Hpage.
  destruct (next_fetches_page apiCall options st req items nxt Hcache Hreq Hne
              Hpage) as [Hst Hexit].
  destruct items as [|v rest]; [contradiction|].
  cbn [length drain]. unfold next. rewrite Hcache.
  destruct (fetchLoop apiCall options nextFuel 0 st) as [exit st'].
  cbn [fst snd] in *. subst exit st'. cbn [cache nextPageRequest calls].
  rewrite (drain_cached apiCall options rest
             {| nextPageRequest := nxt; cache := rest; calls := S (calls st) |}
             eq_refl).
  reflexivity.
Qed.

Lemma page_is_yielded_in_order_witness :
  drain (fun _ _ _ => (ResMap [("a", VNum 1); ("b", VNum 2)], None)) ∅
    (length (entryTuples [("a", VNum 1); ("b", VNum 2)]))
    (asyncIterator (VObj []))
  = (map Yield (entryTuples [("a", VNum 1); ("b", VNum 2)]),
     {| nextPageRequest := None; cache := [];
        calls := S (calls (asyncIterator (VObj []))) |}).
Proof.
  apply (page_is_yielded_in_order
           (fun _ _ _ => (ResMap [("a", VNum 1); ("b", VNum 2)], None)) ∅
           (asyncIterator (VObj [])) (VObj [])
           (entryTuples [("a", VNum 1); ("b", VNum 2)]) None).
  - reflexivity.
  - reflexivity.
  - discriminate.
  - right. eexists. split; reflexivity.
Defined.

Lemma fetchLoop_left apiCall options fuel :
  forall attempts st,
    cache st = [] ->
    0 <= attempts <= maxAttemptsEmptyResponse ->
    fst (fetchLoop apiCall options fuel attempts st) = LoopLeft ->
    cache (snd (fetchLoop apiCall options fuel attempts st)) = [] ->
    nextPageRequest (snd (fetchLoop apiCall options fuel attempts st)) = None
    \/ calls (snd (fetchLoop apiCall options fuel attempts st))
       = (calls st + Z.to_nat (11 - attempts))%nat.
Proof.
  unfold maxAttemptsEmptyResponse.
  induction fuel as [|fuel IH]; intros attempts st Hcache Hatt; [discriminate|].
  cbn [fetchLoop]. rewrite Hcache.
  destruct (nextPageRequest st) as [req|] eqn:Hreq; [|intros _ _; now left].
  destruct (apiCall (calls st) req options) as [result next].
  assert (Hstep : forall cache',
    let r := match cache' with
             | [] =>
                 if maxAttemptsEmptyResponse <? attempts + 1
                 then (LoopLeft, {| nextPageRequest := next; cache := cache';
                                    calls := S (calls st) |})
                 else fetchLoop apiCall options fuel (attempts + 1)
                        {| nextPageRequest := next; cache := cache';
                           calls := S (calls st) |}
             | _ :: _ =>
                 fetchLoop apiCall options fuel attempts
                   {| nextPageRequest := next; cache := cache';
                      calls := S (calls st) |}
             end in
    fst r = LoopLeft -> cache (snd r) = [] ->
    nextPageRequest (snd r) = None
    \/ calls (snd r) = (calls st + Z.to_nat (11 - attempts))%nat).
  { intros [|v rest]; cbn zeta.
    - unfold maxAttemptsEmptyResponse.
      destruct (Z.ltb_spec 10 (attempts + 1)) as [Hlt|Hge].
      + intros _ _. right. cbn. lia.
      + intros Hexit Hempty.
        destruct (IH (attempts + 1)
                    {| nextPageRequest := next; cache := [];
                       calls := S (calls st) |} eq_refl ltac:(lia) Hexit Hempty)
          as [H|H]; [now left|right].
        rewrite H. cbn [calls]. lia.
    - rewrite fetchLoop_nonempty_cache by discriminate. cbn [cache].
      intros _ H. discriminate H. }
  destruct result as [resources|entries|]; cbn [app];
    [apply Hstep|apply Hstep|discriminate].
Qed.

(** X16. [next()] reports the end only when nothing is cached and either no
    next page is named or this call has fetched eleven empty pages: the
    end is never reported over cached resources or short of the polling
    bound while a next page is pending. *)
Theorem done_means_exhausted_or_polled_out apiCall options st :
  fst (next apiCall options st) = Done ->
  cache st = []
  /\ cache (snd (next apiCall options st)) = []
  /\ (nextPageRequest (snd (next apiCall options st)) = None
      \/ calls (snd (next apiCall options st)) = (calls st + 11)%nat).
Proof.
  unfold next. destruct (cache st) as [|v rest] eqn:Hcache; [|discriminate].
  pose proof (fetchLoop_left apiCall options nextFuel 0 st Hcache
                ltac:(unfold maxAttemptsEmptyResponse; lia)) as H.
  destruct (fetchLoop apiCall options nextFuel 0 st) as [[| |] st'];
    cbn [fst snd] in *; try discriminate.
  destruct (cache st') as [|v rest] eqn:Hcache'; [|discriminate].
  intros _. cbn [snd]. split; [reflexivity|]. split; [exact Hcache'|].
  apply H; reflexivity.
Qed.

Lemma done_means_exhausted_or_polled_out_witness :
  cache (asyncIterator (VObj [])) = []
  /\ cache (snd (next (fun _ _ _ => (ResArray [], None)) ∅
                   (asyncIterator (VObj [])))) = []
  /\ (nextPageRequest (snd (next (fun _ _ _ => (ResArray [], None)) ∅
                              (asyncIterator (VObj [])))) = None
      \/ calls (snd (next (fun _ _ _ => (ResArray [], None)) ∅
                       (asyncIterator (VObj []))))
         = (calls (asyncIterator (VObj [])) + 11)%nat).
Proof.
  apply (done_means_exhausted_or_polled_out
           (fun _ _ _ => (ResArray [], None)) ∅ (asyncIterator (VObj []))).
  reflexivity.
Defined.

End IteratorMoreFacts.

(** ** More on the stream of [createStream] *)

Module StreamMoreFacts.
Import PageDescriptor StreamFacts.

Lemma pushed_app out1 out2 : pushed (out1 ++ out2) = pushed out1 ++ pushed out2.
Proof. unfold pushed. apply omap_app. Qed.

Lemma pushed_response apiResp out :
  pushed (EmitResponse apiResp :: out) = pushed out.
Proof. reflexivity. Qed.

Lemma pushed_end : pushed [StreamEnd] = [].
Proof. reflexivity. Qed.

Lemma pushed_immediate request options :
  pushed [SetImmediateApiCall request options] = [].
Proof. reflexivity. Qed.

(** *** [maxResults] *)

Lemma pushResources_capped m resources :
  forall s,
    capped m s ->
    capped m (fst (fst (pushResources resources s)))
    /\ pushCount (fst (fst (pushResources resources s)))
       = pushCount s
         + Z.of_nat (length (pushed (snd (fst (pushResources resources s))))).
Proof.
  induction resources as [|r rest IH]; intros s (Hmax & Hle & Hend).
  - cbn. split; [now repeat split|lia].
  - cbn [pushResources].
    destruct (ended s) eqn:Hended; [cbn; split; [now repeat split|lia]|].
    assert (Hlt : pushCount s < m).
    { destruct (Z.eq_dec (pushCount s) m) as [Heq|]; [|lia].
      specialize (Hend Heq). congruence. }
    assert (Hpush :
      let s1 := {| options := options s; request := request s;
                   maxResults := maxResults s; pushCount := pushCount s + 1;
                   started := started s;
                   ended := if reachedMaxResults (pushCount s + 1) (maxResults s)
                            then true else false;
                   paused := paused s |} in
      let r2 := let '(s2, out, ret) := pushResources rest s1 in
                (s2,
                 [Push r]
                 ++ (if reachedMaxResults (pushCount s + 1) (maxResults s)
                     then [StreamEnd] else [])
                 ++ out, ret) in
      capped m (fst (fst r2))
      /\ pushCount (fst (fst r2))
         = pushCount s + Z.of_nat (length (pushed (snd (fst r2))))).
    { intros s1 r2. subst r2.
      assert (Hcap1 : capped m s1).
      { subst s1. unfold capped, reachedMaxResults.
        cbn [maxResults pushCount ended]. rewrite Hmax.
        split; [reflexivity|]. split; [lia|].
        intros Heq. now rewrite (proj2 (Z.eqb_eq _ _) Heq). }
      destruct (IH s1 Hcap1) as [Hcap2 Hcount].
      destruct (pushResources rest s1) as [[s2 out] ret]. cbn [fst snd] in *.
      split; [exact Hcap2|].
      rewrite Hcount, !pushed_app. subst s1. cbn [pushCount].
      destruct (reachedMaxResults (pushCount s + 1) (maxResults s));
        cbn [pushed omap app length]; rewrite ?length_app; cbn; lia. }
    destruct r; try exact Hpush.
    apply IH. split; [exact Hmax|]. split; [exact Hle|]. intros Heq. lia.
Qed.

Lemma streamStep_capped m s ev :
  capped m s ->
  capped m (fst (streamStep s ev))
  /\ pushCount (fst (streamStep s ev))
     = pushCount s + Z.of_nat (length (pushed (snd (streamStep s ev)))).
Proof.
  intros Hcap. destruct ev as [| |err resources next apiResp]; cbn [streamStep].
  - unfold onResume. cbn [started]. destruct (started s); cbn [negb fst snd];
      (split; [exact Hcap|cbn; lia]).
  - cbn. split; [exact Hcap|lia].
  - unfold callback. destruct err as [e|]; [cbn; split; [exact Hcap|lia]|].
    destruct (pushResources_capped m resources s Hcap) as [Hcap1 Hcount].
    destruct (pushResources resources s) as [[s1 out] ret]. cbn [fst snd] in *.
    destruct Hcap1 as (Hmax1 & Hle1 & Hend1).
    assert (Hresp : length (pushed (EmitResponse apiResp :: out))
                    = length (pushed out)) by reflexivity.
    destruct ret; [cbn [fst snd]; rewrite Hresp; now repeat split|].
    destruct (ended s1) eqn:Hended1;
      [cbn [fst snd]; rewrite Hresp; now repeat split|].
    destruct next as [nextRequest|].
    + destruct (paused s1); cbn [fst snd]; rewrite ?pushed_app, ?length_app, ?Hresp;
        (split; [unfold capped; cbn [maxResults pushCount ended];
                 now repeat split
                |cbn; lia]).
    + cbn [fst snd]. rewrite pushed_app, length_app, Hresp.
      split; [unfold capped; cbn [maxResults pushCount ended]; now repeat split
             |cbn; lia].
Qed.

Lemma streamRun_capped m evs :
  forall s,
    capped m s ->
    capped m (fst (streamRun s evs))
    /\ pushCount (fst (streamRun s evs))
       = pushCount s + Z.of_nat (length (pushed (snd (streamRun s evs)))).
Proof.
  induction evs as [|ev evs IH]; intros s Hcap; [cbn; split; [exact Hcap|lia]|].
  cbn [streamRun]. destruct (streamStep_capped m s ev Hcap) as [Hcap1 Hcount1].
  destruct (streamStep s ev) as [s1 out1]. cbn [fst snd] in *.
  destruct (IH s1 Hcap1) as [Hcap2 Hcount2].
  destruct (streamRun s1 evs) as [s2 out2]. cbn [fst snd] in *.
  split; [exact Hcap2|]. rewrite pushed_app, length_app. lia.
Qed.

(** X17. With [maxResults = m], at least 1, in the options the stream is never
    pushed more than [m] resources, however many pages arrive and however
    many resources they hold. *)
Theorem pushes_bounded_by_maxResults request options0 m evs :
  options0 !! "maxResults" = Some (VNum m) ->
  1 <= m ->
  Z.of_nat (length (pushed (snd (streamRun (fst (createStream request (Some options0)))
                                   evs)))) <= m.
Proof.
  intros Hopt Hm.
  assert (Hcap : capped m (fst (createStream request (Some options0)))).
  { unfold capped, createStream.
    cbn [fst maxResults pushCount ended default from_option id].
    rewrite lookup_insert_ne by discriminate. rewrite Hopt.
    cbn [default from_option id].
    split; [reflexivity|]. split; [lia|]. lia. }
  destruct (streamRun_capped m evs _ Hcap) as [(_ & Hle & _) Hcount].
  rewrite Hcount in Hle.
  replace (pushCount (fst (createStream request (Some options0)))) with 0 in Hle
    by reflexivity.
  lia.
Qed.

Lemma pushes_bounded_by_maxResults_witness :
  Z.of_nat (length (pushed (snd (streamRun
                                   (fst (createStream (VObj [])
                                           (Some (<["maxResults" := VNum 3]> ∅))))
                                   [Resume;
                                    Callback None [VNum 1; VNum 2] (Some (VObj []))
                                      (VObj []);
                                    Callback None [VNum 3; VNum 4] (Some (VObj []))
                                      (VObj []);
                                    Callback None [VNum 5; VNum 6] None (VObj [])]))))
  <= 3.
Proof.
  apply (pushes_bounded_by_maxResults (VObj []) (<["maxResults" := VNum 3]> ∅) 3
           [Resume;
            Callback None [VNum 1; VNum 2] (Some (VObj [])) (VObj []);
            Callback None [VNum 3; VNum 4] (Some (VObj [])) (VObj []);
            Callback None [VNum 5; VNum 6] None (VObj [])]);
    [reflexivity|lia].
Defined.

(** *** Pages without a cap *)

Lemma pushResources_uncapped resources :
  forall s,
    ended s = false ->
    maxResults s = VNum (-1) ->
    0 <= pushCount s ->
    pushed (snd (fst (pushResources resources s)))
    = List.filter (fun r => negb (isNull r)) resources
    /\ ended (fst (fst (pushResources resources s))) = false
    /\ snd (pushResources resources s) = false.
Proof.
  induction resources as [|r rest IH]; intros s Hended Hmax Hpos.
  - now cbn.
  - cbn [pushResources]. rewrite Hended.
    assert (Hmiss : reachedMaxResults (pushCount s + 1) (maxResults s) = false).
    { unfold reachedMaxResults. rewrite Hmax. apply Z.eqb_neq. lia. }
    rewrite Hmiss.
    assert (Hpush :
      let r2 := let '(s2, out, ret) :=
                    pushResources rest
                      {| options := options s; request := request s;
                         maxResults := maxResults s; pushCount := pushCount s + 1;
                         started := started s; ended := false;
                         paused := paused s |} in
                (s2, [Push r] ++ [] ++ out, ret) in
      pushed (snd (fst r2)) = r :: List.filter (fun r => negb (isNull r)) rest
      /\ ended (fst (fst r2)) = false /\ snd r2 = false).
    { intros r2. subst r2.
      destruct (IH {| options := options s; request := request s;
                      maxResults := maxResults s; pushCount := pushCount s + 1;
                      started := started s; ended := false;
                      paused := paused s |})
        as (Hp & He & Hr); cbn [ended maxResults pushCount];
        [reflexivity|exact Hmax|lia|].
      destruct (pushResources rest _) as [[s2 out] ret]. cbn [fst snd] in *.
      rewrite !pushed_app. change (pushed [Push r]) with [r].
      change (pushed []) with (@nil JsValue). cbn [app]. now rewrite Hp. }
    destruct r; cbn [List.filter isNull negb]; try exact Hpush.
    now apply IH.
Qed.

(** X18. A page that arrives on a stream without [maxResults] that has not
    ended first emits the raw response and then pushes every resource of
    the page that is not [null], in the order of the page. *)
Theorem page_pushes_non_null_resources s resources next apiResp :
  ended s = false ->
  maxResults s = VNum (-1) ->
  0 <= pushCount s ->
  pushed (snd (callback None resources next apiResp s))
  = List.filter (fun r => negb (isNull r)) resources
  /\ head (snd (callback None resources next apiResp s))
     = Some (EmitResponse apiResp).
Proof.
  intros Hended Hmax Hpos. unfold callback.
  destruct (pushResources_uncapped resources s Hended Hmax Hpos)
    as (Hp & He & Hr).
  destruct (pushResources resources s) as [[s1 out] ret]. cbn [fst snd] in *.
  subst ret. rewrite He.
  destruct next as [nextRequest|]; [destruct (paused s1)|]; cbn [fst snd];
    rewrite ?pushed_app, pushed_response, ?pushed_end, ?pushed_immediate, Hp,
      ?app_nil_r;
    now split.
Qed.

Lemma page_pushes_non_null_resources_witness :
  pushed (snd (callback None [VStr "a"; VNull; VStr "b"] None (VObj [])
                 (fst (createStream (VObj []) None))))
  = List.filter (fun r => negb (isNull r)) [VStr "a"; VNull; VStr "b"]
  /\ head (snd (callback None [VStr "a"; VNull; VStr "b"] None (VObj [])
                  (fst (createStream (VObj []) None))))
     = Some (EmitResponse (VObj [])).
Proof.
  apply (page_pushes_non_null_resources (fst (createStream (VObj []) None))
           [VStr "a"; VNull; VStr "b"] None (VObj []));
    [reflexivity|reflexivity|simpl; lia].
Defined.

(** *** [autoPaginate] *)

Lemma streamStep_autoPaginate s ev :
  options s !! "autoPaginate" = Some (VBool false) ->
  options (fst (streamStep s ev)) !! "autoPaginate" = Some (VBool false)
  /\ Forall (fun call => snd call !! "autoPaginate" = Some (VBool false))
       (pageCalls (snd (streamStep s ev))).
Proof.
  intros Hauto. destruct ev as [| |err resources next apiResp]; cbn [streamStep].
  - unfold onResume. cbn [started]. destruct (started s); cbn [negb fst snd options].
    + split; [exact Hauto|constructor].
    + split; [exact Hauto|]. cbn. constructor; [exact Hauto|constructor].
  - split; [exact Hauto|constructor].
  - destruct err as [e|]; [split; [exact Hauto|constructor]|].
    destruct (ended (fst (fst (pushResources resources s)))) eqn:Hended.
    + unfold callback.
      destruct (pushResources_frame resources s) as (Ho & _ & _ & _ & Hc & _).
      destruct (pushResources resources s) as [[s1 out] ret]. cbn [fst snd] in *.
      rewrite Hended.
      destruct ret; cbn [fst snd]; rewrite Ho, pageCalls_response, Hc;
        (split; [exact Hauto|constructor]).
    + destruct next as [nextRequest|].
      * destruct (callback_continues s resources nextRequest apiResp Hended)
          as (out & Hc & ->).
        assert (Hkeep : delete "pageToken" (options s) !! "autoPaginate"
                        = Some (VBool false))
          by (rewrite lookup_delete_ne by discriminate; exact Hauto).
        destruct (paused s); cbn [fst snd options].
        -- split; [exact Hkeep|]. rewrite Hc. constructor.
        -- split; [exact Hkeep|]. rewrite pageCalls_app, Hc. cbn.
           constructor; [exact Hkeep|constructor].
      * unfold callback.
        destruct (pushResources_frame resources s) as (Ho & _ & _ & _ & Hc & He).
        destruct (pushResources resources s) as [[s1 out] ret]. cbn [fst snd] in *.
        destruct ret; [now rewrite He in Hended|].
        rewrite Hended. cbn [fst snd options]. rewrite Ho.
        split; [exact Hauto|].
        rewrite pageCalls_app, pageCalls_response, pageCalls_end, Hc. constructor.
Qed.

(** X19. Whatever the caller put into [autoPaginate] (or left out), every page
    call that the stream makes carries [autoPaginate: false]. *)
Theorem every_page_call_has_autoPaginate_false request options0 evs :
  Forall (fun call => snd call !! "autoPaginate" = Some (VBool false))
    (pageCalls (snd (streamRun (fst (createStream request options0)) evs))).
Proof.
  assert (Hstart : options (fst (createStream request options0)) !! "autoPaginate"
                   = Some (VBool false)) by apply lookup_insert_eq.
  revert Hstart. generalize (fst (createStream request options0)).
  induction evs as [|ev evs IH]; intros s Hauto; [constructor|].
  cbn [streamRun]. destruct (streamStep_autoPaginate s ev Hauto) as [Hauto1 Hcalls].
  destruct (streamStep s ev) as [s1 out1]. cbn [fst snd] in *.
  specialize (IH s1 Hauto1).
  destruct (streamRun s1 evs) as [s2 out2]. cbn [fst snd] in *.
  rewrite pageCalls_app. apply Forall_app. now split.
Qed.

(** *** After the end *)

Lemma streamStep_after_end s ev :
  ended s = true -> started s = true ->
  ended (fst (streamStep s ev)) = true
  /\ started (fst (streamStep s ev)) = true
  /\ forallb isQuiet (snd (streamStep s ev)) = true.
Proof.
  intros Hended Hstarted.
  destruct ev as [| |err resources next apiResp]; cbn [streamStep].
  - unfold onResume. cbn [started]. rewrite Hstarted. now cbn.
  - now cbn.
  - unfold callback. destruct err as [e|]; [now cbn|].
    destruct resources as [|r rest]; cbn [pushResources]; rewrite Hended;
      cbn [fst snd]; rewrite ?Hended; now cbn.
Qed.

(** X20. Once the stream has ended (and its first call was made), nothing more
    is pushed, no page is asked for and the stream is not ended again,
    whatever arrives: a late page only emits its raw response, a late error
    only the error. *)
Theorem nothing_happens_after_end s evs :
  ended s = true -> started s = true ->
  forallb isQuiet (snd (streamRun s evs)) = true.
Proof.
  revert s. induction evs as [|ev evs IH]; intros s Hended Hstarted; [reflexivity|].
  cbn [streamRun].
  destruct (streamStep_after_end s ev Hended Hstarted) as (He & Hs & Hq).
  destruct (streamStep s ev) as [s1 out1]. cbn [fst snd] in *.
  specialize (IH s1 He Hs).
  destruct (streamRun s1 evs) as [s2 out2]. cbn [snd] in *.
  rewrite forallb_app, Hq, IH. reflexivity.
Qed.

Lemma nothing_happens_after_end_witness :
  forallb isQuiet
    (snd (streamRun
            (fst (streamRun (fst (createStream (VObj []) None))
                    [Resume; Callback None [VNum 1] None (VObj [])]))
            [Callback None [VNum 2] (Some (VObj [])) (VObj []); Resume]))
  = true.
Proof.
  apply (nothing_happens_after_end
           (fst (streamRun (fst (createStream (VObj []) None))
                   [Resume; Callback None [VNum 1] None (VObj [])]))
           [Callback None [VNum 2] (Some (VObj [])) (VObj []); Resume]);
    reflexivity.
Defined.

End StreamMoreFacts.

(** ** The proxy object *)

Module ProxyFacts.
Import StreamProxy.

(** While no cancel was asked, every call that retry-request makes of the
    request function it was given reaches the API once, with the argument
    of [setStream], and wires the events of the new stream. *)
Lemma run_legacyRequest argument n :
  forall p,
    _isCancelCalled p = false ->
    snd (proxyRun p (repeat (OpRequest (legacyRequest argument)) n))
    = concat (repeat [CallApi argument; ForwardEvents] n).
Proof.
  induction n as [|n IH]; intros p Hp; [reflexivity|].
  cbn [repeat proxyRun proxyStep concat]. unfold legacyRequest at 1. rewrite Hp.
  specialize (IH (set_stream ApiStream p) Hp).
  destruct (proxyRun (set_stream ApiStream p)
              (repeat (OpRequest (legacyRequest argument)) n)) as [p2 out2].
  cbn [snd] in *. now rewrite IH.
Qed.

(** X21. [setStream] on a new proxy wires exactly the sides that the constructor
    declared: it calls [setReadable] once if the duplex was made readable
    (every type but client streaming) and not otherwise, and [setWritable]
    once if it was made writable (every type but server streaming) and not
    otherwise; it cancels nothing. It makes exactly one API call itself in
    every mode but the legacy server-streaming one. There it hands
    retry-request the request function, and each call of that function
    makes one API call with the argument of [setStream] and wires the events
    of the stream. *)
Theorem setStream_wires_declared_sides ty isRest gax argument retry now :
  let p := constructor ty isRest gax in
  let out := snd (setStream argument retry now p) in
  length (List.filter isSetReadable out) = (if readable p then 1 else 0)%nat
  /\ length (List.filter isSetWritable out) = (if writable p then 1 else 0)%nat
  /\ List.filter isCancelStream out = []
  /\ match ty with
     | SERVER_STREAMING =>
         if isRest || gax
         then length (List.filter isProxyApiCall out) = 1%nat
         else
           out = [CallRetryRequest (legacyRequest argument); SetReadable None]
           /\ forall n,
                snd (proxyRun (fst (setStream argument retry now p))
                       (repeat (OpRequest (legacyRequest argument)) n))
                = concat (repeat [CallApi argument; ForwardEvents] n)
     | _ => length (List.filter isProxyApiCall out) = 1%nat
     end.
Proof.
  destruct ty, isRest, gax; cbn; repeat split.
  intros n. now apply run_legacyRequest.
Qed.

(** X22. On a client-streaming or bidi-streaming proxy, [cancel()] is honoured
    whether it comes before or after [setStream]: either way the API call is
    made, the stream is wired, and then the stream is cancelled, once. *)
Theorem cancel_is_deferred_until_setStream ty isRest gax argument retry now :
  ty <> SERVER_STREAMING ->
  snd (proxyRun (constructor ty isRest gax)
         [OpCancel; OpSetStream argument retry now])
  = snd (setStream argument retry now (constructor ty isRest gax))
    ++ [CancelStream]
  /\ snd (proxyRun (constructor ty isRest gax)
            [OpSetStream argument retry now; OpCancel])
     = snd (setStream argument retry now (constructor ty isRest gax))
       ++ [CancelStream]
  /\ head (snd (setStream argument retry now (constructor ty isRest gax)))
     = Some (CallApi argument).
Proof.
  intros Hty. destruct ty; [contradiction| |]; now repeat split.
Qed.

Lemma cancel_is_deferred_until_setStream_witness :
  snd (proxyRun (constructor BIDI_STREAMING false false)
         [OpCancel; OpSetStream (VObj []) (retry (Scenarios.call [] None None)) 0])
  = snd (setStream (VObj []) (retry (Scenarios.call [] None None)) 0
           (constructor BIDI_STREAMING false false))
    ++ [CancelStream]
  /\ snd (proxyRun (constructor BIDI_STREAMING false false)
            [OpSetStream (VObj []) (retry (Scenarios.call [] None None)) 0; OpCancel])
     = snd (setStream (VObj []) (retry (Scenarios.call [] None None)) 0
              (constructor BIDI_STREAMING false false))
       ++ [CancelStream]
  /\ head (snd (setStream (VObj []) (retry (Scenarios.call [] None None)) 0
                  (constructor BIDI_STREAMING false false)))
     = Some (CallApi (VObj [])).
Proof.
  apply (cancel_is_deferred_until_setStream BIDI_STREAMING false false (VObj [])
           (retry (Scenarios.call [] None None)) 0).
  discriminate.
Defined.

(** X23. In server streaming over REST or with the new retries, a [cancel()]
    that comes before [setStream] never cancels a stream: over REST the call
    is made and wired as if nothing had been asked, and with the new retries
    no call is made at all. *)
Theorem early_cancel_in_server_streaming isRest gax argument retry now :
  isRest || gax = true ->
  List.filter isCancelStream
    (snd (proxyRun (constructor SERVER_STREAMING isRest gax)
            [OpCancel; OpSetStream argument retry now])) = []
  /\ length (List.filter isProxyApiCall
               (snd (proxyRun (constructor SERVER_STREAMING isRest gax)
                       [OpCancel; OpSetStream argument retry now])))
     = (if isRest then 1 else 0)%nat.
Proof. destruct isRest, gax; cbn; intros H; try discriminate H; now split. Qed.

Lemma early_cancel_in_server_streaming_witness :
  List.filter isCancelStream
    (snd (proxyRun (constructor SERVER_STREAMING true false)
            [OpCancel;
             OpSetStream (VObj []) (retry (Scenarios.call [] None None)) 0])) = []
  /\ length (List.filter isProxyApiCall
               (snd (proxyRun (constructor SERVER_STREAMING true false)
                       [OpCancel;
                        OpSetStream (VObj []) (retry (Scenarios.call [] None None))
                          0])))
     = 1%nat.
Proof.
  apply (early_cancel_in_server_streaming true false (VObj [])
           (retry (Scenarios.call [] None None)) 0).
  reflexivity.
Defined.

End ProxyFacts.
